(** * MVT module core: [mvt/common/module.py]

    A shallow embedding of the module lifecycle of the Mobile Verification
    Toolkit: the [MVTModule] base class, the runner [run_module] and the
    timeline writer [save_timeline], followed by the properties of the
    specification that were checked against it.

    Conventions of the embedding.
    - Python values are the inductive [pyval]; a [dict] is an association
      list in insertion order (keys are [str], and a well-formed dict has
      no repeated key).
    - JSON text is represented by the document it denotes ([json]); the
      renderer and the parser of [simplejson] are inverse to each other on
      documents, so two texts are equal exactly when their documents are.
    - A Python [set] is iterated in an order the language leaves open; the
      iteration order is the parameter [set_iter], constrained only by
      [set_contract].
    - Exceptions are values of [exn]; a computation returns a [result].
    - Files live in a finite map from paths to the chunks written so far;
      whether opening a file, dumping into it or closing it fails is
      decided by an [io_env].
    - Strings are sequences of 8-bit characters; what is stated about the
      letters of a class name is stated for ASCII names. *)

From Stdlib Require Import String Ascii ZArith List Bool Lia Sorted Permutation.
From Stdlib Require OrderedTypeEx.
From stdpp Require Import base gmap strings list.

Import ListNotations.
Set Warnings "-register-all".
Local Open Scope string_scope.
Local Open Scope list_scope.

(** ** Exceptions and results *)

(** The exception classes the module distinguishes.  [OtherException]
    stands for any further subclass of [Exception]; [KeyboardInterrupt]
    derives from [BaseException] only, so [except Exception] lets it
    pass. *)
Inductive exn_class :=
| NotImplementedError
| InsufficientPrivileges
| DatabaseNotFoundError
| DatabaseCorruptedError
| TypeError
| KeyError
| AttributeError
| OSError
| JSONDecodeError
| OtherException (name : string)
| KeyboardInterrupt.

Record exn := Exn { exn_cls : exn_class; exn_msg : string }.

Definition is_Exception (e : exn) : bool :=
  match exn_cls e with
  | KeyboardInterrupt => false
  | _ => true
  end.

Inductive result (A : Type) :=
| Ok (a : A)
| Raise (e : exn).
Arguments Ok {A} a.
Arguments Raise {A} e.

Definition result_bind {A B} (r : result A) (k : A -> result B) : result B :=
  match r with
  | Ok a => k a
  | Raise e => Raise e
  end.

Definition result_map {A B} (f : A -> B) (r : result A) : result B :=
  result_bind r (fun a => Ok (f a)).

(** Evaluate the computations of a list from left to right; the first
    exception wins. *)
Fixpoint sequence {A} (l : list (result A)) : result (list A) :=
  match l with
  | [] => Ok []
  | r :: rest =>
      result_bind r (fun a =>
      result_bind (sequence rest) (fun l' => Ok (a :: l')))
  end.

(** ** Python values and JSON documents *)

Inductive json :=
| JNull
| JBool (b : bool)
| JInt (z : Z)
| JStr (s : string)
| JArr (items : list json)
| JObj (members : list (string * json)).

(** [PObj repr truth] is an object [simplejson] has no encoding rule for
    (a [datetime], say; [bytes] are not of that kind, [simplejson] writes
    them as text): the code only ever observes its [str()] text and its
    truth value.  Floats and dicts with a key that is not a [str] are not
    represented. *)
Inductive pyval :=
| PNone
| PBool (b : bool)
| PInt (z : Z)
| PStr (s : string)
| PList (items : list pyval)
| PTuple (items : list pyval)
| PDict (items : list (string * pyval))
| PObj (repr : string) (truth : bool).

(** Truth value of a Python object, as tested by [if x:]. *)
Definition truthy (v : pyval) : bool :=
  match v with
  | PNone => false
  | PBool b => b
  | PInt z => negb (Z.eqb z 0)
  | PStr s => negb (String.eqb s "")
  | PList l | PTuple l => negb (Nat.eqb (List.length l) 0)
  | PDict d => negb (Nat.eqb (List.length d) 0)
  | PObj _ t => t
  end.

(** *** Dictionaries *)

Fixpoint dict_get {V} (k : string) (d : list (string * V)) : option V :=
  match d with
  | [] => None
  | (k', v) :: rest => if String.eqb k k' then Some v else dict_get k rest
  end.

(** [d[k] = v]: an existing key keeps its position, a new key goes last. *)
Fixpoint dict_set {V} (k : string) (v : V) (d : list (string * V))
  : list (string * V) :=
  match d with
  | [] => [(k, v)]
  | (k', v') :: rest =>
      if String.eqb k k' then (k, v) :: rest else (k', v') :: dict_set k v rest
  end.

Definition dict_of_pairs {V} (kvs : list (string * V)) : list (string * V) :=
  fold_left (fun d kv => dict_set (fst kv) (snd kv) d) kvs [].

Definition dict_wf {V} (d : list (string * V)) : Prop := List.NoDup (map fst d).

(** *** Sorting, as [sorted(..., key=...)] does: stable, ascending, keys
    compared as strings. *)

Section Sorting.
Context {A : Type} (key : A -> string).

Fixpoint insert_by (x : A) (l : list A) : list A :=
  match l with
  | [] => [x]
  | y :: rest =>
      if String.leb (key x) (key y) then x :: y :: rest
      else y :: insert_by x rest
  end.

Fixpoint sorted_by (l : list A) : list A :=
  match l with
  | [] => []
  | x :: rest => insert_by x (sorted_by rest)
  end.
End Sorting.

(** *** The JSON encoder and decoder *)

(** [encode sort_keys default_str v] is the document that
    [json.dump(s)(v, sort_keys=sort_keys, default=str if default_str else None)]
    renders.  Tuples are encoded as arrays; an object without an encoding
    rule is passed to [default] (its [str()] text is encoded) or makes
    the encoder raise [TypeError].  With [sort_keys] the members of every
    object are ordered by name; the members are encoded first and ordered
    afterwards, which yields the same document. *)
Fixpoint encode (sort_keys default_str : bool) (v : pyval) : result json :=
  match v with
  | PNone => Ok JNull
  | PBool b => Ok (JBool b)
  | PInt z => Ok (JInt z)
  | PStr s => Ok (JStr s)
  | PList l | PTuple l =>
      result_map JArr (sequence (map (encode sort_keys default_str) l))
  | PDict d =>
      let members :=
        sequence (map (fun kv =>
                         result_map (pair (fst kv))
                                    (encode sort_keys default_str (snd kv)))
                      d) in
      result_map
        (fun ms => JObj (if sort_keys then sorted_by fst ms else ms))
        members
  | PObj repr _ =>
      if default_str then Ok (JStr repr)
      else Raise (Exn TypeError "Object is not JSON serializable")
  end.

(** [json.load(s)]: arrays become lists, objects become dicts (a repeated
    member name overwrites the earlier value). *)
Fixpoint decode (j : json) : pyval :=
  match j with
  | JNull => PNone
  | JBool b => PBool b
  | JInt z => PInt z
  | JStr s => PStr s
  | JArr l => PList (map decode l)
  | JObj ms => PDict (dict_of_pairs (map (fun kv => (fst kv, decode (snd kv))) ms))
  end.

(** [for x in v]: the items an iteration over [v] yields.  Objects without
    an encoding rule are taken to be non-iterable (as a datetime is). *)
Definition py_iter (v : pyval) : result (list pyval) :=
  match v with
  | PList l | PTuple l => Ok l
  | PDict d => Ok (map (fun kv => PStr (fst kv)) d)
  | PStr s => Ok (map (fun c => PStr (String c EmptyString)) (list_ascii_of_string s))
  | _ => Raise (Exn TypeError "object is not iterable")
  end.

(** [len(v)]. *)
Definition py_len (v : pyval) : result nat :=
  match v with
  | PList l | PTuple l => Ok (List.length l)
  | PDict d => Ok (List.length d)
  | PStr s => Ok (String.length s)
  | _ => Raise (Exn TypeError "object has no len()")
  end.

(** ** Module identity: the regular expressions of [get_slug] *)

Definition is_upper (c : ascii) : bool :=
  (65 <=? nat_of_ascii c)%nat && (nat_of_ascii c <=? 90)%nat.
Definition is_lower (c : ascii) : bool :=
  (97 <=? nat_of_ascii c)%nat && (nat_of_ascii c <=? 122)%nat.
Definition is_digit (c : ascii) : bool :=
  (48 <=? nat_of_ascii c)%nat && (nat_of_ascii c <=? 57)%nat.
Definition is_newline (c : ascii) : bool := (nat_of_ascii c =? 10)%nat.

(** [str.lower()] on ASCII text: a capital letter [A]-[Z] becomes its
    small letter, any other character is kept.  A character outside ASCII
    is kept as well, which is where this departs from [str.lower()] (that
    lowers a non-ASCII capital too); what is stated about the letters of a
    derived name is stated for ASCII class names. *)
Definition to_lower (c : ascii) : ascii :=
  if is_upper c then ascii_of_nat (nat_of_ascii c + 32) else c.

(** The longest prefix whose characters satisfy [p], and what follows it. *)
Fixpoint span (p : ascii -> bool) (s : list ascii) : list ascii * list ascii :=
  match s with
  | [] => ([], [])
  | c :: rest =>
      if p c then let '(yes, no) := span p rest in (c :: yes, no)
      else ([], s)
  end.

(** A pattern together with its replacement template: tried at the head
    of the remaining input, it yields the replacement text and the input
    left after the match. *)
Definition matcher := list ascii -> option (list ascii * list ascii).

(** [re.sub(pattern, repl, s)]: leftmost matches, not overlapping; where
    the pattern does not match, one character is copied. *)
Fixpoint re_sub_from (fuel : nat) (m : matcher) (s : list ascii) : list ascii :=
  match fuel with
  | O => s
  | S fuel' =>
      match s with
      | [] => []
      | c :: rest =>
          match m s with
          | Some (repl, rest') => repl ++ re_sub_from fuel' m rest'
          | None => c :: re_sub_from fuel' m rest
          end
      end
  end.

Definition re_sub (m : matcher) (s : list ascii) : list ascii :=
  re_sub_from (List.length s) m s.

(** ["(.)([A-Z][a-z]+)"] replaced by [r"\1_\2"]. *)
Definition word_start : matcher := fun s =>
  match s with
  | c1 :: c2 :: c3 :: rest =>
      if negb (is_newline c1) && is_upper c2 && is_lower c3 then
        let '(lows, rest') := span is_lower rest in
        Some (c1 :: "_"%char :: c2 :: c3 :: lows, rest')
      else None
  | _ => None
  end.

(** ["([a-z0-9])([A-Z])"] replaced by [r"\1_\2"]. *)
Definition capital_after_lower : matcher := fun s =>
  match s with
  | c1 :: c2 :: rest =>
      if (is_lower c1 || is_digit c1) && is_upper c2 then
        Some ([c1; "_"%char; c2], rest)
      else None
  | _ => None
  end.

Definition derive_slug (class_name : string) : string :=
  let sub := re_sub word_start (list_ascii_of_string class_name) in
  string_of_list_ascii (map to_lower (re_sub capital_after_lower sub)).

(** [os.path.join(a, b)] on POSIX paths. *)
Definition starts_with_slash (s : string) : bool :=
  match s with
  | String c _ => Ascii.eqb c "/"%char
  | EmptyString => false
  end.

Fixpoint ends_with_slash (s : string) : bool :=
  match s with
  | EmptyString => false
  | String c EmptyString => Ascii.eqb c "/"%char
  | String _ rest => ends_with_slash rest
  end.

Definition path_join (a b : string) : string :=
  if starts_with_slash b then b
  else if String.eqb a "" || ends_with_slash a then String.append a b
  else String.append a (String.append "/" b).

(** ** Module state, classes, the world *)

Inductive logger := Logger (name : string).

Inductive log_method := LInfo | LError | LException.

Inductive method := Mrun | Mcheck_indicators | Mto_timeline | Msave_to_json.

(** What a run leaves behind, in order: the methods the runner invoked,
    the files opened (with the mode), the records handed to a logger. *)
Inductive event :=
| Called (m : method)
| Opened (path mode : string)
| Logged (lg : logger) (lvl : log_method) (template : string) (args : list pyval).

(** What a file holds: JSON documents, rows of a CSV table, or the
    unusable remains of a dump that failed midway. *)
Inductive chunk :=
| Doc (j : json)
| Row (cells : list (option string))
| Partial.

Record world := World {
  files : gmap string (list chunk);
  events : list event
}.

(** The failures of the operating system are decided from outside:
    opening a path in a mode, writing the text of [json.dump] to a path,
    and flushing that text when the handle is closed. *)
Record io_env := IoEnv {
  open_error : string -> string -> option exn;
  dump_error : string -> option exn;
  close_error : string -> option exn
}.

Record MVTModule := Module {
  file_path : option string;
  base_folder : option string;
  output_folder : option string;
  fast_mode : bool;
  log : option logger;
  indicators : option string;
  results : pyval;
  detected : list pyval;
  timeline : list pyval;
  timeline_detected : list pyval
}.

(** [MVTModule.__init__]; sharing of the default [results] list between
    instances is the subject of the module [Aliasing] below. *)
Definition init (file_path base_folder output_folder : option string)
    (fast_mode : bool) (log : option logger) (results : pyval) : MVTModule :=
  {| file_path := file_path; base_folder := base_folder;
     output_folder := output_folder; fast_mode := fast_mode; log := log;
     indicators := None; results := results; detected := [];
     timeline := []; timeline_detected := [] |}.

(** A module class: its name, its [slug] attribute and the three methods
    a subclass overrides.  The overrides act on the instance; [serialize]
    maps one entry to a record. *)
Record module_class := ModuleClass {
  class_name : string;
  slug : option string;
  run : MVTModule -> result unit * MVTModule;
  check_indicators : MVTModule -> result unit * MVTModule;
  serialize : pyval -> result pyval
}.

(** The base class: every overridable method raises [NotImplementedError]. *)
Definition not_implemented : exn := Exn NotImplementedError "".

Definition MVTModule_class : module_class :=
  {| class_name := "MVTModule"; slug := None;
     run := fun m => (Raise not_implemented, m);
     check_indicators := fun m => (Raise not_implemented, m);
     serialize := fun _ => Raise not_implemented |}.

Definition get_slug (cls : module_class) : string :=
  match slug cls with
  | Some s => if negb (String.eqb s "") then s else derive_slug (class_name cls)
  | None => derive_slug (class_name cls)
  end.

Definition load_indicators (ioc_path : string) (m : MVTModule) : MVTModule :=
  {| file_path := m.(file_path); base_folder := m.(base_folder);
     output_folder := m.(output_folder); fast_mode := m.(fast_mode);
     log := m.(log); indicators := Some ioc_path; results := m.(results);
     detected := m.(detected); timeline := m.(timeline);
     timeline_detected := m.(timeline_detected) |}.

Definition set_timelines (t td : list pyval) (m : MVTModule) : MVTModule :=
  {| file_path := m.(file_path); base_folder := m.(base_folder);
     output_folder := m.(output_folder); fast_mode := m.(fast_mode);
     log := m.(log); indicators := m.(indicators); results := m.(results);
     detected := m.(detected); timeline := t; timeline_detected := td |}.

(** ** Computations with state and exceptions *)

(** A computation over a state [S] returns a value or raises; either way
    it leaves a state behind (what was mutated before a [raise] stays
    mutated). *)
Definition M (S A : Type) : Type := S -> result A * S.

Definition ret {S A} (a : A) : M S A := fun s => (Ok a, s).

Definition raise {S A} (e : exn) : M S A := fun s => (Raise e, s).

Definition bind {S A B} (c : M S A) (k : A -> M S B) : M S B :=
  fun s =>
    match c s with
    | (Ok a, s') => k a s'
    | (Raise e, s') => (Raise e, s')
    end.

Declare Scope py_scope.
Delimit Scope py_scope with py.
Notation "'let*' x := c 'in' k" := (bind c (fun x => k))
  (at level 10, x name, c at level 100, k at level 200) : py_scope.
Notation "c >> k" := (bind c (fun _ => k))
  (at level 62, right associativity) : py_scope.
Local Open Scope py_scope.

(** [try: body / except ...: handler]: [handler e] is [Some h] when an
    [except] clause matches [e]. *)
Definition try_except {S A} (body : M S A) (handler : exn -> option (M S A))
  : M S A :=
  fun s =>
    match body s with
    | (Ok a, s') => (Ok a, s')
    | (Raise e, s') =>
        match handler e with
        | Some h => h s'
        | None => (Raise e, s')
        end
    end.

(** [try: body / except ...: handler / else: orelse]: the [else] suite
    runs after a body that did not raise, outside the [except] clauses. *)
Definition try_except_else {S A B} (body : M S A)
    (handler : exn -> option (M S B)) (orelse : M S B) : M S B :=
  fun s =>
    match body s with
    | (Ok _, s') => orelse s'
    | (Raise e, s') =>
        match handler e with
        | Some h => h s'
        | None => (Raise e, s')
        end
    end.

(** The state of a running module: the instance and the world around it. *)
Definition state : Type := MVTModule * world.

Definition get_module : M state MVTModule := fun s => (Ok (fst s), s).

(** A computation on the world, run next to a module. *)
Definition in_world {A} (c : M world A) : M state A :=
  fun s => let '(r, w') := c (snd s) in (r, (fst s, w')).

(** An override of the subclass acts on the instance only. *)
Definition on_module (f : MVTModule -> result unit * MVTModule) : M state unit :=
  fun s => let '(r, m') := f (fst s) in (r, (m', snd s)).

Definition emit (ev : event) : M world unit :=
  fun w => (Ok tt, World (files w) (events w ++ [ev])).

(** The runner invoking a method: the call is recorded, then performed. *)
Definition call (name : method) (body : M state unit) : M state unit :=
  in_world (emit (Called name)) >> body.

(** [log.info(...)], [log.error(...)], [log.exception(...)] on a logger
    that may be [None]. *)
Definition log_to (lg : option logger) (lvl : log_method) (template : string)
    (args : list pyval) : M world unit :=
  match lg with
  | Some l => emit (Logged l lvl template args)
  | None => raise (Exn AttributeError "'NoneType' object has no attribute")
  end.

Definition module_log (lvl : log_method) (template : string)
    (args : list pyval) : M state unit :=
  let* m := get_module in in_world (log_to (log m) lvl template args).

Definition dquote : string := String (ascii_of_nat 34) EmptyString.

Section Program.
(** The iteration order of a [set], from the sequence of insertions. *)
Variable set_iter : list json -> list json.
(** The failures of the file system. *)
Variable io : io_env.

(** *** Files *)

Definition set_file (path : string) (content : list chunk) : M world unit :=
  fun w => (Ok tt, World (<[path := content]> (files w)) (events w)).

(** [io.open(path, mode)]: ["w"] truncates, ["a+"] keeps what is there
    and creates the file when missing, ["r"] needs the file. *)
Definition open_file (path mode : string) : M world unit :=
  emit (Opened path mode) >>
  match open_error io path mode with
  | Some e => raise e
  | None =>
      fun w =>
        match files w !! path with
        | Some old =>
            if String.eqb mode "w" then set_file path [] w else (Ok tt, w)
        | None =>
            if String.eqb mode "r"
            then (Raise (Exn OSError "No such file or directory"), w)
            else set_file path [] w
        end
  end.

(** Writing to an open file appends at its end. *)
Definition write_chunks (path : string) (new : list chunk) : M world unit :=
  fun w => set_file path (default [] (files w !! path) ++ new) w.

(** [json.dump(v, handle, indent=4, default=str)]: a dump that fails
    leaves unusable output behind. *)
Definition json_dump (path : string) (v : pyval) : M world unit :=
  match dump_error io path with
  | Some e => write_chunks path [Partial] >> raise e
  | None =>
      match encode false true v with
      | Ok j => write_chunks path [Doc j]
      | Raise e => write_chunks path [Partial] >> raise e
      end
  end.

(** Closing a handle [json.dump] wrote to flushes what is still buffered;
    a close that fails raises, and what the file then holds is not a
    document.  (The handle [from_json] reads from has nothing to flush,
    and the rows of [save_timeline] are taken to reach the file as they
    are written.) *)
Definition close_file (path : string) : M world unit :=
  match close_error io path with
  | Some e => set_file path [Partial] >> raise e
  | None => ret tt
  end.

(** [with io.open(path, mode) as handle: body].  When [open] raises the
    block is not entered.  Otherwise the handle is closed when the block
    is left, whether [body] returned or raised, and an exception of the
    close replaces the outcome of [body]. *)
Definition with_open {A} (path mode : string) (body : M state A) : M state A :=
  in_world (open_file path mode) >>
  fun s =>
    let '(r, s') := body s in
    match in_world (close_file path) s' with
    | (Ok _, s'') => (r, s'')
    | (Raise e, s'') => (Raise e, s'')
    end.

(** [json.load(handle)]. *)
Definition json_load (path : string) : M world pyval :=
  fun w =>
    match files w !! path with
    | Some [Doc j] => (Ok (decode j), w)
    | _ => (Raise (Exn JSONDecodeError "Expecting value"), w)
    end.

(** *** [MVTModule.from_json] *)
Definition from_json (json_path : string) (lg : option logger)
  : M world MVTModule :=
  open_file json_path "r" >>
  let* loaded := json_load json_path in
  match lg with
  | Some _ =>
      match py_len loaded with
      | Ok n =>
          log_to lg LInfo
                 (String.append "Loaded %d results from "
                    (String.append dquote (String.append "%s" dquote)))
                 [PInt (Z.of_nat n); PStr json_path]
      | Raise e => raise e
      end
  | None => ret tt
  end >>
  ret (init None None None false lg loaded).

(** *** [MVTModule.save_to_json] *)
Definition save_to_json (cls : module_class) : M state unit :=
  let* m := get_module in
  match output_folder m with
  | None => ret tt
  | Some folder =>
      if String.eqb folder "" then ret tt else
      let name := get_slug cls in
      (if truthy (results m) then
         let results_file_name := String.append name ".json" in
         let results_json_path := path_join folder results_file_name in
         with_open results_json_path "w"
           (try_except
              (in_world (json_dump results_json_path (results m)))
              (fun e =>
                 if is_Exception e then
                   Some (module_log LError
                           "Unable to store results of module %s to file %s: %s"
                           [PStr (class_name cls); PStr results_file_name;
                            PStr (exn_msg e)])
                 else None))
       else ret tt) >>
      (if truthy (PList (detected m)) then
         let detected_file_name := String.append name "_detected.json" in
         let detected_json_path := path_join folder detected_file_name in
         with_open detected_json_path "w"
           (in_world (json_dump detected_json_path (PList (detected m))))
       else ret tt)
  end.

(** *** [MVTModule.to_timeline] and [MVTModule.timeline_deduplicate] *)

(** One of the two loops of [to_timeline]: every entry is serialized,
    a record that is true is appended (a list of records is spliced
    in).  An exception leaves the records gathered so far in place. *)
Fixpoint gather (ser : pyval -> result pyval) (entries acc : list pyval)
  : result unit * list pyval :=
  match entries with
  | [] => (Ok tt, acc)
  | entry :: rest =>
      match ser entry with
      | Raise e => (Raise e, acc)
      | Ok record =>
          gather ser rest
            (if truthy record then
               match record with
               | PList l => acc ++ l
               | _ => acc ++ [record]
               end
             else acc)
      end
  end.

Definition timeline_deduplicate (tl : list pyval) : result (list pyval) :=
  result_map (fun timeline_set => map decode (set_iter timeline_set))
             (sequence (map (encode true false) tl)).

Definition lift_result {S A} (r : result A) : M S A :=
  match r with
  | Ok a => ret a
  | Raise e => raise e
  end.

Definition update_timeline (f : MVTModule -> result unit * list pyval)
    (store : list pyval -> MVTModule -> MVTModule) : M state unit :=
  on_module (fun m => let '(r, t) := f m in (r, store t m)).

Definition to_timeline (cls : module_class) : M state unit :=
  let* m := get_module in
  let* entries := lift_result (py_iter (results m)) in
  update_timeline (fun m => gather (serialize cls) entries (timeline m))
                  (fun t m => set_timelines t (timeline_detected m) m) >>
  update_timeline (fun m => gather (serialize cls) (detected m) (timeline_detected m))
                  (fun t m => set_timelines (timeline m) t m) >>
  let* m := get_module in
  let* t := lift_result (timeline_deduplicate (timeline m)) in
  on_module (fun m => (Ok tt, set_timelines t (timeline_detected m) m)) >>
  let* m := get_module in
  let* td := lift_result (timeline_deduplicate (timeline_detected m)) in
  on_module (fun m => (Ok tt, set_timelines (timeline m) td m)).

(** *** [run_module] *)
Definition run_module (cls : module_class) : M state unit :=
  let name := PStr (class_name cls) in
  module_log LInfo "Running module %s..." [name] >>
  try_except_else
    (call Mrun (on_module (run cls)))
    (fun e =>
       match exn_cls e with
       | NotImplementedError =>
           Some (module_log LException
                   "The run() procedure of module %s was not implemented yet!"
                   [name])
       | InsufficientPrivileges =>
           Some (module_log LInfo
                   "Insufficient privileges for module %s: %s"
                   [name; PStr (exn_msg e)])
       | DatabaseNotFoundError =>
           Some (module_log LInfo
                   "There might be no data to extract by module %s: %s"
                   [name; PStr (exn_msg e)])
       | DatabaseCorruptedError =>
           Some (module_log LError
                   "The %s module database seems to be corrupted and recovery failed: %s"
                   [name; PStr (exn_msg e)])
       | _ =>
           if is_Exception e then
             Some (module_log LException
                     "Error in running extraction from module %s: %s"
                     [name; PStr (exn_msg e)])
           else None
       end)
    (try_except_else
       (call Mcheck_indicators (on_module (check_indicators cls)))
       (fun e =>
          match exn_cls e with
          | NotImplementedError =>
              Some (module_log LInfo
                      "The %s module does not support checking for indicators"
                      [name])
          | _ => None
          end)
       (let* m := get_module in
        match indicators m, detected m with
        | Some _, [] =>
            module_log LInfo "The %s module produced no detections!" [name]
        | _, _ => ret tt
        end) >>
     try_except
       (call Mto_timeline (to_timeline cls))
       (fun e =>
          match exn_cls e with
          | NotImplementedError => Some (ret tt)
          | _ => None
          end) >>
     call Msave_to_json (save_to_json cls)).
End Program.

(** ** The merged timeline: [save_timeline] *)

(** A timeline entry as the aggregator hands it over: a dict whose values
    are [str] or [None] (timestamp, module, event, data). *)
Definition entry : Type := list (string * option string).

(** The entry as a Python value. *)
Definition field_val (v : option string) : pyval :=
  match v with
  | Some s => PStr s
  | None => PNone
  end.

Definition entry_val (e : entry) : pyval :=
  PDict (map (fun kv => (fst kv, field_val (snd kv))) e).

(** [lambda x: x["timestamp"] if x["timestamp"] is not None else ""]. *)
Definition timestamp_key (x : entry) : result string :=
  match dict_get "timestamp" x with
  | None => Raise (Exn KeyError "timestamp")
  | Some None => Ok ""
  | Some (Some t) => Ok t
  end.

(** [event.get(name)]. *)
Definition entry_get (name : string) (event : entry) : option string :=
  match dict_get name event with
  | Some v => v
  | None => None
  end.

Definition timeline_row (event : entry) : list (option string) :=
  [entry_get "timestamp" event; entry_get "module" event;
   entry_get "event" event; entry_get "data" event].

Definition timeline_header : list (option string) :=
  [Some "UTC Timestamp"; Some "Plugin"; Some "Event"; Some "Description"].

(** [sorted(timeline, key=...)]: the key of every entry is computed first,
    then the entries are ordered by it. *)
Definition sorted_timeline (tl : list entry) : result (list entry) :=
  result_map (fun keys => map snd (sorted_by fst (combine keys tl)))
             (sequence (map timestamp_key tl)).

Section Timeline.
Variable io : io_env.

Definition save_timeline (tl : list entry) (timeline_path : string)
  : M world unit :=
  open_file io timeline_path "a+" >>
  write_chunks timeline_path [Row timeline_header] >>
  let* events_in_order := lift_result (sorted_timeline tl) in
  write_chunks timeline_path (map (fun ev => Row (timeline_row ev)) events_in_order).
End Timeline.

(** ** Instances on a heap: the default argument of [__init__] *)

(** The accumulators of a module are list objects, and [results=[]] in the
    signature of [__init__] is evaluated once, when the [def] statement
    runs.  Here lists live on a heap and an instance holds references. *)
Module Aliasing.

Definition loc : Type := nat.
Definition heap : Type := list (list pyval).

(** [[]]: a new list object. *)
Definition alloc (h : heap) : loc * heap := (List.length h, h ++ [[]]).

(** [r.append(v)]. *)
Definition append (r : loc) (v : pyval) (h : heap) : heap :=
  match h !! r with
  | Some l => <[r := l ++ [v]]> h
  | None => h
  end.

Definition read (r : loc) (h : heap) : option (list pyval) := h !! r.

(** The function object of [__init__] keeps its default values. *)
Record init_function := InitFunction { default_results : loc }.

(** Executing the [def __init__(..., results=[])] statement. *)
Definition def_init (h : heap) : init_function * heap :=
  let '(d, h') := alloc h in (InitFunction d, h').

Record instance := Instance {
  results : loc;
  detected : loc;
  timeline : loc;
  timeline_detected : loc
}.

(** [MVTModule(results=arg)], or [MVTModule()] when [arg] is [None]. *)
Definition init (f : init_function) (arg : option loc) (h : heap)
  : instance * heap :=
  let r := match arg with
           | Some given => given
           | None => default_results f
           end in
  let '(d, h1) := alloc h in
  let '(t, h2) := alloc h1 in
  let '(td, h3) := alloc h2 in
  (Instance r d t td, h3).

(** [a = MVTModule(); b = MVTModule(); a.results.append(v)]. *)
Definition two_modules_then_append (v : pyval) : instance * instance * heap :=
  let '(f, h0) := def_init [] in
  let '(a, h1) := init f None h0 in
  let '(b, h2) := init f None h1 in
  (a, b, append (results a) v h2).

End Aliasing.

(** * Instances, sample inputs and the vocabulary of the statements *)

Definition empty_world : world := World ∅ [].

(** A file system without failures. *)
Definition io_ok : io_env :=
  IoEnv (fun _ _ => None) (fun _ => None) (fun _ => None).

(** Equality of documents is decidable. *)
Fixpoint json_eq_dec (a b : json) : {a = b} + {a <> b}.
Proof.
  decide equality.
  - apply bool_dec.
  - apply Z.eq_dec.
  - apply string_dec.
  - apply (List.list_eq_dec json_eq_dec).
  - apply List.list_eq_dec. decide equality. apply string_dec.
Defined.

(** Two iteration orders a set may have: members in the order of their
    last insertion, and the same backwards. *)
Definition set_iter_forward (l : list json) : list json := nodup json_eq_dec l.
Definition set_iter_backward (l : list json) : list json := rev (nodup json_eq_dec l).

(** What the language promises about iterating a set built by inserting
    the members of [l]: every member once, nothing else. *)
Definition set_contract (set_iter : list json -> list json) : Prop :=
  forall l, List.NoDup (set_iter l) /\ (forall x, In x (set_iter l) <-> In x l).

Definition mvt_logger : logger := Logger "mvt".

Definition sample_module (out : option string) (res : pyval) : MVTModule :=
  init None None out false (Some mvt_logger) res.

(** A module class with the given extraction and detection steps. *)
Definition sample_class (name : string)
    (run_outcome check_outcome : result unit) : module_class :=
  {| class_name := name; slug := None;
     run := fun m => (run_outcome, m);
     check_indicators := fun m => (check_outcome, m);
     serialize := fun _ => Ok PNone |}.

Definition value_error : exn := Exn (OtherException "ValueError") "malformed indicator".
Definition corrupted : exn := Exn DatabaseCorruptedError "database disk image is malformed".
Definition not_found : exn := Exn DatabaseNotFoundError "no such file".

(** The caller of [run_module] learns of a failure when the call raises:
    the function has no return value. *)
Definition reported_as_failure (r : result unit) : Prop := exists e, r = Raise e.

(** The pipeline reaches its last stage when [save_to_json] is invoked. *)
Definition reaches_persisted (w : world) : Prop := In (Called Msave_to_json) (events w).

Definition contacts_module : MVTModule :=
  {| file_path := None; base_folder := None; output_folder := Some "/out";
     fast_mode := false; log := Some mvt_logger; indicators := None;
     results := PList [PDict [("name", PStr "Ada")]];
     detected := [PDict [("name", PStr "Ada")]];
     timeline := []; timeline_detected := [] |}.

Definition no_output_folder (m : MVTModule) : MVTModule :=
  {| file_path := m.(file_path); base_folder := m.(base_folder);
     output_folder := None; fast_mode := m.(fast_mode);
     log := m.(log); indicators := m.(indicators); results := m.(results);
     detected := m.(detected); timeline := m.(timeline);
     timeline_detected := m.(timeline_detected) |}.

Definition contacts_class : module_class := sample_class "Contacts" (Ok tt) (Ok tt).

(** A disk that fills up while the detections are dumped. *)
Definition io_detected_dump_fails : io_env :=
  IoEnv (fun _ _ => None)
        (fun path =>
           if String.eqb path "/out/contacts_detected.json"
           then Some (Exn OSError "No space left on device") else None)
        (fun _ => None).

(** A write error while the results are dumped; the file still closes. *)
Definition io_results_dump_fails : io_env :=
  IoEnv (fun _ _ => None)
        (fun path =>
           if String.eqb path "/out/contacts.json"
           then Some (Exn OSError "No space left on device") else None)
        (fun _ => None).

(** A disk that is full: the dump of the results fails, and so does the
    flush when the file is closed. *)
Definition io_results_dump_and_close_fail : io_env :=
  IoEnv (fun _ _ => None)
        (fun path =>
           if String.eqb path "/out/contacts.json"
           then Some (Exn OSError "No space left on device") else None)
        (fun path =>
           if String.eqb path "/out/contacts.json"
           then Some (Exn OSError "No space left on device") else None).

(** An output folder in which no file can be created. *)
Definition io_open_fails : io_env :=
  IoEnv (fun _ _ => Some (Exn OSError "Permission denied")) (fun _ => None)
        (fun _ => None).

(** The sort key of an entry that has a [timestamp] field. *)
Definition ts_key (e : entry) : string :=
  match entry_get "timestamp" e with
  | Some t => t
  | None => ""
  end.

Definition event_at (ts : option string) (label : string) : entry :=
  [("timestamp", ts); ("module", Some "SMS"); ("event", Some "sms_received");
   ("data", Some label)].

Definition three_events : list entry :=
  [event_at (Some "2023-01-02") "second";
   event_at None "undated";
   event_at (Some "2023-01-01") "first"].

Fixpoint unique_keys (ks : list string) : bool :=
  match ks with
  | [] => true
  | k :: rest => negb (existsb (String.eqb k) rest) && unique_keys rest
  end.

(** The values JSON represents as they are: [None], booleans, integers,
    strings, lists, and dicts without repeated keys, all the way down. *)
Fixpoint json_native (v : pyval) : bool :=
  match v with
  | PNone | PBool _ | PInt _ | PStr _ => true
  | PList l => forallb json_native l
  | PDict d => unique_keys (map fst d) && forallb (fun kv => json_native (snd kv)) d
  | PTuple _ | PObj _ _ => false
  end.

Section PyvalInduction.
Variable P : pyval -> Prop.
Hypothesis HNone : P PNone.
Hypothesis HBool : forall b, P (PBool b).
Hypothesis HInt : forall z, P (PInt z).
Hypothesis HStr : forall s, P (PStr s).
Hypothesis HList : forall l, Forall P l -> P (PList l).
Hypothesis HTuple : forall l, Forall P l -> P (PTuple l).
Hypothesis HDict : forall d, Forall (fun kv => P (snd kv)) d -> P (PDict d).
Hypothesis HObj : forall r t, P (PObj r t).

Fixpoint pyval_nested_ind (v : pyval) : P v :=
  match v with
  | PNone => HNone
  | PBool b => HBool b
  | PInt z => HInt z
  | PStr s => HStr s
  | PList l =>
      HList l ((fix all (l : list pyval) : Forall P l :=
                  match l with
                  | [] => @List.Forall_nil _ P
                  | x :: rest => @List.Forall_cons _ P x rest (pyval_nested_ind x) (all rest)
                  end) l)
  | PTuple l =>
      HTuple l ((fix all (l : list pyval) : Forall P l :=
                   match l with
                   | [] => @List.Forall_nil _ P
                   | x :: rest => @List.Forall_cons _ P x rest (pyval_nested_ind x) (all rest)
                   end) l)
  | PDict d =>
      HDict d ((fix all (d : list (string * pyval))
                  : Forall (fun kv => P (snd kv)) d :=
                  match d with
                  | [] => @List.Forall_nil _ (fun kv => P (snd kv))
                  | kv :: rest =>
                      @List.Forall_cons _ (fun kv => P (snd kv)) kv rest
                        (pyval_nested_ind (snd kv)) (all rest)
                  end) d)
  | PObj r t => HObj r t
  end.
End PyvalInduction.

Definition round_trips (v : pyval) : Prop :=
  json_native v = true -> exists j, encode false true v = Ok j /\ decode j = v.

(** How a dump ends, and what it leaves in the file. *)
Definition dump_outcome (io : io_env) (path : string) (v : pyval)
  : result unit * chunk :=
  match dump_error io path with
  | Some e => (Raise e, Partial)
  | None =>
      match encode false true v with
      | Ok j => (Ok tt, Doc j)
      | Raise e => (Raise e, Partial)
      end
  end.

Definition dated_results : pyval :=
  PList [PDict [("name", PStr "Ada"); ("seen", PObj "2021-07-18 10:00:00" true)]].

Definition paired_results : pyval :=
  PList [PDict [("name", PStr "Ada"); ("position", PTuple [PInt 48; PInt 2])]].

(** Two entries have the same fields when every name is bound to the same
    value in both, in whatever order the fields were inserted. *)
Definition same_fields (a b : entry) : Prop :=
  forall k, dict_get k a = dict_get k b.

Definition field_json (v : option string) : json :=
  match v with
  | Some s => JStr s
  | None => JNull
  end.

(** The document of [json.dumps(entry, sort_keys=True)]. *)
Definition canon (e : entry) : json :=
  JObj (map (fun kv => (fst kv, field_json (snd kv))) (sorted_by fst e)).

(** The entry a canonical document denotes. *)
Definition entry_of_doc (j : json) : entry :=
  match j with
  | JObj ms =>
      map (fun kv => (fst kv,
                      match snd kv with
                      | JStr s => Some s
                      | _ => None
                      end)) ms
  | _ => []
  end.

Definition two_events : list entry :=
  [event_at (Some "2023-01-01") "first"; event_at (Some "2023-01-02") "second"].

(** The fields of [event_at ts label], inserted in another order. *)
Definition event_at_shuffled (ts : option string) (label : string) : entry :=
  [("data", Some label); ("event", Some "sms_received"); ("module", Some "SMS");
   ("timestamp", ts)].

Definition events_with_duplicate : list entry :=
  [event_at (Some "2023-01-01") "first";
   event_at None "undated";
   event_at_shuffled (Some "2023-01-01") "first"].

(** A module class whose [serialize] maps a contact to one timeline
    record, and anything else to [None]. *)
Definition timeline_class : module_class :=
  {| class_name := "ContactList"; slug := None;
     run := fun m => (Ok tt, m);
     check_indicators := fun m => (Raise not_implemented, m);
     serialize := fun v =>
       match v with
       | PDict d =>
           Ok (PDict [("timestamp", default PNone (dict_get "seen" d));
                      ("module", PStr "ContactList");
                      ("event", PStr "contact_added");
                      ("data", default PNone (dict_get "name" d))])
       | _ => Ok PNone
       end |}.

Definition seen_twice : pyval :=
  PList [PDict [("name", PStr "Ada"); ("seen", PStr "2021-07-18")];
         PInt 0;
         PDict [("seen", PStr "2021-07-18"); ("name", PStr "Ada")]].

(** The logger method an [except] clause of [run_module] uses for a
    failure of [run()], by exception class. *)
Definition extract_failure_level (c : exn_class) : log_method :=
  match c with
  | InsufficientPrivileges | DatabaseNotFoundError => LInfo
  | DatabaseCorruptedError => LError
  | _ => LException
  end.

(** The stages that follow the indicator check: timeline, then persist. *)
Definition timeline_then_persist (set_iter : list json -> list json)
    (io : io_env) (cls : module_class) : M state unit :=
  try_except
    (call Mto_timeline (to_timeline set_iter cls))
    (fun e =>
       match exn_cls e with
       | NotImplementedError => Some (ret tt)
       | _ => None
       end) >>
  call Msave_to_json (save_to_json io cls).

(** The records one serialized entry adds to a timeline. *)
Definition records_of (record : pyval) : list pyval :=
  if truthy record then
    match record with
    | PList l => l
    | _ => [record]
    end
  else [].

(** A module without its two timelines: what [to_timeline] leaves alone. *)
Definition without_timelines (m : MVTModule) : MVTModule := set_timelines [] [] m.

(** A module class whose timeline records carry a datetime object. *)
Definition dated_class : module_class :=
  {| class_name := "Calls"; slug := None;
     run := fun m => (Ok tt, m);
     check_indicators := fun m => (Raise not_implemented, m);
     serialize := fun _ =>
       Ok (PDict [("timestamp", PObj "2021-07-18 10:00:00" true);
                  ("module", PStr "Calls");
                  ("event", PStr "call");
                  ("data", PStr "incoming")]) |}.

Definition type_error : exn := Exn TypeError "Object is not JSON serializable".

Definition not_underscore (c : ascii) : bool := negb (Ascii.eqb c "_"%char).

(** A value that holds, at any depth, an object without a JSON encoding
    rule. *)
Fixpoint has_foreign (v : pyval) : bool :=
  match v with
  | PNone | PBool _ | PInt _ | PStr _ => false
  | PList l | PTuple l => existsb has_foreign l
  | PDict d => existsb (fun kv => has_foreign (snd kv)) d
  | PObj _ _ => true
  end.

(** The letters of a class name, by their ASCII codes: [A]-[Z], [a]-[z],
    and the small letter that belongs to a capital one. *)
Definition capital_letter (c : ascii) : Prop :=
  65 <= nat_of_ascii c /\ nat_of_ascii c <= 90.

Definition small_letter (c : ascii) : Prop :=
  97 <= nat_of_ascii c /\ nat_of_ascii c <= 122.

Definition small_of (c : ascii) : ascii := ascii_of_nat (nat_of_ascii c + 32).

Definition ascii_char (c : ascii) : Prop := nat_of_ascii c < 128.

(** No small letter or digit is directly followed by a capital letter. *)
Fixpoint no_capital_after_lower (s : list ascii) : bool :=
  match s with
  | [] => true
  | c1 :: rest =>
      match rest with
      | c2 :: _ => negb ((is_lower c1 || is_digit c1) && is_upper c2)
      | [] => true
      end && no_capital_after_lower rest
  end.

(** A computation that leaves the files alone, and one that does so
    unless the module it ends with has an output folder. *)
Definition silent {A} (c : M state A) : Prop :=
  forall s r s', c s = (r, s') -> files (snd s') = files (snd s).

Definition quiet {A} (c : M state A) : Prop :=
  forall s r s', c s = (r, s') ->
    output_folder (fst s') = None -> files (snd s') = files (snd s).

(** A computation that hands the module on as it received it. *)
Definition module_kept {A} (c : M state A) : Prop :=
  forall s r s', c s = (r, s') -> fst s' = fst s.

(** * Properties *)

(** ** The runner *)

Ltac run_steps :=
  cbv beta iota zeta delta
    [run_module try_except_else try_except bind call module_log in_world
     log_to emit get_module on_module ret raise lift_result fst snd].

(** What [run_module] does when [run()] raises an exception [e] that one
    of the four named [except] clauses or [except Exception] handles:
    one record goes to the log and the function returns. *)
Lemma run_module_handled set_iter io cls m w lg e m1 lg1 lvl template args :
  log m = Some lg ->
  run cls m = (Raise e, m1) ->
  log m1 = Some lg1 ->
  match exn_cls e with
  | NotImplementedError =>
      (lvl, template, args) =
      (LException, "The run() procedure of module %s was not implemented yet!",
       [PStr (class_name cls)])
  | InsufficientPrivileges =>
      (lvl, template, args) =
      (LInfo, "Insufficient privileges for module %s: %s",
       [PStr (class_name cls); PStr (exn_msg e)])
  | DatabaseNotFoundError =>
      (lvl, template, args) =
      (LInfo, "There might be no data to extract by module %s: %s",
       [PStr (class_name cls); PStr (exn_msg e)])
  | DatabaseCorruptedError =>
      (lvl, template, args) =
      (LError, "The %s module database seems to be corrupted and recovery failed: %s",
       [PStr (class_name cls); PStr (exn_msg e)])
  | KeyboardInterrupt => False
  | _ =>
      (lvl, template, args) =
      (LException, "Error in running extraction from module %s: %s",
       [PStr (class_name cls); PStr (exn_msg e)])
  end ->
  run_module set_iter io cls (m, w) =
  (Ok tt,
   (m1, World (files w)
          (events w ++
           [Logged lg LInfo "Running module %s..." [PStr (class_name cls)];
            Called Mrun;
            Logged lg1 lvl template args]))).
Proof.
  intros Hlog Hrun Hlog1 Hcase. run_steps.
  rewrite Hlog. run_steps. rewrite Hrun. run_steps.
  unfold is_Exception.
  destruct (exn_cls e); try contradiction; injection Hcase as -> -> ->;
    run_steps; rewrite Hlog1; cbn; rewrite <- !app_assoc; reflexivity.
Qed.

(** What [run_module] does when [run()] returns and [check_indicators()]
    raises anything but [NotImplementedError]: no [except] clause matches,
    the exception leaves [run_module], and neither [to_timeline] nor
    [save_to_json] is reached. *)
Lemma run_module_check_raises set_iter io cls m w lg e m1 m2 :
  log m = Some lg ->
  run cls m = (Ok tt, m1) ->
  check_indicators cls m1 = (Raise e, m2) ->
  exn_cls e <> NotImplementedError ->
  run_module set_iter io cls (m, w) =
  (Raise e,
   (m2, World (files w)
          (events w ++
           [Logged lg LInfo "Running module %s..." [PStr (class_name cls)];
            Called Mrun;
            Called Mcheck_indicators]))).
Proof.
  intros Hlog Hrun Hcheck Hcls. run_steps.
  rewrite Hlog. run_steps. rewrite Hrun. run_steps. rewrite Hcheck. run_steps.
  destruct (exn_cls e); try contradiction; cbn; rewrite <- !app_assoc; reflexivity.
Qed.

(** C1 (the code departs from the claim).  A module whose extraction
    succeeds and whose [check_indicators()] raises [ValueError]: the
    exception is not caught, it propagates out of [run_module] to the
    caller, and nothing is logged about it. *)
Theorem check_indicators_failure_escapes :
  run_module set_iter_forward io_ok
    (sample_class "Contacts" (Ok tt) (Raise value_error))
    (sample_module (Some "/out") (PList [PInt 1]), empty_world)
  = (Raise value_error,
     (sample_module (Some "/out") (PList [PInt 1]),
      World ∅
        [Logged mvt_logger LInfo "Running module %s..." [PStr "Contacts"];
         Called Mrun;
         Called Mcheck_indicators])).
Proof.
  apply (run_module_check_raises set_iter_forward io_ok
           (sample_class "Contacts" (Ok tt) (Raise value_error))
           (sample_module (Some "/out") (PList [PInt 1])) empty_world
           mvt_logger value_error
           (sample_module (Some "/out") (PList [PInt 1]))
           (sample_module (Some "/out") (PList [PInt 1])));
    try reflexivity.
  discriminate.
Qed.

(** C3, as stated, fails: after [DatabaseCorruptedError] the call of
    [run_module] returns normally, exactly as after a successful run; the
    caller is given nothing that marks the run as failed. *)
Lemma corrupted_run_not_reported :
  ~ reported_as_failure
      (fst (run_module set_iter_forward io_ok
              (sample_class "Contacts" (Raise corrupted) (Ok tt))
              (sample_module (Some "/out") (PList []), empty_world))).
Proof.
  intros [e He]. vm_compute in He. discriminate He.
Qed.

(** C3, amended.  When [run()] raises [DatabaseCorruptedError], the runner
    logs one record with [log.error], invokes no further method of the
    module ([check_indicators], [to_timeline], [save_to_json]), touches no
    file, and returns normally: the failure is visible in the log only. *)
Theorem run_module_source_corrupted set_iter io cls m w lg e m1 lg1 :
  log m = Some lg ->
  run cls m = (Raise e, m1) ->
  exn_cls e = DatabaseCorruptedError ->
  log m1 = Some lg1 ->
  run_module set_iter io cls (m, w) =
  (Ok tt,
   (m1, World (files w)
          (events w ++
           [Logged lg LInfo "Running module %s..." [PStr (class_name cls)];
            Called Mrun;
            Logged lg1 LError
              "The %s module database seems to be corrupted and recovery failed: %s"
              [PStr (class_name cls); PStr (exn_msg e)]]))).
Proof.
  intros Hlog Hrun Hcls Hlog1.
  eapply run_module_handled; eauto. rewrite Hcls. reflexivity.
Qed.

Lemma run_module_source_corrupted_witness :
  run_module set_iter_forward io_ok
    (sample_class "Contacts" (Raise corrupted) (Ok tt))
    (sample_module (Some "/out") (PList []), empty_world)
  = (Ok tt,
     (sample_module (Some "/out") (PList []),
      World ∅
        [Logged mvt_logger LInfo "Running module %s..." [PStr "Contacts"];
         Called Mrun;
         Logged mvt_logger LError
           "The %s module database seems to be corrupted and recovery failed: %s"
           [PStr "Contacts"; PStr "database disk image is malformed"]])).
Proof.
  apply (run_module_source_corrupted set_iter_forward io_ok
           (sample_class "Contacts" (Raise corrupted) (Ok tt))
           (sample_module (Some "/out") (PList [])) empty_world
           mvt_logger corrupted (sample_module (Some "/out") (PList []))
           mvt_logger); reflexivity.
Defined.

(** C5, as stated, fails: after [DatabaseNotFoundError] the pipeline
    stops; [save_to_json] is not invoked. *)
Lemma not_found_run_stops_before_persisting :
  ~ reaches_persisted
      (snd (snd (run_module set_iter_forward io_ok
                   (sample_class "Contacts" (Raise not_found) (Ok tt))
                   (sample_module (Some "/out") (PList []), empty_world)))).
Proof.
  unfold reaches_persisted. vm_compute.
  intros [H | [H | [H | []]]]; discriminate H.
Qed.

(** C5, amended.  When [run()] raises [DatabaseNotFoundError] while
    [results] and [detected] are empty, the runner logs one record with
    [log.info], opens and writes no file, and returns normally with
    [results] and [detected] still empty; the pipeline stops after the
    extraction: [check_indicators], [to_timeline] and [save_to_json] are
    not invoked. *)
Theorem run_module_source_not_found set_iter io cls m w lg e m1 lg1 :
  log m = Some lg ->
  run cls m = (Raise e, m1) ->
  exn_cls e = DatabaseNotFoundError ->
  log m1 = Some lg1 ->
  truthy (results m1) = false ->
  detected m1 = [] ->
  exists m' w',
    run_module set_iter io cls (m, w) = (Ok tt, (m', w')) /\
    truthy (results m') = false /\
    detected m' = [] /\
    files w' = files w /\
    events w' =
      events w ++
      [Logged lg LInfo "Running module %s..." [PStr (class_name cls)];
       Called Mrun;
       Logged lg1 LInfo "There might be no data to extract by module %s: %s"
         [PStr (class_name cls); PStr (exn_msg e)]].
Proof.
  intros Hlog Hrun Hcls Hlog1 Hres Hdet.
  eexists _, _. split.
  - eapply run_module_handled; eauto. rewrite Hcls. reflexivity.
  - auto.
Qed.

Lemma run_module_source_not_found_witness :
  exists m' w',
    run_module set_iter_forward io_ok
      (sample_class "Contacts" (Raise not_found) (Ok tt))
      (sample_module (Some "/out") (PList []), empty_world) = (Ok tt, (m', w')) /\
    truthy (results m') = false /\
    detected m' = [] /\
    files w' = files empty_world /\
    events w' =
      events empty_world ++
      [Logged mvt_logger LInfo "Running module %s..." [PStr "Contacts"];
       Called Mrun;
       Logged mvt_logger LInfo "There might be no data to extract by module %s: %s"
         [PStr "Contacts"; PStr "no such file"]].
Proof.
  apply (run_module_source_not_found set_iter_forward io_ok
           (sample_class "Contacts" (Raise not_found) (Ok tt))
           (sample_module (Some "/out") (PList [])) empty_world
           mvt_logger not_found (sample_module (Some "/out") (PList []))
           mvt_logger); reflexivity.
Defined.

(** ** Persisting: [save_to_json] *)

Ltac save_steps :=
  cbv beta iota zeta delta
    [save_to_json try_except bind call module_log in_world log_to emit
     get_module ret raise fst snd].

(** C10.  With [output_folder] unset, [save_to_json] returns at once:
    no exception, no file opened or written, nothing logged, whatever
    [results] and [detected] hold; the last stage of the runner, which
    invokes it, therefore completes and leaves the files as they were. *)
Theorem save_to_json_without_output_folder io cls m w :
  output_folder m = None ->
  save_to_json io cls (m, w) = (Ok tt, (m, w)) /\
  call Msave_to_json (save_to_json io cls) (m, w) =
    (Ok tt, (m, World (files w) (events w ++ [Called Msave_to_json]))).
Proof.
  intros Hout. split; save_steps; rewrite Hout; reflexivity.
Qed.

Lemma save_to_json_without_output_folder_witness :
  save_to_json io_ok contacts_class (no_output_folder contacts_module, empty_world)
    = (Ok tt, (no_output_folder contacts_module, empty_world)) /\
  call Msave_to_json (save_to_json io_ok contacts_class)
       (no_output_folder contacts_module, empty_world) =
    (Ok tt, (no_output_folder contacts_module,
             World (files empty_world) (events empty_world ++ [Called Msave_to_json]))).
Proof.
  apply (save_to_json_without_output_folder io_ok contacts_class
           (no_output_folder contacts_module) empty_world).
  reflexivity.
Defined.

(** The part of C4 the code delivers: a failure of [json.dump] on the
    results file is caught and logged and, when the file then closes
    without error, the detections are written. *)
Lemma results_dump_failure_is_caught :
  let out := save_to_json io_results_dump_fails contacts_class
               (contacts_module, empty_world) in
  fst out = Ok tt /\
  events (snd (snd out)) =
    [Opened "/out/contacts.json" "w";
     Logged mvt_logger LError
       "Unable to store results of module %s to file %s: %s"
       [PStr "Contacts"; PStr "contacts.json"; PStr "No space left on device"];
     Opened "/out/contacts_detected.json" "w"] /\
  files (snd (snd out)) !! "/out/contacts.json" = Some [Partial] /\
  files (snd (snd out)) !! "/out/contacts_detected.json" =
    Some [Doc (JArr [JObj [("name", JStr "Ada")]])].
Proof.
  vm_compute. repeat split.
Qed.

(** C4 (the code departs from the claim).  With results and detections
    both present, a failure of [json.dump] on the detections file is not
    caught: it leaves [save_to_json] as an exception and nothing is
    logged.  A failure to open the results file escapes likewise, before
    the detections file is even attempted. *)
Theorem detected_dump_failure_escapes :
  (let out := save_to_json io_detected_dump_fails contacts_class
                (contacts_module, empty_world) in
   fst out = Raise (Exn OSError "No space left on device") /\
   events (snd (snd out)) =
     [Opened "/out/contacts.json" "w"; Opened "/out/contacts_detected.json" "w"]) /\
  (let out := save_to_json io_open_fails contacts_class
                (contacts_module, empty_world) in
   fst out = Raise (Exn OSError "Permission denied") /\
   events (snd (snd out)) = [Opened "/out/contacts.json" "w"]).
Proof.
  vm_compute. repeat split.
Qed.

(** ** Accumulators and the default argument *)

(** The accumulators that [__init__] creates itself are new objects. *)
Lemma init_allocates_fresh f arg h :
  let '(i, h') := Aliasing.init f arg h in
  Aliasing.detected i = List.length h /\
  Aliasing.timeline i = S (List.length h) /\
  Aliasing.timeline_detected i = S (S (List.length h)) /\
  List.length h' = S (S (S (List.length h))).
Proof.
  unfold Aliasing.init, Aliasing.alloc. cbn.
  rewrite !length_app. cbn. repeat split; lia.
Qed.

(** Without a [results] argument the instance refers to the one list
    object kept in the defaults of [__init__]. *)
Lemma init_default_results f h :
  Aliasing.results (fst (Aliasing.init f None h)) = Aliasing.default_results f.
Proof. reflexivity. Qed.

(** C2 (the code departs from the claim).  Two modules constructed
    without a [results] argument hold the same [results] list: an entry
    appended through the first is seen through the second.  The other
    three accumulators are distinct objects. *)
Theorem default_results_list_is_shared (v : pyval) :
  let '(a, b, h) := Aliasing.two_modules_then_append v in
  Aliasing.results a = Aliasing.results b /\
  Aliasing.read (Aliasing.results b) h = Some [v] /\
  Aliasing.detected a <> Aliasing.detected b /\
  Aliasing.timeline a <> Aliasing.timeline b /\
  Aliasing.timeline_detected a <> Aliasing.timeline_detected b /\
  Aliasing.read (Aliasing.detected b) h = Some [].
Proof.
  vm_compute. repeat split; discriminate.
Qed.

(** ** Identity: [get_slug] *)

(** C8, as stated, fails: a [slug] set to the empty string is not [None],
    yet [get_slug] falls back to the name derived from the class. *)
Lemma empty_slug_is_not_returned :
  slug (ModuleClass "ContactList" (Some "") (run MVTModule_class)
          (check_indicators MVTModule_class) (serialize MVTModule_class))
    = Some "" /\
  get_slug (ModuleClass "ContactList" (Some "") (run MVTModule_class)
              (check_indicators MVTModule_class) (serialize MVTModule_class))
    <> "".
Proof.
  split; [reflexivity | vm_compute; discriminate].
Qed.

Lemma capital_is_upper c : capital_letter c -> is_upper c = true.
Proof.
  intros [H1 H2]. unfold is_upper.
  apply andb_true_intro. split; apply Nat.leb_le; assumption.
Qed.

Lemma capital_is_not_lower c :
  capital_letter c -> is_lower c || is_digit c = false.
Proof.
  intros [H1 H2]. unfold is_lower, is_digit.
  replace (97 <=? nat_of_ascii c)%nat with false by (symmetry; apply Nat.leb_gt; lia).
  replace (nat_of_ascii c <=? 57)%nat with false by (symmetry; apply Nat.leb_gt; lia).
  rewrite andb_false_r. reflexivity.
Qed.

Lemma small_is_lower c : small_letter c -> is_lower c = true.
Proof.
  intros [H1 H2]. unfold is_lower.
  apply andb_true_intro. split; apply Nat.leb_le; assumption.
Qed.

Lemma small_is_not_upper c : small_letter c -> is_upper c = false.
Proof.
  intros [H1 H2]. unfold is_upper.
  replace (nat_of_ascii c <=? 90)%nat with false by (symmetry; apply Nat.leb_gt; lia).
  apply andb_false_r.
Qed.

Lemma small_is_not_newline c : small_letter c -> is_newline c = false.
Proof. intros [H1 H2]. unfold is_newline. apply Nat.eqb_neq. lia. Qed.

Lemma to_lower_capital c : capital_letter c -> to_lower c = small_of c.
Proof. intros H. unfold to_lower. rewrite (capital_is_upper c H). reflexivity. Qed.

Lemma to_lower_small l : Forall small_letter l -> map to_lower l = l.
Proof.
  induction 1 as [|c l Hc _ IH]; cbn; [reflexivity|].
  unfold to_lower at 1. rewrite (small_is_not_upper c Hc), IH. reflexivity.
Qed.

Lemma span_small l : Forall small_letter l -> span is_lower l = (l, []).
Proof.
  induction 1 as [|c l Hc _ IH]; cbn; [reflexivity|].
  rewrite (small_is_lower c Hc), IH. reflexivity.
Qed.

Lemma re_sub_from_nil m n : re_sub_from n m [] = [].
Proof. destruct n; reflexivity. Qed.

Lemma word_start_needs_capital c1 c2 rest :
  is_upper c2 = false -> word_start (c1 :: c2 :: rest) = None.
Proof.
  intros H. unfold word_start. destruct rest as [|c3 rest]; [reflexivity|].
  rewrite H, andb_false_r. reflexivity.
Qed.

Lemma capital_after_lower_needs_capital c1 c2 rest :
  is_upper c2 = false -> capital_after_lower (c1 :: c2 :: rest) = None.
Proof.
  intros H. unfold capital_after_lower. rewrite H, andb_false_r. reflexivity.
Qed.

(** The first substitution on a run of small letters that a capitalized
    word follows: the characters of the run are copied until its last
    one, where the pattern matches and takes the whole word. *)
Lemma word_start_at_second_word n l1 u2 c3 l2 :
  l1 <> [] -> Forall small_letter l1 ->
  capital_letter u2 -> small_letter c3 -> Forall small_letter l2 ->
  List.length l1 <= n ->
  re_sub_from n word_start (l1 ++ u2 :: c3 :: l2) =
  l1 ++ "_"%char :: u2 :: c3 :: l2.
Proof.
  intros Hne Hl1 Hu2 Hc3 Hl2. revert n.
  induction Hl1 as [|a l1 Ha Hl1 IH]; [contradiction|].
  intros n Hn. destruct n as [|n]; [cbn in Hn; lia|].
  destruct l1 as [|b l1].
  - cbn [app re_sub_from word_start].
    rewrite (small_is_not_newline a Ha), (capital_is_upper u2 Hu2),
      (small_is_lower c3 Hc3), (span_small l2 Hl2).
    cbn [negb andb]. rewrite re_sub_from_nil, app_nil_r. reflexivity.
  - cbn [app re_sub_from].
    inversion Hl1 as [|? ? Hb _]; subst.
    rewrite (word_start_needs_capital a b _ (small_is_not_upper b Hb)).
    f_equal. apply IH; [discriminate | cbn in Hn |- *; lia].
Qed.

(** A text in which no small letter or digit is directly followed by a
    capital letter is left as it is by the second substitution. *)
Lemma re_sub_no_capital_after_lower n s :
  no_capital_after_lower s = true ->
  re_sub_from n capital_after_lower s = s.
Proof.
  revert s. induction n as [|n IH]; intros s Hs; [reflexivity|].
  destruct s as [|c1 rest]; [reflexivity|].
  cbn [no_capital_after_lower] in Hs. apply andb_prop in Hs as [Hpair Hrest].
  cbn [re_sub_from]. destruct rest as [|c2 rest'].
  - cbn. rewrite re_sub_from_nil. reflexivity.
  - unfold capital_after_lower at 1.
    apply negb_true_iff in Hpair. rewrite Hpair.
    rewrite (IH _ Hrest). reflexivity.
Qed.

Lemma no_capital_after_small_run l t :
  Forall small_letter l ->
  match t with
  | c :: _ => is_upper c = false
  | [] => True
  end ->
  no_capital_after_lower t = true ->
  no_capital_after_lower (l ++ t) = true.
Proof.
  intros Hl Hhead Ht. induction Hl as [|a l Ha Hl IH]; [exact Ht|].
  cbn [app no_capital_after_lower]. rewrite IH, andb_true_r.
  destruct l as [|b l]; cbn [app].
  - destruct t as [|c t]; [reflexivity|]. rewrite Hhead, andb_false_r. reflexivity.
  - inversion Hl as [|? ? Hb _]; subst.
    rewrite (small_is_not_upper b Hb), andb_false_r. reflexivity.
Qed.

(** The identity derived from a class name made of two capitalized
    words. *)
Lemma derive_slug_two_words u1 l1 u2 l2 :
  capital_letter u1 -> Forall small_letter l1 -> l1 <> [] ->
  capital_letter u2 -> Forall small_letter l2 -> l2 <> [] ->
  derive_slug (string_of_list_ascii (u1 :: l1 ++ u2 :: l2)) =
  string_of_list_ascii (small_of u1 :: l1 ++ "_"%char :: small_of u2 :: l2).
Proof.
  intros Hu1 Hl1 Hne1 Hu2 Hl2 Hne2.
  destruct l2 as [|c3 l2]; [contradiction|].
  inversion Hl2 as [|? ? Hc3 Hl2']; subst.
  unfold derive_slug, re_sub. rewrite list_ascii_of_string_of_list_ascii.
  assert (Hfirst :
    re_sub_from (List.length (u1 :: l1 ++ u2 :: c3 :: l2)) word_start
      (u1 :: l1 ++ u2 :: c3 :: l2)
    = u1 :: l1 ++ "_"%char :: u2 :: c3 :: l2).
  { cbn [List.length re_sub_from].
    destruct l1 as [|a l1]; [contradiction|].
    inversion Hl1 as [|? ? Ha _]; subst.
    cbn [app]. rewrite (word_start_needs_capital u1 a _ (small_is_not_upper a Ha)).
    f_equal.
    apply (word_start_at_second_word _ (a :: l1) u2 c3 l2); try assumption.
    cbn [List.length app]. rewrite List.length_app. cbn [List.length]. lia. }
  rewrite Hfirst.
  rewrite re_sub_no_capital_after_lower.
  - cbn [map]. rewrite map_app. cbn [map].
    change (to_lower c3 :: map to_lower l2) with (map to_lower (c3 :: l2)).
    rewrite (to_lower_capital u1 Hu1), (to_lower_capital u2 Hu2).
    rewrite (to_lower_small l1 Hl1), (to_lower_small (c3 :: l2) Hl2).
    reflexivity.
  - cbn [no_capital_after_lower].
    rewrite (no_capital_after_small_run l1 ("_"%char :: u2 :: c3 :: l2) Hl1).
    + rewrite andb_true_r. rewrite (capital_is_not_lower u1 Hu1).
      destruct (l1 ++ "_"%char :: u2 :: c3 :: l2); reflexivity.
    + reflexivity.
    + cbn [no_capital_after_lower].
      rewrite (capital_is_not_lower u2 Hu2). cbn [andb negb orb].
      pose proof (no_capital_after_small_run (c3 :: l2) [] Hl2 I eq_refl) as Hrun.
      rewrite app_nil_r in Hrun. cbn [no_capital_after_lower] in Hrun.
      exact Hrun.
Qed.

(** C8, amended.  [get_slug] depends on the class name and the [slug]
    attribute only.  Without an override (no [slug], or an empty one) the
    identity is derived from the class name: a class name made of two
    capitalized words -- a capital letter followed by one or more small
    letters, twice, as in [ContactList] -- yields the two words in small
    letters, joined by an underscore ([contact_list]).  And whenever
    [slug] is set to a non-empty string, [get_slug] returns that string
    unchanged, whatever the class name. *)
Theorem get_slug_spec (cls : module_class) :
  (forall cls', class_name cls' = class_name cls -> slug cls' = slug cls ->
                get_slug cls' = get_slug cls) /\
  (forall u1 l1 u2 l2,
     capital_letter u1 -> Forall small_letter l1 -> l1 <> [] ->
     capital_letter u2 -> Forall small_letter l2 -> l2 <> [] ->
     class_name cls = string_of_list_ascii (u1 :: l1 ++ u2 :: l2) ->
     slug cls = None \/ slug cls = Some "" ->
     get_slug cls =
       string_of_list_ascii (small_of u1 :: l1 ++ "_"%char :: small_of u2 :: l2)) /\
  (forall s, slug cls = Some s -> s <> "" -> get_slug cls = s).
Proof.
  repeat split.
  - intros cls' Hn Hs. unfold get_slug. rewrite Hn, Hs. reflexivity.
  - intros u1 l1 u2 l2 Hu1 Hl1 Hne1 Hu2 Hl2 Hne2 Hn Hs.
    unfold get_slug. destruct Hs as [-> | ->]; cbn [String.eqb negb];
      rewrite Hn; apply derive_slug_two_words; assumption.
  - intros s Hs Hne. unfold get_slug. rewrite Hs.
    destruct (String.eqb_spec s ""); [contradiction | reflexivity].
Qed.

Lemma get_slug_spec_witness :
  get_slug (ModuleClass "ContactList" None (run MVTModule_class)
              (check_indicators MVTModule_class) (serialize MVTModule_class))
    = "contact_list" /\
  get_slug (ModuleClass "ContactList" (Some "addressbook") (run MVTModule_class)
              (check_indicators MVTModule_class) (serialize MVTModule_class))
    = "addressbook".
Proof.
  split.
  - apply (proj1 (proj2 (get_slug_spec
             (ModuleClass "ContactList" None (run MVTModule_class)
                (check_indicators MVTModule_class) (serialize MVTModule_class))))
             "C"%char (list_ascii_of_string "ontact")
             "L"%char (list_ascii_of_string "ist")).
    + unfold capital_letter. vm_compute. lia.
    + repeat (apply List.Forall_cons; [unfold small_letter; vm_compute; lia|]).
      apply List.Forall_nil.
    + discriminate.
    + unfold capital_letter. vm_compute. lia.
    + repeat (apply List.Forall_cons; [unfold small_letter; vm_compute; lia|]).
      apply List.Forall_nil.
    + discriminate.
    + reflexivity.
    + left. reflexivity.
  - apply (proj2 (proj2 (get_slug_spec
             (ModuleClass "ContactList" (Some "addressbook") (run MVTModule_class)
                (check_indicators MVTModule_class) (serialize MVTModule_class))))
             "addressbook"); [reflexivity | discriminate].
Defined.

(** ** Ordering of strings and the stable sort *)

Lemma string_leb_refl s : String.leb s s = true.
Proof.
  unfold String.leb.
  assert (H : String.compare s s = Eq) by (apply OrderedTypeEx.String_as_OT.cmp_eq; reflexivity).
  rewrite H. reflexivity.
Qed.

Lemma string_leb_trans a b c :
  String.leb a b = true -> String.leb b c = true -> String.leb a c = true.
Proof.
  unfold String.leb. intros Hab Hbc.
  destruct (String.compare a b) eqn:Eab; try discriminate.
  - apply String.compare_eq_iff in Eab. subst. exact Hbc.
  - destruct (String.compare b c) eqn:Ebc; try discriminate.
    + apply String.compare_eq_iff in Ebc. subst. rewrite Eab. reflexivity.
    + apply OrderedTypeEx.String_as_OT.cmp_lt in Eab, Ebc.
      assert (Hac : OrderedTypeEx.String_as_OT.lt a c)
        by (eapply OrderedTypeEx.String_as_OT.lt_trans; eauto).
      apply OrderedTypeEx.String_as_OT.cmp_lt in Hac.
      unfold OrderedTypeEx.String_as_OT.cmp in Hac. rewrite Hac. reflexivity.
Qed.

Lemma string_leb_empty s : String.leb "" s = true.
Proof. destruct s; reflexivity. Qed.

Lemma string_leb_empty_inv s : String.leb s "" = true -> s = "".
Proof. destruct s; [reflexivity | discriminate]. Qed.

Section SortingFacts.
Context {A : Type} (key : A -> string).

Definition key_le (a b : A) : Prop := String.leb (key a) (key b) = true.

Lemma insert_by_perm x l : Permutation (insert_by key x l) (x :: l).
Proof.
  induction l as [|y l IH]; cbn.
  - reflexivity.
  - destruct (String.leb (key x) (key y)).
    + reflexivity.
    + rewrite IH. apply perm_swap.
Qed.

Lemma sorted_by_perm l : Permutation (sorted_by key l) l.
Proof.
  induction l as [|x l IH]; cbn.
  - reflexivity.
  - rewrite insert_by_perm. constructor. exact IH.
Qed.

Lemma insert_by_sorted x l :
  StronglySorted key_le l -> StronglySorted key_le (insert_by key x l).
Proof.
  induction l as [|y l IH]; cbn; intros Hs.
  - constructor; constructor.
  - inversion Hs as [|? ? Hl Hy]; subst.
    destruct (String.leb (key x) (key y)) eqn:Hxy.
    + constructor; [exact Hs|].
      constructor; [exact Hxy|].
      eapply List.Forall_impl; [|exact Hy].
      intros z Hz. unfold key_le in *. eapply string_leb_trans; eauto.
    + constructor; [apply IH; exact Hl|].
      eapply Permutation_Forall; [symmetry; apply insert_by_perm|].
      constructor; [|exact Hy].
      unfold key_le. destruct (String.leb_total (key x) (key y)) as [H|H];
        [congruence | exact H].
Qed.

Lemma sorted_by_sorted l : StronglySorted key_le (sorted_by key l).
Proof.
  induction l as [|x l IH]; cbn.
  - constructor.
  - apply insert_by_sorted. exact IH.
Qed.

(** Sorting leaves a sorted list as it is. *)
Lemma sorted_by_id l : StronglySorted key_le l -> sorted_by key l = l.
Proof.
  induction l as [|x l IH]; cbn; intros Hs.
  - reflexivity.
  - inversion Hs as [|? ? Hl Hx]; subst. rewrite IH by exact Hl.
    destruct l as [|y l]; cbn.
    + reflexivity.
    + inversion Hx as [|? ? Hxy _]; subst. unfold key_le in Hxy.
      rewrite Hxy. reflexivity.
Qed.
End SortingFacts.

Lemma sequence_map_ok {A B} (f : A -> result B) (g : A -> B) (l : list A) :
  Forall (fun x => f x = Ok (g x)) l -> sequence (map f l) = Ok (map g l).
Proof.
  induction 1 as [|x l Hx _ IH]; cbn.
  - reflexivity.
  - rewrite Hx. cbn. rewrite IH. reflexivity.
Qed.

(** ** The merged timeline *)

Lemma timestamp_key_ok e :
  dict_get "timestamp" e <> None -> timestamp_key e = Ok (ts_key e).
Proof.
  unfold timestamp_key, ts_key, entry_get.
  destruct (dict_get "timestamp" e) as [[t|]|]; congruence.
Qed.

Lemma map_snd_combine_keys {A B} (f : A -> B) (l : list A) :
  map snd (combine (map f l) l) = l.
Proof.
  induction l as [|x l IH]; cbn; [reflexivity | rewrite IH; reflexivity].
Qed.

Lemma keyed_sorted_projects (l : list (string * entry)) :
  Forall (fun p => fst p = ts_key (snd p)) l ->
  StronglySorted (key_le fst) l ->
  StronglySorted (key_le ts_key) (map snd l).
Proof.
  intros Hk Hs. induction Hs as [|p l Hs IH Hp]; cbn.
  - constructor.
  - inversion Hk as [|? ? Hp1 Hl]; subst. constructor.
    + apply IH. exact Hl.
    + apply List.Forall_map.
      rewrite List.Forall_forall in *. intros q Hq.
      specialize (Hp q Hq). specialize (Hl q Hq).
      unfold key_le in *. rewrite <- Hp1, <- Hl. exact Hp.
Qed.

Lemma sorted_timeline_ok tl :
  Forall (fun e => dict_get "timestamp" e <> None) tl ->
  sorted_timeline tl =
    Ok (map snd (sorted_by fst (combine (map ts_key tl) tl))).
Proof.
  intros Hts. unfold sorted_timeline.
  rewrite (sequence_map_ok timestamp_key ts_key).
  - reflexivity.
  - eapply List.Forall_impl; [|exact Hts]. apply timestamp_key_ok.
Qed.

Lemma sorted_prefix_le {A} (key : A -> string) (l1 : list A) y l2 :
  StronglySorted (key_le key) (l1 ++ y :: l2) ->
  Forall (fun x => key_le key x y) l1.
Proof.
  induction l1 as [|x l1 IH]; cbn; intros Hs.
  - constructor.
  - inversion Hs as [|? ? Hl Hx]; subst. constructor.
    + rewrite List.Forall_forall in Hx. apply Hx.
      apply in_or_app. right. left. reflexivity.
    + apply IH. exact Hl.
Qed.

(** C7.  [save_timeline] opens the file in mode [a+] and appends, after
    what the file already holds, the header row and one row per entry;
    the rows are those of the entries ordered ascending by timestamp,
    where a null timestamp counts as the empty string, so that every
    entry placed before an undated one is itself undated.  Entries dated
    [2023-01-02], null, [2023-01-01] come out as null, [2023-01-01],
    [2023-01-02]. *)
Theorem save_timeline_sorted_append :
  (forall io tl path w,
     open_error io path "a+" = None ->
     Forall (fun e => dict_get "timestamp" e <> None) tl ->
     exists ordered w',
       save_timeline io tl path w = (Ok tt, w') /\
       Permutation ordered tl /\
       StronglySorted (key_le ts_key) ordered /\
       (forall before y after,
          ordered = before ++ y :: after -> entry_get "timestamp" y = None ->
          Forall (fun x => ts_key x = "") before) /\
       events w' = events w ++ [Opened path "a+"] /\
       files w' !! path =
         Some (default [] (files w !! path)
               ++ Row timeline_header
                  :: map (fun e => Row (timeline_row e)) ordered) /\
       (forall p, p <> path -> files w' !! p = files w !! p)) /\
  (let w' := snd (save_timeline io_ok three_events "/out/timeline.csv" empty_world) in
   events w' = [Opened "/out/timeline.csv" "a+"] /\
   files w' !! "/out/timeline.csv" =
     Some [Row timeline_header;
           Row [None; Some "SMS"; Some "sms_received"; Some "undated"];
           Row [Some "2023-01-01"; Some "SMS"; Some "sms_received"; Some "first"];
           Row [Some "2023-01-02"; Some "SMS"; Some "sms_received"; Some "second"]]).
Proof.
  split; [|vm_compute; split; reflexivity].
  intros io tl path w Hopen Hts.
  set (ordered := map snd (sorted_by fst (combine (map ts_key tl) tl))).
  assert (Hsorted : StronglySorted (key_le ts_key) ordered).
  { apply keyed_sorted_projects; [|apply sorted_by_sorted].
    eapply Permutation_Forall; [symmetry; apply sorted_by_perm|].
    clear. induction tl as [|e tl IH]; cbn; constructor; auto. }
  assert (Hperm : Permutation ordered tl).
  { unfold ordered. rewrite sorted_by_perm, map_snd_combine_keys. reflexivity. }
  pose proof (sorted_timeline_ok tl Hts) as Hst. fold ordered in Hst.
  clearbody ordered. exists ordered.
  unfold save_timeline.
  cbv beta iota zeta delta [bind open_file emit raise ret write_chunks set_file
                            lift_result].
  rewrite Hopen, Hst.
  replace (String.eqb "a+" "w") with false by reflexivity.
  replace (String.eqb "a+" "r") with false by reflexivity.
  cbn [files events].
  destruct (files w !! path) as [old|] eqn:Hold; cbn [files events];
    eexists; (split; [reflexivity|]); cbn [files events].
  all: split; [exact Hperm|].
  all: split; [exact Hsorted|].
  all: split;
    [intros before y after Heq Hy;
     rewrite Heq in Hsorted; apply sorted_prefix_le in Hsorted;
     eapply List.Forall_impl; [|exact Hsorted];
     intros x Hx; unfold key_le in Hx;
     replace (ts_key y) with "" in Hx by (unfold ts_key; rewrite Hy; reflexivity);
     apply string_leb_empty_inv; exact Hx|].
  all: split; [reflexivity|].
  all: split; [| intros p Hp; rewrite !lookup_insert_ne by congruence; reflexivity].
  all: rewrite !lookup_insert_eq; try rewrite Hold; cbn;
    rewrite <- ?app_assoc; reflexivity.
Qed.

(** ** Reloading persisted results *)

Lemma dict_set_new {V} k (v : V) d :
  existsb (String.eqb k) (map fst d) = false -> dict_set k v d = d ++ [(k, v)].
Proof.
  induction d as [|[k' v'] d IH]; cbn; intros H.
  - reflexivity.
  - apply orb_false_iff in H as [Hk Hd]. rewrite Hk, IH by exact Hd. reflexivity.
Qed.

Lemma existsb_eqb_app k (l1 l2 : list string) :
  existsb (String.eqb k) (l1 ++ l2) =
  existsb (String.eqb k) l1 || existsb (String.eqb k) l2.
Proof. apply existsb_app. Qed.

Lemma dict_of_pairs_from {V} (d acc : list (string * V)) :
  unique_keys (map fst d) = true ->
  forallb (fun k => negb (existsb (String.eqb k) (map fst acc))) (map fst d) = true ->
  fold_left (fun a kv => dict_set (fst kv) (snd kv) a) d acc = acc ++ d.
Proof.
  revert acc. induction d as [|[k v] d IH]; cbn; intros acc Hu Hfresh.
  - rewrite app_nil_r. reflexivity.
  - apply andb_true_iff in Hu as [Hk Hu].
    apply andb_true_iff in Hfresh as [Hka Hfresh].
    apply negb_true_iff in Hk, Hka.
    rewrite dict_set_new by exact Hka.
    rewrite IH.
    + rewrite <- app_assoc. reflexivity.
    + exact Hu.
    + rewrite forallb_forall in *. intros k' Hk'.
      rewrite map_app, existsb_eqb_app. cbn.
      rewrite (proj1 (negb_true_iff _) (Hfresh k' Hk')). cbn.
      rewrite orb_false_r. apply negb_true_iff.
      destruct (String.eqb_spec k' k) as [->|]; [|reflexivity].
      exfalso. rewrite <- not_true_iff_false in Hk. apply Hk.
      apply existsb_exists. exists k. split; [exact Hk'|apply String.eqb_refl].
Qed.

(** A list of pairs without repeated keys is the dict it denotes. *)
Lemma dict_of_pairs_unique {V} (d : list (string * V)) :
  unique_keys (map fst d) = true -> dict_of_pairs d = d.
Proof.
  intros Hu. unfold dict_of_pairs. rewrite dict_of_pairs_from; auto.
  apply forallb_forall. reflexivity.
Qed.

Lemma encode_items_round_trip l :
  Forall round_trips l -> forallb json_native l = true ->
  exists js, sequence (map (encode false true) l) = Ok js /\ map decode js = l.
Proof.
  induction 1 as [|v l Hv _ IH]; cbn; intros Hn.
  - exists []. split; reflexivity.
  - apply andb_true_iff in Hn as [Hnv Hnl].
    destruct (Hv Hnv) as (j & Hj & Hd). destruct (IH Hnl) as (js & Hjs & Hds).
    exists (j :: js). rewrite Hj. cbn. rewrite Hjs. cbn. rewrite Hd, Hds.
    split; reflexivity.
Qed.

Lemma encode_members_round_trip (d : list (string * pyval)) :
  Forall (fun kv => round_trips (snd kv)) d ->
  forallb (fun kv => json_native (snd kv)) d = true ->
  exists ms,
    sequence (map (fun kv => result_map (pair (fst kv))
                                        (encode false true (snd kv))) d) = Ok ms /\
    map (fun kv => (fst kv, decode (snd kv))) ms = d.
Proof.
  induction 1 as [|[k v] d Hv _ IH]; cbn; intros Hn.
  - exists []. split; reflexivity.
  - apply andb_true_iff in Hn as [Hnv Hnl].
    destruct (Hv Hnv) as (j & Hj & Hd). destruct (IH Hnl) as (ms & Hms & Hds).
    exists ((k, j) :: ms). cbn in Hj. rewrite Hj. cbn. rewrite Hms. cbn.
    rewrite Hd, Hds. split; reflexivity.
Qed.

(** Dumping a native value (with [default=str], keys unsorted) and
    loading the document gives the value back. *)
Lemma native_round_trip v : round_trips v.
Proof.
  induction v as [| | | |l IH|l IH|d IH|] using pyval_nested_ind;
    unfold round_trips; cbn; intros Hn; try discriminate;
    try (eexists; split; reflexivity).
  - destruct (encode_items_round_trip l IH Hn) as (js & Hjs & Hds).
    exists (JArr js). rewrite Hjs. cbn. rewrite Hds. split; reflexivity.
  - apply andb_true_iff in Hn as [Hu Hn].
    destruct (encode_members_round_trip d IH Hn) as (ms & Hms & Hds).
    exists (JObj ms). rewrite Hms. cbn. rewrite Hds.
    rewrite dict_of_pairs_unique by exact Hu. split; reflexivity.
Qed.

Lemma string_append_inj_l (s a b : string) :
  String.append s a = String.append s b -> a = b.
Proof.
  induction s as [|c s IH]; cbn; intros H; [exact H|].
  injection H as H. apply IH. exact H.
Qed.

Lemma starts_with_slash_append (s a b : string) :
  starts_with_slash a = starts_with_slash b ->
  starts_with_slash (String.append s a) = starts_with_slash (String.append s b).
Proof. destruct s; cbn; auto. Qed.

(** The results file and the detections file of a module never coincide. *)
Lemma results_path_is_not_detected_path folder name :
  path_join folder (String.append name ".json") <>
  path_join folder (String.append name "_detected.json").
Proof.
  unfold path_join.
  rewrite (starts_with_slash_append name ".json" "_detected.json") by reflexivity.
  destruct (starts_with_slash (String.append name "_detected.json")).
  - intros H. apply string_append_inj_l in H. discriminate H.
  - destruct (String.eqb folder "" || ends_with_slash folder); intros H.
    + apply string_append_inj_l in H. apply string_append_inj_l in H. discriminate H.
    + do 3 apply string_append_inj_l in H. discriminate H.
Qed.

(** *** The primitive steps, as equations *)

Lemma bind_ok {S A B} (c : M S A) (k : A -> M S B) s a s' :
  c s = (Ok a, s') -> bind c k s = k a s'.
Proof. unfold bind. intros ->. reflexivity. Qed.

Lemma bind_raise {S A B} (c : M S A) (k : A -> M S B) s e s' :
  c s = (Raise e, s') -> bind c k s = (Raise e, s').
Proof. unfold bind. intros ->. reflexivity. Qed.

Lemma in_world_eq {A} (c : M world A) m w r w' :
  c w = (r, w') -> in_world c (m, w) = (r, (m, w')).
Proof. unfold in_world. cbn. intros ->. reflexivity. Qed.

Lemma open_file_write io path w :
  open_error io path "w" = None ->
  open_file io path "w" w =
    (Ok tt, World (<[path := []]> (files w)) (events w ++ [Opened path "w"])).
Proof.
  intros H. unfold open_file, bind, emit, set_file. rewrite H. cbn.
  destruct (files w !! path); reflexivity.
Qed.

Lemma open_file_fails io path mode w e :
  open_error io path mode = Some e ->
  open_file io path mode w =
    (Raise e, World (files w) (events w ++ [Opened path mode])).
Proof.
  intros H. unfold open_file, bind, emit, raise. rewrite H. reflexivity.
Qed.

Lemma open_file_read io path w content :
  open_error io path "r" = None ->
  files w !! path = Some content ->
  open_file io path "r" w =
    (Ok tt, World (files w) (events w ++ [Opened path "r"])).
Proof.
  intros H Hc. unfold open_file, bind, emit. rewrite H. cbn. rewrite Hc.
  reflexivity.
Qed.

Lemma json_dump_eq io path v w :
  json_dump io path v w =
    (fst (dump_outcome io path v),
     World (<[path := default [] (files w !! path) ++ [snd (dump_outcome io path v)]]>
              (files w))
           (events w)).
Proof.
  unfold json_dump, dump_outcome, bind, write_chunks, set_file, raise.
  destruct (dump_error io path); [reflexivity|].
  destruct (encode false true v); reflexivity.
Qed.

Lemma close_file_ok io path w :
  close_error io path = None -> close_file io path w = (Ok tt, w).
Proof. unfold close_file. intros ->. reflexivity. Qed.

Lemma close_file_fails io path w e :
  close_error io path = Some e ->
  close_file io path w =
    (Raise e, World (<[path := [Partial]]> (files w)) (events w)).
Proof. unfold close_file. intros ->. reflexivity. Qed.

(** A [with] block whose file cannot be opened is not entered. *)
Lemma with_open_not_entered {A} io path mode (body : M state A) m w e :
  open_error io path mode = Some e ->
  with_open io path mode body (m, w) =
    (Raise e, (m, World (files w) (events w ++ [Opened path mode]))).
Proof.
  intros Hopen. unfold with_open.
  apply bind_raise, in_world_eq, open_file_fails. exact Hopen.
Qed.

(** A [with] block on a file opened for writing: the body runs on the
    truncated file, then the handle is closed. *)
Lemma with_open_write {A} io path (body : M state A) m w r m' w' :
  open_error io path "w" = None ->
  body (m, World (<[path := []]> (files w)) (events w ++ [Opened path "w"]))
    = (r, (m', w')) ->
  with_open io path "w" body (m, w) =
    match close_error io path with
    | None => (r, (m', w'))
    | Some e =>
        (Raise e, (m', World (<[path := [Partial]]> (files w')) (events w')))
    end.
Proof.
  intros Hopen Hbody. unfold with_open.
  erewrite bind_ok by (apply in_world_eq, open_file_write; exact Hopen).
  rewrite Hbody.
  destruct (close_error io path) as [e|] eqn:Hclose.
  - erewrite in_world_eq by (apply close_file_fails; exact Hclose). reflexivity.
  - erewrite in_world_eq by (apply close_file_ok; exact Hclose). reflexivity.
Qed.

(** Opening a file for writing, dumping into it and closing it leaves the
    other files alone, whatever fails. *)
Lemma write_stage_frame io path v m w :
  exists r w',
    with_open io path "w" (in_world (json_dump io path v)) (m, w)
      = (r, (m, w')) /\
    forall q, q <> path -> files w' !! q = files w !! q.
Proof.
  destruct (open_error io path "w") as [e|] eqn:Hopen.
  - eexists _, _. split.
    + apply with_open_not_entered. exact Hopen.
    + reflexivity.
  - erewrite with_open_write
      by (try exact Hopen; apply in_world_eq, json_dump_eq).
    destruct (close_error io path); eexists _, _; (split; [reflexivity|]);
      intros q Hq; cbn; rewrite !lookup_insert_ne by congruence; reflexivity.
Qed.

Lemma try_except_ok {S A} (body : M S A) handler s a s' :
  body s = (Ok a, s') -> try_except body handler s = (Ok a, s').
Proof. unfold try_except. intros ->. reflexivity. Qed.

(** Persisting non-empty native results writes their document to the
    results file, whatever happens to the detections afterwards. *)
Lemma save_to_json_writes_results io cls m w folder v :
  output_folder m = Some folder -> folder <> "" ->
  results m = v -> truthy v = true -> json_native v = true ->
  open_error io (path_join folder (String.append (get_slug cls) ".json")) "w" = None ->
  dump_error io (path_join folder (String.append (get_slug cls) ".json")) = None ->
  close_error io (path_join folder (String.append (get_slug cls) ".json")) = None ->
  exists r w1 j,
    save_to_json io cls (m, w) = (r, (m, w1)) /\
    files w1 !! path_join folder (String.append (get_slug cls) ".json") = Some [Doc j] /\
    decode j = v.
Proof.
  intros Hout Hfolder Hres Htrue Hnative Hopen Hdump Hclose.
  destruct (native_round_trip v Hnative) as (j & Hj & Hdec).
  set (path := path_join folder (String.append (get_slug cls) ".json")) in *.
  assert (Hstage1 :
    with_open io path "w"
      (try_except (in_world (json_dump io path v))
         (fun e =>
            if is_Exception e then
              Some (module_log LError
                      "Unable to store results of module %s to file %s: %s"
                      [PStr (class_name cls); PStr (String.append (get_slug cls) ".json");
                       PStr (exn_msg e)])
            else None)) (m, w)
    = (Ok tt, (m, World (<[path := [Doc j]]> (<[path := []]> (files w)))
                        (events w ++ [Opened path "w"])))).
  { erewrite with_open_write; [rewrite Hclose; reflexivity | exact Hopen |].
    apply try_except_ok. erewrite in_world_eq by apply json_dump_eq.
    unfold dump_outcome. rewrite Hdump, Hj. cbn.
    rewrite lookup_insert_eq. reflexivity. }
  unfold save_to_json. unfold bind at 1. unfold get_module at 1. cbn [fst].
  rewrite Hout. destruct (String.eqb_spec folder "") as [|_]; [contradiction|].
  rewrite Hres, Htrue. fold path.
  erewrite bind_ok by exact Hstage1.
  destruct (truthy (PList (detected m))).
  - destruct (write_stage_frame io
                (path_join folder (String.append (get_slug cls) "_detected.json"))
                (PList (detected m)) m
                (World (<[path := [Doc j]]> (<[path := []]> (files w)))
                       (events w ++ [Opened path "w"])))
      as (r & w1 & Hrun & Hframe).
    exists r, w1, j. split; [exact Hrun|]. split; [|exact Hdec].
    rewrite Hframe by apply results_path_is_not_detected_path.
    cbn. apply lookup_insert_eq.
  - eexists _, _, j. split; [reflexivity|]. split; [|exact Hdec].
    cbn. apply lookup_insert_eq.
Qed.

(** Loading a file that holds one document. *)
Lemma from_json_reads io path lg w j :
  open_error io path "r" = None ->
  files w !! path = Some [Doc j] ->
  (lg = None \/ exists n, py_len (decode j) = Ok n) ->
  exists w', from_json io path lg w = (Ok (init None None None false lg (decode j)), w').
Proof.
  intros Hopen Hfile Hlen. unfold from_json.
  erewrite bind_ok by (eapply open_file_read; eauto).
  unfold bind at 1. unfold json_load at 1. cbn [files]. rewrite Hfile.
  destruct lg as [l|].
  - destruct Hlen as [Hlen | [n Hn]]; [discriminate|]. rewrite Hn.
    eexists. reflexivity.
  - eexists. reflexivity.
Qed.

(** C9, as stated, fails: a value the encoder passes through [str] (a
    datetime, say) comes back as a string, and a tuple comes back as a
    list; the reloaded results differ from the original ones. *)
Lemma reload_changes_foreign_values :
  (fst (save_to_json io_ok contacts_class
          (sample_module (Some "/out") dated_results, empty_world)) = Ok tt /\
   exists m2,
     fst (from_json io_ok "/out/contacts.json" None
            (snd (snd (save_to_json io_ok contacts_class
                         (sample_module (Some "/out") dated_results, empty_world)))))
       = Ok m2 /\
     results m2 =
       PList [PDict [("name", PStr "Ada"); ("seen", PStr "2021-07-18 10:00:00")]] /\
     results m2 <> dated_results) /\
  (fst (save_to_json io_ok contacts_class
          (sample_module (Some "/out") paired_results, empty_world)) = Ok tt /\
   exists m2,
     fst (from_json io_ok "/out/contacts.json" None
            (snd (snd (save_to_json io_ok contacts_class
                         (sample_module (Some "/out") paired_results, empty_world)))))
       = Ok m2 /\
     results m2 =
       PList [PDict [("name", PStr "Ada"); ("position", PList [PInt 48; PInt 2])]] /\
     results m2 <> paired_results).
Proof.
  split; (split; [vm_compute; reflexivity|]);
    eexists; (split; [vm_compute; reflexivity|]);
    (split; [reflexivity | discriminate]).
Qed.

(** C9, amended.  For a module whose [results] is a non-empty list of
    JSON-native values (no tuples, no objects encoded through [str], no
    dict with a repeated key), with an output folder set and a results
    file that can be opened, written, closed and read back without an
    error: persisting with [save_to_json] and
    reconstructing a module from the results file with [from_json] yields
    [results] equal to the original. *)
Theorem reload_round_trip io cls m w folder l lg :
  output_folder m = Some folder -> folder <> "" ->
  results m = PList l -> l <> [] -> json_native (PList l) = true ->
  open_error io (path_join folder (String.append (get_slug cls) ".json")) "w" = None ->
  dump_error io (path_join folder (String.append (get_slug cls) ".json")) = None ->
  close_error io (path_join folder (String.append (get_slug cls) ".json")) = None ->
  open_error io (path_join folder (String.append (get_slug cls) ".json")) "r" = None ->
  exists r w1 m2 w2,
    save_to_json io cls (m, w) = (r, (m, w1)) /\
    from_json io (path_join folder (String.append (get_slug cls) ".json")) lg w1
      = (Ok m2, w2) /\
    results m2 = results m.
Proof.
  intros Hout Hfolder Hres Hne Hnative Hopenw Hdump Hclose Hopenr.
  destruct (save_to_json_writes_results io cls m w folder (PList l))
    as (r & w1 & j & Hsave & Hfile & Hdec); auto.
  { destruct l; [contradiction | reflexivity]. }
  destruct (from_json_reads io _ lg w1 j Hopenr Hfile) as (w2 & Hload).
  { right. rewrite Hdec. eexists. reflexivity. }
  exists r, w1, (init None None None false lg (decode j)), w2.
  split; [exact Hsave|]. split; [exact Hload|].
  cbn. rewrite Hdec, Hres. reflexivity.
Qed.

Lemma reload_round_trip_witness :
  exists r w1 m2 w2,
    save_to_json io_ok contacts_class (contacts_module, empty_world)
      = (r, (contacts_module, w1)) /\
    from_json io_ok
      (path_join "/out" (String.append (get_slug contacts_class) ".json"))
      (Some mvt_logger) w1 = (Ok m2, w2) /\
    results m2 = results contacts_module.
Proof.
  apply (reload_round_trip io_ok contacts_class contacts_module empty_world
           "/out" [PDict [("name", PStr "Ada")]] (Some mvt_logger));
    try reflexivity; discriminate.
Defined.

(** ** Deduplicating a timeline *)

Lemma insert_by_map {A B} (f : A -> B) (key : A -> string) (key' : B -> string) x l :
  (forall a, key' (f a) = key a) ->
  insert_by key' (f x) (map f l) = map f (insert_by key x l).
Proof.
  intros Hk. induction l as [|y l IH]; cbn.
  - reflexivity.
  - rewrite !Hk. destruct (String.leb (key x) (key y)); cbn.
    + reflexivity.
    + rewrite IH. reflexivity.
Qed.

Lemma sorted_by_map {A B} (f : A -> B) (key : A -> string) (key' : B -> string) l :
  (forall a, key' (f a) = key a) ->
  sorted_by key' (map f l) = map f (sorted_by key l).
Proof.
  intros Hk. induction l as [|x l IH]; cbn.
  - reflexivity.
  - rewrite IH. apply insert_by_map. exact Hk.
Qed.

Lemma sorted_by_idem {A} (key : A -> string) l :
  sorted_by key (sorted_by key l) = sorted_by key l.
Proof. apply sorted_by_id, sorted_by_sorted. Qed.

Lemma encode_entry_val e : encode true false (entry_val e) = Ok (canon e).
Proof.
  unfold entry_val, canon. cbn. rewrite map_map.
  rewrite (sequence_map_ok _ (fun kv : string * option string =>
                                (fst kv, field_json (snd kv)))).
  - cbn. f_equal. f_equal. apply sorted_by_map. reflexivity.
  - apply List.Forall_forall. intros [k [s|]] _; reflexivity.
Qed.

Lemma unique_keys_NoDup ks : unique_keys ks = true <-> List.NoDup ks.
Proof.
  induction ks as [|k ks IH]; cbn.
  - split; [constructor | reflexivity].
  - rewrite andb_true_iff, negb_true_iff, IH. split.
    + intros [Hk Hks]. apply List.NoDup_cons; [|exact Hks].
      intros Hin. rewrite <- not_true_iff_false in Hk. apply Hk.
      apply existsb_exists. exists k. split; [exact Hin | apply String.eqb_refl].
    + intros Hnd. apply List.NoDup_cons_iff in Hnd as [Hk Hks]. split; [|exact Hks].
      apply not_true_iff_false. intros Hex.
      apply existsb_exists in Hex as (k' & Hin & Heq).
      apply String.eqb_eq in Heq. subst. contradiction.
Qed.

Lemma sorted_by_wf (e : entry) : dict_wf e -> dict_wf (sorted_by fst e).
Proof.
  unfold dict_wf. intros Hwf.
  eapply Permutation_NoDup; [|exact Hwf].
  apply Permutation_map. symmetry. apply sorted_by_perm.
Qed.

Lemma entry_of_doc_canon e : entry_of_doc (canon e) = sorted_by fst e.
Proof.
  unfold canon, entry_of_doc. rewrite map_map.
  rewrite <- (map_id (sorted_by fst e)) at 2.
  apply map_ext. intros [k [s|]]; reflexivity.
Qed.

Lemma decode_canon e : dict_wf e -> decode (canon e) = entry_val (sorted_by fst e).
Proof.
  intros Hwf. unfold canon, entry_val. cbn. rewrite map_map.
  rewrite dict_of_pairs_unique.
  - f_equal. apply map_ext. intros [k [s|]]; reflexivity.
  - apply unique_keys_NoDup. rewrite map_map. cbn.
    apply (sorted_by_wf e Hwf).
Qed.

Lemma canon_sorted e : canon (sorted_by fst e) = canon e.
Proof. unfold canon. rewrite sorted_by_idem. reflexivity. Qed.

Lemma canon_inj a b : canon a = canon b -> sorted_by fst a = sorted_by fst b.
Proof.
  intros H. rewrite <- !entry_of_doc_canon. rewrite H. reflexivity.
Qed.

Lemma dict_get_In {V} (d : list (string * V)) k v :
  dict_wf d -> (dict_get k d = Some v <-> In (k, v) d).
Proof.
  unfold dict_wf. induction d as [|[k' v'] d IH]; cbn; intros Hwf.
  - split; [discriminate | contradiction].
  - apply List.NoDup_cons_iff in Hwf as [Hk' Hwf].
    destruct (String.eqb_spec k k') as [->|Hne].
    + split.
      * intros [= ->]. left. reflexivity.
      * intros [[= ->] | Hin]; [reflexivity|].
        exfalso. apply Hk'. apply (in_map fst) in Hin. exact Hin.
    + rewrite (IH Hwf). split.
      * intros Hin. right. exact Hin.
      * intros [[= -> _] | Hin]; [contradiction | exact Hin].
Qed.

Lemma same_fields_members (a b : entry) :
  dict_wf a -> dict_wf b ->
  (same_fields a b <-> forall x, In x a <-> In x b).
Proof.
  intros Ha Hb. split.
  - intros Hsame [k v]. rewrite <- !dict_get_In by assumption.
    rewrite (Hsame k). reflexivity.
  - intros Hmem k.
    destruct (dict_get k a) as [v|] eqn:Eka.
    + symmetry. apply (dict_get_In b k v Hb), Hmem, (dict_get_In a k v Ha), Eka.
    + destruct (dict_get k b) as [v|] eqn:Ekb; [|reflexivity].
      apply (dict_get_In b k v Hb), Hmem, (dict_get_In a k v Ha) in Ekb.
      congruence.
Qed.

(** A list ordered by its keys, none repeated, is determined by its members. *)
Lemma sorted_unique (l1 l2 : entry) :
  StronglySorted (key_le fst) l1 -> StronglySorted (key_le fst) l2 ->
  dict_wf l1 -> dict_wf l2 ->
  (forall x, In x l1 <-> In x l2) -> l1 = l2.
Proof.
  unfold dict_wf. revert l2.
  induction l1 as [|x t1 IH]; intros l2 Hs1 Hs2 Hn1 Hn2 Hmem.
  - destruct l2 as [|y t2]; [reflexivity|].
    exfalso. apply (Hmem y). left. reflexivity.
  - destruct l2 as [|y t2].
    { exfalso. apply (Hmem x). left. reflexivity. }
    inversion Hs1 as [|? ? Hs1' Hx]; subst.
    inversion Hs2 as [|? ? Hs2' Hy]; subst.
    cbn in Hn1, Hn2.
    apply List.NoDup_cons_iff in Hn1 as [Hx1 Hn1].
    apply List.NoDup_cons_iff in Hn2 as [Hy2 Hn2].
    rewrite List.Forall_forall in Hx, Hy.
    assert (Hxy : x = y).
    { destruct (proj1 (Hmem x) (or_introl eq_refl)) as [Heq | Hin2]; [auto|].
      destruct (proj2 (Hmem y) (or_introl eq_refl)) as [Heq | Hin1]; [auto|].
      exfalso. apply Hy2.
      assert (Hk : fst y = fst x).
      { apply String.leb_antisym; [apply Hy, Hin2 | apply Hx, Hin1]. }
      rewrite Hk. apply in_map. exact Hin2. }
    subst y. f_equal. apply IH; auto.
    intros z. split; intros Hz.
    + destruct (proj1 (Hmem z) (or_intror Hz)) as [Heq | Hin]; [|exact Hin].
      subst z. exfalso. apply Hx1. apply in_map. exact Hz.
    + destruct (proj2 (Hmem z) (or_intror Hz)) as [Heq | Hin]; [|exact Hin].
      subst z. exfalso. apply Hy2. apply in_map. exact Hz.
Qed.

(** Two entries have the same canonical document exactly when they have
    the same fields. *)
Lemma canon_same_fields (a b : entry) :
  dict_wf a -> dict_wf b -> (canon a = canon b <-> same_fields a b).
Proof.
  intros Ha Hb. rewrite (same_fields_members a b Ha Hb). split.
  - intros Hc%canon_inj x.
    rewrite <- (Permutation_in' (eq_refl x) (sorted_by_perm fst a)).
    rewrite <- (Permutation_in' (eq_refl x) (sorted_by_perm fst b)).
    rewrite Hc. reflexivity.
  - intros Hmem. unfold canon. f_equal. f_equal.
    apply sorted_unique.
    + apply sorted_by_sorted.
    + apply sorted_by_sorted.
    + apply sorted_by_wf, Ha.
    + apply sorted_by_wf, Hb.
    + intros x.
      rewrite (Permutation_in' (eq_refl x) (sorted_by_perm fst a)).
      rewrite (Permutation_in' (eq_refl x) (sorted_by_perm fst b)).
      apply Hmem.
Qed.

Lemma sorted_same_fields (e : entry) :
  dict_wf e -> same_fields e (sorted_by fst e).
Proof.
  intros Hwf. apply canon_same_fields; [exact Hwf | apply sorted_by_wf, Hwf|].
  symmetry. apply canon_sorted.
Qed.

Section Deduplicate.
Variable set_iter : list json -> list json.
Hypothesis set_ok : set_contract set_iter.

(** The entries that survive: one per document of the set. *)
Definition survivors (es : list entry) : list entry :=
  map entry_of_doc (set_iter (map canon es)).

Lemma set_member_canon es j :
  In j (set_iter (map canon es)) -> exists e, In e es /\ j = canon e.
Proof.
  intros Hj. apply (proj1 (proj2 (set_ok _) _)) in Hj.
  apply in_map_iff in Hj as (e & He & Hin). exists e. auto.
Qed.

Lemma dedupe_entries es :
  Forall dict_wf es ->
  timeline_deduplicate set_iter (map entry_val es) = Ok (map entry_val (survivors es)).
Proof.
  intros Hwf. unfold timeline_deduplicate, survivors.
  rewrite map_map, (sequence_map_ok _ canon).
  - cbn. f_equal. rewrite map_map. apply map_ext_in.
    intros j Hj. destruct (set_member_canon es j Hj) as (e & He & ->).
    rewrite List.Forall_forall in Hwf.
    rewrite decode_canon by (apply Hwf, He).
    rewrite entry_of_doc_canon. reflexivity.
  - apply List.Forall_forall. intros e _. apply encode_entry_val.
Qed.

Lemma survivors_sorted es d :
  In d (survivors es) -> exists e, In e es /\ d = sorted_by fst e.
Proof.
  unfold survivors. intros Hd.
  apply in_map_iff in Hd as (j & <- & Hj).
  destruct (set_member_canon es j Hj) as (e & He & ->).
  exists e. split; [exact He | apply entry_of_doc_canon].
Qed.

Lemma survivors_wf es : Forall dict_wf es -> Forall dict_wf (survivors es).
Proof.
  intros Hwf. apply List.Forall_forall. intros d Hd.
  destruct (survivors_sorted es d Hd) as (e & He & ->).
  rewrite List.Forall_forall in Hwf. apply sorted_by_wf, Hwf, He.
Qed.

Lemma survivors_length es : List.length (survivors es) <= List.length es.
Proof.
  unfold survivors. rewrite length_map.
  rewrite <- (length_map canon es).
  apply NoDup_incl_length; [apply set_ok|].
  intros j Hj. apply (proj1 (proj2 (set_ok _) _)), Hj.
Qed.

Lemma canon_survivors es : map canon (survivors es) = set_iter (map canon es).
Proof.
  unfold survivors. rewrite map_map.
  rewrite <- (map_id (set_iter (map canon es))) at 2.
  apply map_ext_in. intros j Hj.
  destruct (set_member_canon es j Hj) as (e & He & ->).
  rewrite entry_of_doc_canon. apply canon_sorted.
Qed.

Lemma survivors_distinct es d1 d2 :
  Forall dict_wf es ->
  In d1 (survivors es) -> In d2 (survivors es) -> same_fields d1 d2 -> d1 = d2.
Proof.
  intros Hwf H1 H2 Hsame.
  pose proof (survivors_wf es Hwf) as Hwfs. rewrite List.Forall_forall in Hwfs.
  apply (canon_same_fields d1 d2 (Hwfs d1 H1) (Hwfs d2 H2)) in Hsame.
  destruct (survivors_sorted es d1 H1) as (e1 & _ & ->).
  destruct (survivors_sorted es d2 H2) as (e2 & _ & ->).
  apply canon_inj in Hsame. rewrite !sorted_by_idem in Hsame. exact Hsame.
Qed.

Lemma survivors_NoDup es : List.NoDup (survivors es).
Proof.
  unfold survivors. apply NoDup_map_NoDup_ForallPairs; [|apply set_ok].
  intros j1 j2 H1 H2 Heq.
  destruct (set_member_canon es j1 H1) as (e1 & _ & ->).
  destruct (set_member_canon es j2 H2) as (e2 & _ & ->).
  rewrite !entry_of_doc_canon in Heq. unfold canon. rewrite Heq. reflexivity.
Qed.

Lemma survivors_again es : Permutation (survivors (survivors es)) (survivors es).
Proof.
  unfold survivors at 1. rewrite canon_survivors. unfold survivors.
  apply Permutation_map.
  apply Permutation.NoDup_Permutation;
    [apply (proj1 (set_ok _)) | apply (proj1 (set_ok _))
    | intros j; apply (proj2 (set_ok _))].
Qed.
End Deduplicate.

Lemma set_iter_forward_ok : set_contract set_iter_forward.
Proof.
  intros l. unfold set_iter_forward. split.
  - apply List.NoDup_nodup.
  - intros x. apply List.nodup_In.
Qed.

Lemma set_iter_backward_ok : set_contract set_iter_backward.
Proof.
  intros l. unfold set_iter_backward. split.
  - apply List.NoDup_rev, List.NoDup_nodup.
  - intros x. rewrite <- List.in_rev. apply List.nodup_In.
Qed.

(** C6, as stated, fails: the result of [timeline_deduplicate] is listed
    in the iteration order of a set, and deduplicating it again may list
    the same entries in another order; the two lists are then not equal. *)
Lemma dedupe_twice_reorders :
  set_contract set_iter_backward /\
  exists once twice,
    timeline_deduplicate set_iter_backward (map entry_val two_events) = Ok once /\
    timeline_deduplicate set_iter_backward once = Ok twice /\
    twice <> once.
Proof.
  split; [apply set_iter_backward_ok|].
  eexists _, _. split; [vm_compute; reflexivity|].
  split; [vm_compute; reflexivity|]. discriminate.
Qed.

(** C6, amended.  For every sequence of timeline entries (dicts without
    repeated keys whose values are strings or null) and every iteration
    order of sets, [timeline_deduplicate] returns a sequence that is no
    longer than its input and holds exactly one entry for each group of
    input entries that agree on every field (the timestamp included), in
    whatever order the fields were inserted; deduplicating the result
    again returns the same entries, possibly in another order. *)
Theorem timeline_deduplicate_spec set_iter (es : list entry) :
  set_contract set_iter ->
  Forall dict_wf es ->
  exists ds,
    timeline_deduplicate set_iter (map entry_val es) = Ok (map entry_val ds) /\
    List.length ds <= List.length es /\
    (forall a, In a es -> exists d, In d ds /\ same_fields a d) /\
    (forall d, In d ds -> exists a, In a es /\ same_fields a d) /\
    List.NoDup ds /\
    (forall d1 d2, In d1 ds -> In d2 ds -> same_fields d1 d2 -> d1 = d2) /\
    exists ds',
      timeline_deduplicate set_iter (map entry_val ds) = Ok (map entry_val ds') /\
      Permutation ds' ds.
Proof.
  intros Hset Hwf. exists (survivors set_iter es).
  pose proof Hwf as Hwf'. rewrite List.Forall_forall in Hwf'.
  split; [apply dedupe_entries; assumption|].
  split; [apply survivors_length; assumption|].
  split.
  { intros a Ha. exists (sorted_by fst a). split.
    - unfold survivors. apply in_map_iff. exists (canon a).
      split; [apply entry_of_doc_canon|].
      apply (proj2 (Hset _)). apply in_map. exact Ha.
    - apply sorted_same_fields, Hwf', Ha. }
  split.
  { intros d Hd. destruct (survivors_sorted set_iter Hset es d Hd) as (a & Ha & ->).
    exists a. split; [exact Ha | apply sorted_same_fields, Hwf', Ha]. }
  split; [apply survivors_NoDup; assumption|].
  split; [intros d1 d2; apply survivors_distinct; assumption|].
  exists (survivors set_iter (survivors set_iter es)).
  split; [apply dedupe_entries, survivors_wf; assumption|].
  apply survivors_again; assumption.
Qed.

Lemma timeline_deduplicate_spec_witness :
  exists ds,
    timeline_deduplicate set_iter_forward (map entry_val events_with_duplicate)
      = Ok (map entry_val ds) /\
    List.length ds <= List.length events_with_duplicate /\
    (forall a, In a events_with_duplicate -> exists d, In d ds /\ same_fields a d) /\
    (forall d, In d ds -> exists a, In a events_with_duplicate /\ same_fields a d) /\
    List.NoDup ds /\
    (forall d1 d2, In d1 ds -> In d2 ds -> same_fields d1 d2 -> d1 = d2) /\
    exists ds',
      timeline_deduplicate set_iter_forward (map entry_val ds) = Ok (map entry_val ds') /\
      Permutation ds' ds.
Proof.
  apply (timeline_deduplicate_spec set_iter_forward events_with_duplicate).
  - exact set_iter_forward_ok.
  - repeat (apply List.Forall_cons; [apply unique_keys_NoDup; reflexivity|]).
    apply List.Forall_nil.
Defined.

(** The three entries above, of which two agree on every field, leave two. *)
Example dedupe_collapses_shuffled_duplicate :
  timeline_deduplicate set_iter_forward (map entry_val events_with_duplicate)
  = Ok [entry_val (event_at_shuffled None "undated");
        entry_val (event_at_shuffled (Some "2023-01-01") "first")].
Proof. vm_compute. reflexivity. Qed.

Lemma save_timeline_sorted_append_witness :
  exists ordered w',
    save_timeline io_ok three_events "/out/timeline.csv" empty_world = (Ok tt, w') /\
    Permutation ordered three_events /\
    StronglySorted (key_le ts_key) ordered /\
    (forall before y after,
       ordered = before ++ y :: after -> entry_get "timestamp" y = None ->
       Forall (fun x => ts_key x = "") before) /\
    events w' = events empty_world ++ [Opened "/out/timeline.csv" "a+"] /\
    files w' !! "/out/timeline.csv" =
      Some (default [] (files empty_world !! "/out/timeline.csv")
            ++ Row timeline_header
               :: map (fun e => Row (timeline_row e)) ordered) /\
    (forall p, p <> "/out/timeline.csv" -> files w' !! p = files empty_world !! p).
Proof.
  apply (proj1 save_timeline_sorted_append io_ok three_events
           "/out/timeline.csv" empty_world).
  - reflexivity.
  - repeat constructor; discriminate.
Defined.

(** ** Whole runs *)

(** A run through all four stages: the two contacts yield the same
    record, of which the timeline keeps one; the results are persisted
    under the derived identity. *)
Example run_module_full_pipeline :
  let out := run_module set_iter_forward io_ok timeline_class
               (sample_module (Some "/out") seen_twice, empty_world) in
  fst out = Ok tt /\
  timeline (fst (snd out)) =
    [PDict [("data", PStr "Ada"); ("event", PStr "contact_added");
            ("module", PStr "ContactList"); ("timestamp", PStr "2021-07-18")]] /\
  events (snd (snd out)) =
    [Logged mvt_logger LInfo "Running module %s..." [PStr "ContactList"];
     Called Mrun;
     Called Mcheck_indicators;
     Logged mvt_logger LInfo
       "The %s module does not support checking for indicators"
       [PStr "ContactList"];
     Called Mto_timeline;
     Called Msave_to_json;
     Opened "/out/contact_list.json" "w"] /\
  files (snd (snd out)) !! "/out/contact_list.json" =
    Some [Doc (JArr [JObj [("name", JStr "Ada"); ("seen", JStr "2021-07-18")];
                     JInt 0;
                     JObj [("seen", JStr "2021-07-18"); ("name", JStr "Ada")]])].
Proof. vm_compute. repeat split. Qed.

(** The same run without an output folder reaches the last stage and
    leaves no file behind. *)
Example run_module_without_output_folder :
  let out := run_module set_iter_forward io_ok timeline_class
               (sample_module None seen_twice, empty_world) in
  fst out = Ok tt /\
  reaches_persisted (snd (snd out)) /\
  files (snd (snd out)) = ∅.
Proof.
  vm_compute. repeat split. do 5 right. left. reflexivity.
Qed.

(** The base class implements none of the steps: the runner logs that
    [run()] is missing and stops. *)
Example run_module_base_class :
  let out := run_module set_iter_forward io_ok MVTModule_class
               (sample_module (Some "/out") (PList []), empty_world) in
  fst out = Ok tt /\
  events (snd (snd out)) =
    [Logged mvt_logger LInfo "Running module %s..." [PStr "MVTModule"];
     Called Mrun;
     Logged mvt_logger LException
       "The run() procedure of module %s was not implemented yet!"
       [PStr "MVTModule"]].
Proof. vm_compute. repeat split. Qed.

(** * Further properties of the code *)

(** ** The runner: isolation of extraction failures *)

(** X1.  Whatever subclass of [Exception] [run()] raises, [run_module]
    returns normally: it hands one record to the logger (with
    [log.info] for missing privileges or a missing source, [log.error]
    for a corrupted source, [log.exception] otherwise), invokes no
    further method of the module and touches no file. *)
Theorem run_module_isolates_extraction_failure set_iter io cls m w lg e m1 lg1 :
  log m = Some lg ->
  run cls m = (Raise e, m1) ->
  log m1 = Some lg1 ->
  is_Exception e = true ->
  exists template args,
    run_module set_iter io cls (m, w) =
    (Ok tt,
     (m1, World (files w)
            (events w ++
             [Logged lg LInfo "Running module %s..." [PStr (class_name cls)];
              Called Mrun;
              Logged lg1 (extract_failure_level (exn_cls e)) template args]))).
Proof.
  intros Hlog Hrun Hlog1 Hexc.
  unfold is_Exception in Hexc.
  destruct (exn_cls e) eqn:Hcls; try discriminate Hexc;
    eexists _, _; eapply run_module_handled; eauto;
    rewrite Hcls; cbn; reflexivity.
Qed.

Lemma run_module_isolates_extraction_failure_witness :
  exists template args,
    run_module set_iter_forward io_ok
      (sample_class "Contacts" (Raise value_error) (Ok tt))
      (sample_module (Some "/out") (PList []), empty_world) =
    (Ok tt,
     (sample_module (Some "/out") (PList []),
      World (files empty_world)
        (events empty_world ++
         [Logged mvt_logger LInfo "Running module %s..."
            [PStr (class_name (sample_class "Contacts" (Raise value_error) (Ok tt)))];
          Called Mrun;
          Logged mvt_logger (extract_failure_level (exn_cls value_error))
            template args]))).
Proof.
  apply (run_module_isolates_extraction_failure set_iter_forward io_ok
           (sample_class "Contacts" (Raise value_error) (Ok tt))
           (sample_module (Some "/out") (PList [])) empty_world
           mvt_logger value_error (sample_module (Some "/out") (PList []))
           mvt_logger); reflexivity.
Defined.

(** X2.  An exception of [run()] that does not derive from [Exception]
    (a [KeyboardInterrupt]) passes every [except] clause: it leaves
    [run_module], nothing is logged about it and no further method is
    invoked. *)
Theorem run_module_lets_base_exception_pass set_iter io cls m w lg e m1 :
  log m = Some lg ->
  run cls m = (Raise e, m1) ->
  is_Exception e = false ->
  run_module set_iter io cls (m, w) =
  (Raise e,
   (m1, World (files w)
          (events w ++
           [Logged lg LInfo "Running module %s..." [PStr (class_name cls)];
            Called Mrun]))).
Proof.
  intros Hlog Hrun Hexc. run_steps.
  rewrite Hlog. run_steps. rewrite Hrun. run_steps.
  unfold is_Exception in *.
  destruct (exn_cls e); try discriminate Hexc.
  cbn. rewrite <- !app_assoc. reflexivity.
Qed.

Lemma run_module_lets_base_exception_pass_witness :
  run_module set_iter_forward io_ok
    (sample_class "Contacts" (Raise (Exn KeyboardInterrupt "")) (Ok tt))
    (sample_module (Some "/out") (PList []), empty_world) =
  (Raise (Exn KeyboardInterrupt ""),
   (sample_module (Some "/out") (PList []),
    World (files empty_world)
      (events empty_world ++
       [Logged mvt_logger LInfo "Running module %s..."
          [PStr (class_name
                   (sample_class "Contacts" (Raise (Exn KeyboardInterrupt "")) (Ok tt)))];
        Called Mrun]))).
Proof.
  apply (run_module_lets_base_exception_pass set_iter_forward io_ok
           (sample_class "Contacts" (Raise (Exn KeyboardInterrupt "")) (Ok tt))
           (sample_module (Some "/out") (PList [])) empty_world
           mvt_logger (Exn KeyboardInterrupt "")
           (sample_module (Some "/out") (PList []))); reflexivity.
Defined.

(** X3.  A module without a logger cannot be run: the first statement of
    [run_module] raises [AttributeError] before [run()] is invoked, and
    the module and the world stay as they were. *)
Theorem run_module_needs_a_logger set_iter io cls m w :
  log m = None ->
  exists msg,
    run_module set_iter io cls (m, w) = (Raise (Exn AttributeError msg), (m, w)).
Proof.
  intros Hlog. eexists. run_steps. rewrite Hlog. run_steps.
  destruct w. reflexivity.
Qed.

Lemma run_module_needs_a_logger_witness :
  exists msg,
    run_module set_iter_forward io_ok contacts_class
      (init None None (Some "/out") false None (PList []), empty_world)
    = (Raise (Exn AttributeError msg),
       (init None None (Some "/out") false None (PList []), empty_world)).
Proof.
  apply (run_module_needs_a_logger set_iter_forward io_ok contacts_class
           (init None None (Some "/out") false None (PList [])) empty_world).
  reflexivity.
Defined.


(** ** Building the timeline *)

Lemma set_timelines_fields t td m :
  timeline (set_timelines t td m) = t /\
  timeline_detected (set_timelines t td m) = td /\
  results (set_timelines t td m) = results m /\
  detected (set_timelines t td m) = detected m /\
  output_folder (set_timelines t td m) = output_folder m /\
  log (set_timelines t td m) = log m /\
  indicators (set_timelines t td m) = indicators m.
Proof. repeat split. Qed.

Lemma set_timelines_twice t td t' td' m :
  set_timelines t td (set_timelines t' td' m) = set_timelines t td m.
Proof. reflexivity. Qed.

Lemma set_timelines_same m :
  set_timelines (timeline m) (timeline_detected m) m = m.
Proof. destruct m. reflexivity. Qed.

Ltac timeline_steps :=
  cbv beta iota zeta delta
    [to_timeline bind get_module lift_result update_timeline on_module ret
     raise fst snd].

(** [to_timeline] as a function of the module alone: it never looks at
    the world nor changes it. *)
Lemma to_timeline_pure set_iter cls m :
  exists r m',
    (forall w, to_timeline set_iter cls (m, w) = (r, (m', w))) /\
    without_timelines m' = without_timelines m.
Proof.
  timeline_steps.
  destruct (py_iter (results m)) as [entries|e].
  2:{ exists (Raise e), m. split; [intros w; reflexivity | reflexivity]. }
  timeline_steps.
  destruct (gather (serialize cls) entries (timeline m)) as [[[]|e] t1].
  2:{ eexists _, _. split; [intros w; reflexivity | reflexivity]. }
  timeline_steps.
  match goal with
  | |- context [gather ?s ?d ?a] => destruct (gather s d a) as [[[]|e] td1]
  end.
  2:{ eexists _, _. split; [intros w; reflexivity | reflexivity]. }
  timeline_steps.
  match goal with
  | |- context [timeline_deduplicate ?s ?a] =>
      destruct (timeline_deduplicate s a) as [t2|e]
  end.
  2:{ eexists _, _. split; [intros w; reflexivity | reflexivity]. }
  timeline_steps.
  match goal with
  | |- context [timeline_deduplicate ?s ?a] =>
      destruct (timeline_deduplicate s a) as [td2|e]
  end.
  2:{ eexists _, _. split; [intros w; reflexivity | reflexivity]. }
  timeline_steps.
  eexists _, _. split; [intros w; reflexivity | reflexivity].
Qed.

(** X4.  [to_timeline] changes the two timelines and nothing else: the
    results, the detections, the configuration of the module, the files
    and the event trace are as before, whether it returns or raises. *)
Theorem to_timeline_changes_timelines_only set_iter cls m w :
  exists r m',
    to_timeline set_iter cls (m, w) = (r, (m', w)) /\
    results m' = results m /\
    detected m' = detected m /\
    output_folder m' = output_folder m /\
    log m' = log m /\
    indicators m' = indicators m /\
    file_path m' = file_path m /\
    base_folder m' = base_folder m /\
    fast_mode m' = fast_mode m.
Proof.
  destruct (to_timeline_pure set_iter cls m) as (r & m' & Hrun & Hsame).
  exists r, m'. split; [apply Hrun|].
  unfold without_timelines, set_timelines in Hsame.
  injection Hsame as -> -> -> -> -> -> -> ->. repeat split.
Qed.

(** The loop of [to_timeline] over entries that all serialize: the
    records of the entries, in order, after what was there. *)
Lemma gather_all ser entries acc :
  Forall (fun entry => exists record, ser entry = Ok record) entries ->
  gather ser entries acc =
    (Ok tt,
     acc ++ flat_map (fun entry =>
                        match ser entry with
                        | Ok record => records_of record
                        | Raise _ => []
                        end) entries).
Proof.
  intros Hall. revert acc.
  induction Hall as [|entry entries [record Hrec] _ IH]; intros acc; cbn.
  - rewrite app_nil_r. reflexivity.
  - rewrite Hrec. rewrite IH. unfold records_of.
    destruct (truthy record).
    + destruct record; rewrite <- app_assoc; reflexivity.
    + reflexivity.
Qed.

(** The loop stops at the first entry that fails to serialize and keeps
    the records gathered before it. *)
Lemma gather_stops ser before entry after acc e :
  Forall (fun x => exists record, ser x = Ok record) before ->
  ser entry = Raise e ->
  gather ser (before ++ entry :: after) acc =
    (Raise e,
     acc ++ flat_map (fun x =>
                        match ser x with
                        | Ok record => records_of record
                        | Raise _ => []
                        end) before).
Proof.
  intros Hall Hfail. revert acc.
  induction Hall as [|x before [record Hrec] _ IH]; intros acc; cbn.
  - rewrite Hfail, app_nil_r. reflexivity.
  - rewrite Hrec. rewrite IH. unfold records_of.
    destruct (truthy record).
    + destruct record; rewrite <- app_assoc; reflexivity.
    + reflexivity.
Qed.

(** X5.  When every entry of [results] and of [detected] serializes and
    the records are JSON-encodable, [to_timeline] sets [timeline] to the
    deduplicated sequence of what it held before followed by the records
    of the results in order (a record that is false adds nothing, a list
    of records is spliced in), and [timeline_detected] likewise from the
    detections. *)
Theorem to_timeline_gathers_and_deduplicates set_iter cls m w entries t td :
  py_iter (results m) = Ok entries ->
  Forall (fun x => exists record, serialize cls x = Ok record) entries ->
  Forall (fun x => exists record, serialize cls x = Ok record) (detected m) ->
  timeline_deduplicate set_iter
    (timeline m ++
     flat_map (fun x => match serialize cls x with
                        | Ok record => records_of record
                        | Raise _ => []
                        end) entries) = Ok t ->
  timeline_deduplicate set_iter
    (timeline_detected m ++
     flat_map (fun x => match serialize cls x with
                        | Ok record => records_of record
                        | Raise _ => []
                        end) (detected m)) = Ok td ->
  to_timeline set_iter cls (m, w) = (Ok tt, (set_timelines t td m, w)).
Proof.
  intros Hiter Hres Hdet Ht Htd. timeline_steps.
  rewrite Hiter. timeline_steps.
  rewrite (gather_all _ _ _ Hres). timeline_steps.
  cbn [detected timeline_detected timeline set_timelines].
  rewrite (gather_all _ _ _ Hdet). timeline_steps.
  cbn [detected timeline_detected timeline set_timelines].
  rewrite Ht. timeline_steps.
  cbn [detected timeline_detected timeline set_timelines].
  rewrite Htd. timeline_steps.
  cbn [detected timeline_detected timeline set_timelines file_path base_folder
       output_folder fast_mode log indicators results].
  reflexivity.
Qed.

Lemma to_timeline_gathers_and_deduplicates_witness :
  to_timeline set_iter_forward timeline_class
    (sample_module (Some "/out") seen_twice, empty_world)
  = (Ok tt,
     (set_timelines
        [PDict [("data", PStr "Ada"); ("event", PStr "contact_added");
                ("module", PStr "ContactList"); ("timestamp", PStr "2021-07-18")]]
        [] (sample_module (Some "/out") seen_twice),
      empty_world)).
Proof.
  apply (to_timeline_gathers_and_deduplicates set_iter_forward timeline_class
           (sample_module (Some "/out") seen_twice) empty_world
           [PDict [("name", PStr "Ada"); ("seen", PStr "2021-07-18")];
            PInt 0;
            PDict [("seen", PStr "2021-07-18"); ("name", PStr "Ada")]]).
  - reflexivity.
  - repeat (apply List.Forall_cons; [eexists; reflexivity|]). apply List.Forall_nil.
  - apply List.Forall_nil.
  - vm_compute. reflexivity.
  - vm_compute. reflexivity.
Defined.

(** X6.  When [serialize] raises on an entry of [results], [to_timeline]
    raises the same exception at once: the records of the entries before
    it stay in [timeline], not deduplicated, and [timeline_detected] is
    not touched. *)
Theorem to_timeline_stops_at_failing_entry set_iter cls m w before entry after e :
  py_iter (results m) = Ok (before ++ entry :: after) ->
  Forall (fun x => exists record, serialize cls x = Ok record) before ->
  serialize cls entry = Raise e ->
  to_timeline set_iter cls (m, w) =
    (Raise e,
     (set_timelines
        (timeline m ++
         flat_map (fun x => match serialize cls x with
                            | Ok record => records_of record
                            | Raise _ => []
                            end) before)
        (timeline_detected m) m,
      w)).
Proof.
  intros Hiter Hbefore Hfail. timeline_steps.
  rewrite Hiter. timeline_steps.
  rewrite (gather_stops _ _ _ _ _ _ Hbefore Hfail). reflexivity.
Qed.

Lemma to_timeline_stops_at_failing_entry_witness :
  to_timeline set_iter_forward MVTModule_class (contacts_module, empty_world) =
    (Raise not_implemented,
     (set_timelines
        (timeline contacts_module ++
         flat_map (fun x => match serialize MVTModule_class x with
                            | Ok record => records_of record
                            | Raise _ => []
                            end) [])
        (timeline_detected contacts_module) contacts_module,
      empty_world)).
Proof.
  apply (to_timeline_stops_at_failing_entry set_iter_forward MVTModule_class
           contacts_module empty_world [] (PDict [("name", PStr "Ada")]) []
           not_implemented).
  - reflexivity.
  - apply List.Forall_nil.
  - reflexivity.
Defined.

(** ** The runner: the stages after a successful extraction *)

(** X7.  When [run()] returns and [check_indicators()] raises
    [NotImplementedError], the runner logs that with [log.info] and goes
    on with the timeline and persist stages, as after a check that
    succeeded. *)
Theorem run_module_skips_missing_check set_iter io cls m w lg m1 e m2 lg2 :
  log m = Some lg ->
  run cls m = (Ok tt, m1) ->
  check_indicators cls m1 = (Raise e, m2) ->
  exn_cls e = NotImplementedError ->
  log m2 = Some lg2 ->
  run_module set_iter io cls (m, w) =
  timeline_then_persist set_iter io cls
    (m2, World (files w)
           (events w ++
            [Logged lg LInfo "Running module %s..." [PStr (class_name cls)];
             Called Mrun;
             Called Mcheck_indicators;
             Logged lg2 LInfo
               "The %s module does not support checking for indicators"
               [PStr (class_name cls)]])).
Proof.
  intros Hlog Hrun Hcheck Hcls Hlog2.
  unfold timeline_then_persist. run_steps.
  rewrite Hlog. run_steps. rewrite Hrun. run_steps. rewrite Hcheck. run_steps.
  rewrite Hcls. run_steps. rewrite Hlog2. run_steps.
  cbn [files events]. rewrite <- !app_assoc. reflexivity.
Qed.

(** X8.  After a [check_indicators()] that returned, the runner logs
    that the module produced no detections exactly when indicators are
    loaded and [detected] is empty; without indicators, or with a
    detection, nothing is logged.  Either way it goes on with the
    timeline and persist stages. *)
Theorem run_module_reports_no_detections set_iter io cls m w lg m1 m2 lg2 :
  log m = Some lg ->
  run cls m = (Ok tt, m1) ->
  check_indicators cls m1 = (Ok tt, m2) ->
  log m2 = Some lg2 ->
  run_module set_iter io cls (m, w) =
  timeline_then_persist set_iter io cls
    (m2, World (files w)
           (events w ++
            [Logged lg LInfo "Running module %s..." [PStr (class_name cls)];
             Called Mrun;
             Called Mcheck_indicators] ++
            match indicators m2, detected m2 with
            | Some _, [] =>
                [Logged lg2 LInfo "The %s module produced no detections!"
                   [PStr (class_name cls)]]
            | _, _ => []
            end)).
Proof.
  intros Hlog Hrun Hcheck Hlog2.
  unfold timeline_then_persist. run_steps.
  rewrite Hlog. run_steps. rewrite Hrun. run_steps. rewrite Hcheck. run_steps.
  destruct (indicators m2) as [ioc|]; [destruct (detected m2) as [|d ds]|];
    run_steps; try rewrite Hlog2; run_steps; cbn [files events];
    rewrite <- ?app_assoc; cbn [app]; rewrite ?app_nil_r; reflexivity.
Qed.

Lemma run_module_skips_missing_check_witness :
  run_module set_iter_forward io_ok timeline_class
    (sample_module (Some "/out") seen_twice, empty_world) =
  timeline_then_persist set_iter_forward io_ok timeline_class
    (sample_module (Some "/out") seen_twice,
     World (files empty_world)
       (events empty_world ++
        [Logged mvt_logger LInfo "Running module %s..."
           [PStr (class_name timeline_class)];
         Called Mrun;
         Called Mcheck_indicators;
         Logged mvt_logger LInfo
           "The %s module does not support checking for indicators"
           [PStr (class_name timeline_class)]])).
Proof.
  apply (run_module_skips_missing_check set_iter_forward io_ok timeline_class
           (sample_module (Some "/out") seen_twice) empty_world mvt_logger
           (sample_module (Some "/out") seen_twice) not_implemented
           (sample_module (Some "/out") seen_twice) mvt_logger); reflexivity.
Defined.

Lemma run_module_reports_no_detections_witness :
  run_module set_iter_forward io_ok contacts_class
    (load_indicators "iocs.stix2" (sample_module None (PList [])), empty_world) =
  timeline_then_persist set_iter_forward io_ok contacts_class
    (load_indicators "iocs.stix2" (sample_module None (PList [])),
     World (files empty_world)
       (events empty_world ++
        [Logged mvt_logger LInfo "Running module %s..."
           [PStr (class_name contacts_class)];
         Called Mrun;
         Called Mcheck_indicators] ++
        match indicators (load_indicators "iocs.stix2" (sample_module None (PList []))),
              detected (load_indicators "iocs.stix2" (sample_module None (PList []))) with
        | Some _, [] =>
            [Logged mvt_logger LInfo "The %s module produced no detections!"
               [PStr (class_name contacts_class)]]
        | _, _ => []
        end)).
Proof.
  apply (run_module_reports_no_detections set_iter_forward io_ok contacts_class
           (load_indicators "iocs.stix2" (sample_module None (PList [])))
           empty_world mvt_logger
           (load_indicators "iocs.stix2" (sample_module None (PList [])))
           (load_indicators "iocs.stix2" (sample_module None (PList [])))
           mvt_logger); reflexivity.
Defined.

Ltac persist_steps :=
  cbv beta iota zeta delta
    [timeline_then_persist try_except bind call in_world emit ret raise fst snd].

(** X9.  When [to_timeline()] raises anything but [NotImplementedError]
    (a [TypeError] of the deduplication, an exception of [serialize]),
    the exception leaves the runner and [save_to_json] is not invoked:
    the results of the run are not persisted. *)
Theorem timeline_failure_skips_persist set_iter io cls m w e m' :
  to_timeline set_iter cls (m, w) = (Raise e, (m', w)) ->
  exn_cls e <> NotImplementedError ->
  timeline_then_persist set_iter io cls (m, w) =
    (Raise e, (m', World (files w) (events w ++ [Called Mto_timeline]))).
Proof.
  intros Hrun Hcls.
  destruct (to_timeline_pure set_iter cls m) as (r0 & m0 & Hpure & _).
  rewrite Hpure in Hrun. injection Hrun as -> ->.
  persist_steps. rewrite Hpure.
  destruct (exn_cls e); try contradiction; reflexivity.
Qed.

(** X10.  When [to_timeline()] returns, or raises [NotImplementedError]
    (the module has no [serialize]), the runner goes on and invokes
    [save_to_json] on the module as [to_timeline] left it. *)
Theorem timeline_stage_leads_to_persist set_iter io cls m w r m' :
  to_timeline set_iter cls (m, w) = (r, (m', w)) ->
  (r = Ok tt \/ exists e, r = Raise e /\ exn_cls e = NotImplementedError) ->
  timeline_then_persist set_iter io cls (m, w) =
    save_to_json io cls
      (m', World (files w) (events w ++ [Called Mto_timeline; Called Msave_to_json])).
Proof.
  intros Hrun Hr.
  destruct (to_timeline_pure set_iter cls m) as (r0 & m0 & Hpure & _).
  rewrite Hpure in Hrun. injection Hrun as -> ->.
  persist_steps. rewrite Hpure.
  destruct Hr as [-> | (e & -> & Hcls)].
  - cbn [files events]. rewrite <- app_assoc. reflexivity.
  - rewrite Hcls. cbn [files events]. rewrite <- app_assoc. reflexivity.
Qed.

Lemma timeline_failure_skips_persist_witness :
  timeline_then_persist set_iter_forward io_ok dated_class
    (sample_module (Some "/out") (PList [PInt 1]), empty_world) =
  (Raise type_error,
   (set_timelines
      [PDict [("timestamp", PObj "2021-07-18 10:00:00" true);
              ("module", PStr "Calls");
              ("event", PStr "call");
              ("data", PStr "incoming")]]
      [] (sample_module (Some "/out") (PList [PInt 1])),
    World (files empty_world) (events empty_world ++ [Called Mto_timeline]))).
Proof.
  apply (timeline_failure_skips_persist set_iter_forward io_ok dated_class
           (sample_module (Some "/out") (PList [PInt 1])) empty_world type_error).
  - vm_compute. reflexivity.
  - discriminate.
Defined.

Lemma timeline_stage_leads_to_persist_witness :
  timeline_then_persist set_iter_forward io_ok MVTModule_class
    (contacts_module, empty_world) =
  save_to_json io_ok MVTModule_class
    (contacts_module,
     World (files empty_world)
       (events empty_world ++ [Called Mto_timeline; Called Msave_to_json])).
Proof.
  apply (timeline_stage_leads_to_persist set_iter_forward io_ok MVTModule_class
           contacts_module empty_world (Raise not_implemented) contacts_module).
  - reflexivity.
  - right. exists not_implemented. split; reflexivity.
Defined.


(** ** Persisting on a healthy and on a failing disk *)

Lemma sequence_all_ok {A} (l : list (result A)) :
  Forall (fun r => exists a, r = Ok a) l -> exists l', sequence l = Ok l'.
Proof.
  induction 1 as [|r l [a ->] _ [l' IH]]; cbn.
  - eexists. reflexivity.
  - rewrite IH. eexists. reflexivity.
Qed.

(** With [default=str] the encoder has a rule for every value. *)
Lemma encode_default_total sort_keys v : exists j, encode sort_keys true v = Ok j.
Proof.
  induction v as [| | | |l IH|l IH|d IH|] using pyval_nested_ind; cbn;
    try (eexists; reflexivity).
  - destruct (sequence_all_ok (map (encode sort_keys true) l)) as [js Hjs].
    { apply List.Forall_map. exact IH. }
    rewrite Hjs. eexists. reflexivity.
  - destruct (sequence_all_ok (map (encode sort_keys true) l)) as [js Hjs].
    { apply List.Forall_map. exact IH. }
    rewrite Hjs. eexists. reflexivity.
  - destruct (sequence_all_ok
                (map (fun kv => result_map (pair (fst kv))
                                           (encode sort_keys true (snd kv))) d))
      as [ms Hms].
    { apply List.Forall_map. eapply List.Forall_impl; [|exact IH].
      intros kv [j Hj]. rewrite Hj. eexists. reflexivity. }
    rewrite Hms. eexists. reflexivity.
Qed.

(** Opening a file for writing, dumping a document into it and closing
    it. *)
Lemma write_stage_ok io path v m w j :
  open_error io path "w" = None ->
  dump_error io path = None ->
  close_error io path = None ->
  encode false true v = Ok j ->
  with_open io path "w" (in_world (json_dump io path v)) (m, w) =
    (Ok tt, (m, World (<[path := [Doc j]]> (files w)) (events w ++ [Opened path "w"]))).
Proof.
  intros Hopen Hdump Hclose Henc.
  erewrite with_open_write
    by (try exact Hopen; apply in_world_eq, json_dump_eq).
  rewrite Hclose. unfold dump_outcome. rewrite Hdump, Henc. cbn.
  rewrite lookup_insert_eq, insert_insert_eq. reflexivity.
Qed.

Lemma guarded_write_stage_ok io path v m w j handler :
  open_error io path "w" = None ->
  dump_error io path = None ->
  close_error io path = None ->
  encode false true v = Ok j ->
  with_open io path "w" (try_except (in_world (json_dump io path v)) handler) (m, w) =
    (Ok tt, (m, World (<[path := [Doc j]]> (files w)) (events w ++ [Opened path "w"]))).
Proof.
  intros Hopen Hdump Hclose Henc.
  erewrite with_open_write; [rewrite Hclose; reflexivity | exact Hopen |].
  apply try_except_ok.
  erewrite in_world_eq by apply json_dump_eq.
  unfold dump_outcome. rewrite Hdump, Henc. cbn.
  rewrite lookup_insert_eq, insert_insert_eq. reflexivity.
Qed.

(** What [save_to_json] does on a disk without failures. *)
Lemma save_to_json_healthy io cls m w folder :
  (forall p, open_error io p "w" = None) ->
  (forall p, dump_error io p = None) ->
  (forall p, close_error io p = None) ->
  output_folder m = Some folder -> folder <> "" ->
  exists jr jd,
    encode false true (results m) = Ok jr /\
    encode false true (PList (detected m)) = Ok jd /\
    save_to_json io cls (m, w) =
      (Ok tt,
       (m,
        World
          (let after_results :=
             if truthy (results m)
             then <[path_join folder (String.append (get_slug cls) ".json")
                    := [Doc jr]]> (files w)
             else files w in
           if truthy (PList (detected m))
           then <[path_join folder (String.append (get_slug cls) "_detected.json")
                  := [Doc jd]]> after_results
           else after_results)
          (events w
           ++ (if truthy (results m)
               then [Opened (path_join folder (String.append (get_slug cls) ".json")) "w"]
               else [])
           ++ (if truthy (PList (detected m))
               then [Opened (path_join folder
                               (String.append (get_slug cls) "_detected.json")) "w"]
               else [])))).
Proof.
  intros Hopen Hdump Hclose Hout Hfolder.
  destruct (encode_default_total false (results m)) as [jr Hjr].
  destruct (encode_default_total false (PList (detected m))) as [jd Hjd].
  exists jr, jd. split; [exact Hjr|]. split; [exact Hjd|].
  unfold save_to_json. unfold bind at 1. unfold get_module at 1. cbn [fst].
  rewrite Hout. destruct (String.eqb_spec folder "") as [|_]; [contradiction|].
  destruct (truthy (results m)).
  - erewrite bind_ok
      by (apply guarded_write_stage_ok;
          [apply Hopen | apply Hdump | apply Hclose | exact Hjr]).
    destruct (truthy (PList (detected m))).
    + erewrite write_stage_ok
        by (try apply Hopen; try apply Hdump; try apply Hclose; exact Hjd).
      cbn [files events]. rewrite <- app_assoc. reflexivity.
    + cbn. rewrite ?app_nil_r. reflexivity.
  - erewrite bind_ok by reflexivity.
    destruct (truthy (PList (detected m))).
    + erewrite write_stage_ok
        by (try apply Hopen; try apply Hdump; try apply Hclose; exact Hjd).
      cbn. destruct w; reflexivity.
    + cbn. rewrite ?app_nil_r. destruct w; reflexivity.
Qed.

(** X11.  On a disk without failures (every file can be opened, written
    and closed) [save_to_json] never raises, and what it does is fixed by
    the module: the results file [<folder>/<slug>.json] is opened and
    overwritten with the document of [results] exactly when [results] is
    true, the detections file [<folder>/<slug>_detected.json] with the
    document of [detected] exactly when [detected] is not empty; no other
    file is touched, nothing is logged, and the module is unchanged. *)
Theorem save_to_json_on_healthy_disk io cls m w folder :
  (forall p, open_error io p "w" = None) ->
  (forall p, dump_error io p = None) ->
  (forall p, close_error io p = None) ->
  output_folder m = Some folder -> folder <> "" ->
  exists jr jd,
    encode false true (results m) = Ok jr /\
    encode false true (PList (detected m)) = Ok jd /\
    save_to_json io cls (m, w) =
      (Ok tt,
       (m,
        World
          (let after_results :=
             if truthy (results m)
             then <[path_join folder (String.append (get_slug cls) ".json")
                    := [Doc jr]]> (files w)
             else files w in
           if truthy (PList (detected m))
           then <[path_join folder (String.append (get_slug cls) "_detected.json")
                  := [Doc jd]]> after_results
           else after_results)
          (events w
           ++ (if truthy (results m)
               then [Opened (path_join folder (String.append (get_slug cls) ".json")) "w"]
               else [])
           ++ (if truthy (PList (detected m))
               then [Opened (path_join folder
                               (String.append (get_slug cls) "_detected.json")) "w"]
               else [])))).
Proof.
  intros Hopen Hdump Hclose Hout Hfolder.
  apply save_to_json_healthy; assumption.
Qed.

Lemma save_to_json_on_healthy_disk_witness :
  exists jr jd,
    encode false true (results contacts_module) = Ok jr /\
    encode false true (PList (detected contacts_module)) = Ok jd /\
    save_to_json io_ok contacts_class (contacts_module, empty_world) =
      (Ok tt,
       (contacts_module,
        World
          (let after_results :=
             if truthy (results contacts_module)
             then <[path_join "/out" (String.append (get_slug contacts_class) ".json")
                    := [Doc jr]]> (files empty_world)
             else files empty_world in
           if truthy (PList (detected contacts_module))
           then <[path_join "/out"
                    (String.append (get_slug contacts_class) "_detected.json")
                  := [Doc jd]]> after_results
           else after_results)
          (events empty_world
           ++ (if truthy (results contacts_module)
               then [Opened (path_join "/out"
                               (String.append (get_slug contacts_class) ".json")) "w"]
               else [])
           ++ (if truthy (PList (detected contacts_module))
               then [Opened (path_join "/out"
                               (String.append (get_slug contacts_class)
                                              "_detected.json")) "w"]
               else [])))).
Proof.
  apply (save_to_json_on_healthy_disk io_ok contacts_class contacts_module
           empty_world "/out").
  - intros p. reflexivity.
  - intros p. reflexivity.
  - intros p. reflexivity.
  - reflexivity.
  - discriminate.
Defined.

(** X12.  Persisting is repeatable: on a disk without failures a second
    [save_to_json] of the same module leaves exactly the files of the
    first (each file is opened with mode [w] and overwritten, never
    appended to). *)
Theorem save_to_json_twice io cls m w folder :
  (forall p, open_error io p "w" = None) ->
  (forall p, dump_error io p = None) ->
  (forall p, close_error io p = None) ->
  output_folder m = Some folder -> folder <> "" ->
  exists w1 w2,
    save_to_json io cls (m, w) = (Ok tt, (m, w1)) /\
    save_to_json io cls (m, w1) = (Ok tt, (m, w2)) /\
    files w2 = files w1.
Proof.
  intros Hopen Hdump Hclose Hout Hfolder.
  destruct (save_to_json_healthy io cls m w folder Hopen Hdump Hclose Hout Hfolder)
    as (jr & jd & Hjr & Hjd & H1).
  match type of H1 with
  | _ = (_, (_, ?x)) => remember x as w1 eqn:Hw1
  end.
  destruct (save_to_json_healthy io cls m w1 folder Hopen Hdump Hclose Hout Hfolder)
    as (jr' & jd' & Hjr' & Hjd' & H2).
  rewrite Hjr in Hjr'. rewrite Hjd in Hjd'.
  injection Hjr' as <-. injection Hjd' as <-.
  eexists w1, _. split; [exact H1|]. split; [exact H2|].
  pose proof (results_path_is_not_detected_path folder (get_slug cls)) as Hne.
  subst w1. cbn [files].
  destruct (truthy (results m)); destruct (truthy (PList (detected m))); cbn zeta.
  - rewrite (insert_insert_ne _ _ _ [Doc jr] [Doc jd]) by exact Hne.
    rewrite !insert_insert_eq. reflexivity.
  - apply insert_insert_eq.
  - apply insert_insert_eq.
  - reflexivity.
Qed.

Lemma save_to_json_twice_witness :
  exists w1 w2,
    save_to_json io_ok contacts_class (contacts_module, empty_world)
      = (Ok tt, (contacts_module, w1)) /\
    save_to_json io_ok contacts_class (contacts_module, w1)
      = (Ok tt, (contacts_module, w2)) /\
    files w2 = files w1.
Proof.
  apply (save_to_json_twice io_ok contacts_class contacts_module
           empty_world "/out").
  - intros p. reflexivity.
  - intros p. reflexivity.
  - intros p. reflexivity.
  - reflexivity.
  - discriminate.
Defined.

Lemma try_except_handled {S A} (body : M S A) handler s e s' h :
  body s = (Raise e, s') -> handler e = Some h ->
  try_except body handler s = h s'.
Proof. unfold try_except. intros -> ->. reflexivity. Qed.

Lemma module_log_eq lvl template args m w lg :
  log m = Some lg ->
  module_log lvl template args (m, w) =
    (Ok tt, (m, World (files w) (events w ++ [Logged lg lvl template args]))).
Proof.
  intros Hlog. unfold module_log, bind, get_module, in_world, log_to. cbn.
  rewrite Hlog. reflexivity.
Qed.

Lemma module_log_without_logger lvl template args m w :
  log m = None ->
  exists msg,
    module_log lvl template args (m, w) = (Raise (Exn AttributeError msg), (m, w)).
Proof.
  intros Hlog. unfold module_log, bind, get_module, in_world, log_to. cbn.
  rewrite Hlog. eexists. destruct w. reflexivity.
Qed.

(** The guarded dump of the results, when [json.dump] fails with an
    exception the handler catches and the module has a logger. *)
Lemma guarded_dump_fails_logged io cls path name v m w e lg :
  log m = Some lg ->
  dump_error io path = Some e ->
  is_Exception e = true ->
  try_except (in_world (json_dump io path v))
    (fun e =>
       if is_Exception e then
         Some (module_log LError
                 "Unable to store results of module %s to file %s: %s"
                 [PStr (class_name cls); PStr name; PStr (exn_msg e)])
       else None)
    (m, World (<[path := []]> (files w)) (events w ++ [Opened path "w"])) =
  (Ok tt,
   (m, World (<[path := [Partial]]> (files w))
             (events w ++
              [Opened path "w";
               Logged lg LError
                 "Unable to store results of module %s to file %s: %s"
                 [PStr (class_name cls); PStr name; PStr (exn_msg e)]]))).
Proof.
  intros Hlog Hdump Hexc. unfold try_except.
  erewrite in_world_eq by apply json_dump_eq.
  unfold dump_outcome. rewrite Hdump. cbn [fst snd]. rewrite Hexc.
  rewrite (module_log_eq _ _ _ _ _ lg Hlog). cbn [files events].
  rewrite lookup_insert_eq, insert_insert_eq. cbn.
  rewrite <- app_assoc. reflexivity.
Qed.

(** What [save_to_json] does when the dump of the results fails: the
    failure is logged; then the close of the results file decides. *)
Lemma save_to_json_after_failed_dump io cls m w folder e lg :
  output_folder m = Some folder -> folder <> "" ->
  truthy (results m) = true ->
  log m = Some lg ->
  open_error io (path_join folder (String.append (get_slug cls) ".json")) "w" = None ->
  dump_error io (path_join folder (String.append (get_slug cls) ".json")) = Some e ->
  is_Exception e = true ->
  save_to_json io cls (m, w) =
    match close_error io (path_join folder (String.append (get_slug cls) ".json")) with
    | None =>
        if truthy (PList (detected m)) then
          with_open io
            (path_join folder (String.append (get_slug cls) "_detected.json")) "w"
            (in_world (json_dump io
                         (path_join folder
                            (String.append (get_slug cls) "_detected.json"))
                         (PList (detected m))))
        else ret tt
    | Some e' => raise e'
    end
      (m,
       World (<[path_join folder (String.append (get_slug cls) ".json") := [Partial]]>
                (files w))
             (events w ++
              [Opened (path_join folder (String.append (get_slug cls) ".json")) "w";
               Logged lg LError
                 "Unable to store results of module %s to file %s: %s"
                 [PStr (class_name cls);
                  PStr (String.append (get_slug cls) ".json");
                  PStr (exn_msg e)]])).
Proof.
  intros Hout Hfolder Hres Hlog Hopen Hdump Hexc.
  unfold save_to_json. unfold bind at 1. unfold get_module at 1. cbn [fst].
  rewrite Hout. destruct (String.eqb_spec folder "") as [|_]; [contradiction|].
  rewrite Hres.
  destruct (close_error io (path_join folder (String.append (get_slug cls) ".json")))
    as [e'|] eqn:Hclose.
  - apply bind_raise.
    erewrite with_open_write;
      [| exact Hopen
       | apply guarded_dump_fails_logged; [exact Hlog | exact Hdump | exact Hexc]].
    rewrite Hclose. cbn [files events]. rewrite insert_insert_eq. reflexivity.
  - erewrite bind_ok; [reflexivity|].
    erewrite with_open_write;
      [| exact Hopen
       | apply guarded_dump_fails_logged; [exact Hlog | exact Hdump | exact Hexc]].
    rewrite Hclose. reflexivity.
Qed.

(** X13.  A failure of [json.dump] on the results file that derives from
    [Exception] is caught inside the [with] block: it is logged with
    [log.error] and the file is left with the unusable output.  What
    follows is decided by the close of the results file at the end of the
    block, outside the [try]: when the close succeeds, the detections are
    handled as if nothing had happened; when the close raises as well,
    that exception leaves [save_to_json] and the detections file is not
    attempted. *)
Theorem results_dump_failure_is_logged io cls m w folder e lg :
  output_folder m = Some folder -> folder <> "" ->
  truthy (results m) = true ->
  log m = Some lg ->
  open_error io (path_join folder (String.append (get_slug cls) ".json")) "w" = None ->
  dump_error io (path_join folder (String.append (get_slug cls) ".json")) = Some e ->
  is_Exception e = true ->
  save_to_json io cls (m, w) =
    match close_error io (path_join folder (String.append (get_slug cls) ".json")) with
    | None =>
        if truthy (PList (detected m)) then
          with_open io
            (path_join folder (String.append (get_slug cls) "_detected.json")) "w"
            (in_world (json_dump io
                         (path_join folder
                            (String.append (get_slug cls) "_detected.json"))
                         (PList (detected m))))
        else ret tt
    | Some e' => raise e'
    end
      (m,
       World (<[path_join folder (String.append (get_slug cls) ".json") := [Partial]]>
                (files w))
             (events w ++
              [Opened (path_join folder (String.append (get_slug cls) ".json")) "w";
               Logged lg LError
                 "Unable to store results of module %s to file %s: %s"
                 [PStr (class_name cls);
                  PStr (String.append (get_slug cls) ".json");
                  PStr (exn_msg e)]])).
Proof.
  intros Hout Hfolder Hres Hlog Hopen Hdump Hexc.
  apply save_to_json_after_failed_dump; assumption.
Qed.

Lemma results_dump_failure_is_logged_witness :
  save_to_json io_results_dump_and_close_fail contacts_class
    (contacts_module, empty_world) =
    match close_error io_results_dump_and_close_fail
            (path_join "/out" (String.append (get_slug contacts_class) ".json")) with
    | None =>
        if truthy (PList (detected contacts_module)) then
          with_open io_results_dump_and_close_fail
            (path_join "/out"
               (String.append (get_slug contacts_class) "_detected.json")) "w"
            (in_world (json_dump io_results_dump_and_close_fail
                         (path_join "/out"
                            (String.append (get_slug contacts_class) "_detected.json"))
                         (PList (detected contacts_module))))
        else ret tt
    | Some e' => raise e'
    end
      (contacts_module,
       World (<[path_join "/out" (String.append (get_slug contacts_class) ".json")
                := [Partial]]> (files empty_world))
             (events empty_world ++
              [Opened (path_join "/out"
                         (String.append (get_slug contacts_class) ".json")) "w";
               Logged mvt_logger LError
                 "Unable to store results of module %s to file %s: %s"
                 [PStr (class_name contacts_class);
                  PStr (String.append (get_slug contacts_class) ".json");
                  PStr (exn_msg (Exn OSError "No space left on device"))]])).
Proof.
  apply (results_dump_failure_is_logged io_results_dump_and_close_fail contacts_class
           contacts_module empty_world "/out"
           (Exn OSError "No space left on device") mvt_logger);
    try reflexivity.
  discriminate.
Defined.

(** X14.  The handler of that failure needs the logger: on a module
    without one (as [from_json] builds it when no logger is given) the
    handler itself raises [AttributeError] in place of the original
    error.  The results file is still closed on the way out: when the
    close succeeds the [AttributeError] leaves [save_to_json], when the
    close raises as well its exception leaves instead.  Either way
    nothing is logged and the detections file is not attempted. *)
Theorem results_dump_failure_without_logger io cls m w folder e :
  output_folder m = Some folder -> folder <> "" ->
  truthy (results m) = true ->
  log m = None ->
  open_error io (path_join folder (String.append (get_slug cls) ".json")) "w" = None ->
  dump_error io (path_join folder (String.append (get_slug cls) ".json")) = Some e ->
  is_Exception e = true ->
  exists msg,
    save_to_json io cls (m, w) =
      (Raise
         match close_error io
                 (path_join folder (String.append (get_slug cls) ".json")) with
         | None => Exn AttributeError msg
         | Some e' => e'
         end,
       (m,
        World (<[path_join folder (String.append (get_slug cls) ".json") := [Partial]]>
                 (files w))
              (events w ++
               [Opened (path_join folder (String.append (get_slug cls) ".json")) "w"]))).
Proof.
  intros Hout Hfolder Hres Hlog Hopen Hdump Hexc.
  unfold save_to_json. unfold bind at 1. unfold get_module at 1. cbn [fst].
  rewrite Hout. destruct (String.eqb_spec folder "") as [|_]; [contradiction|].
  rewrite Hres.
  set (path := path_join folder (String.append (get_slug cls) ".json")) in *.
  destruct (module_log_without_logger LError
              "Unable to store results of module %s to file %s: %s"
              [PStr (class_name cls); PStr (String.append (get_slug cls) ".json");
               PStr (exn_msg e)]
              m (World (<[path := [Partial]]> (files w))
                       (events w ++ [Opened path "w"])) Hlog)
    as [msg Hhandler].
  exists msg. apply bind_raise.
  erewrite with_open_write; [| exact Hopen |].
  2:{ unfold try_except.
      erewrite in_world_eq by apply json_dump_eq.
      unfold dump_outcome. rewrite Hdump. cbn [fst snd]. rewrite Hexc.
      cbn [files events]. rewrite lookup_insert_eq, insert_insert_eq.
      cbn [default app from_option id]. exact Hhandler. }
  destruct (close_error io path); cbn [files events];
    rewrite ?insert_insert_eq; reflexivity.
Qed.

Lemma results_dump_failure_without_logger_witness :
  exists msg,
    save_to_json io_results_dump_fails contacts_class
      (init None None (Some "/out") false None (PList [PInt 1]), empty_world) =
      (Raise
         match close_error io_results_dump_fails
                 (path_join "/out"
                    (String.append (get_slug contacts_class) ".json")) with
         | None => Exn AttributeError msg
         | Some e' => e'
         end,
       (init None None (Some "/out") false None (PList [PInt 1]),
        World (<[path_join "/out" (String.append (get_slug contacts_class) ".json")
                 := [Partial]]> (files empty_world))
              (events empty_world ++
               [Opened (path_join "/out"
                          (String.append (get_slug contacts_class) ".json")) "w"]))).
Proof.
  apply (results_dump_failure_without_logger io_results_dump_fails contacts_class
           (init None None (Some "/out") false None (PList [PInt 1]))
           empty_world "/out" (Exn OSError "No space left on device"));
    try reflexivity.
  discriminate.
Defined.

(** X30.  The close of the results file is outside the [try]: when
    [json.dump] succeeds but the close at the end of the [with] block
    raises, that exception leaves [save_to_json].  Nothing is logged, the
    module and the other files are as before, and the detections file is
    not attempted. *)
Theorem results_close_failure_escapes io cls m w folder e :
  output_folder m = Some folder -> folder <> "" ->
  truthy (results m) = true ->
  open_error io (path_join folder (String.append (get_slug cls) ".json")) "w" = None ->
  dump_error io (path_join folder (String.append (get_slug cls) ".json")) = None ->
  close_error io (path_join folder (String.append (get_slug cls) ".json")) = Some e ->
  exists w1,
    save_to_json io cls (m, w) = (Raise e, (m, w1)) /\
    events w1 =
      events w ++
      [Opened (path_join folder (String.append (get_slug cls) ".json")) "w"] /\
    forall q,
      q <> path_join folder (String.append (get_slug cls) ".json") ->
      files w1 !! q = files w !! q.
Proof.
  intros Hout Hfolder Hres Hopen Hdump Hclose.
  destruct (encode_default_total false (results m)) as [jr Hjr].
  unfold save_to_json. unfold bind at 1. unfold get_module at 1. cbn [fst].
  rewrite Hout. destruct (String.eqb_spec folder "") as [|_]; [contradiction|].
  rewrite Hres.
  set (path := path_join folder (String.append (get_slug cls) ".json")) in *.
  eexists. split; [|split].
  - apply bind_raise.
    erewrite with_open_write; [rewrite Hclose; reflexivity | exact Hopen |].
    apply try_except_ok. erewrite in_world_eq by apply json_dump_eq.
    unfold dump_outcome. rewrite Hdump, Hjr. reflexivity.
  - reflexivity.
  - intros q Hq. cbn [files]. rewrite !lookup_insert_ne by congruence. reflexivity.
Qed.

Lemma results_close_failure_escapes_witness :
  exists w1,
    save_to_json
      (IoEnv (fun _ _ => None) (fun _ => None)
             (fun _ => Some (Exn OSError "No space left on device")))
      contacts_class (contacts_module, empty_world)
      = (Raise (Exn OSError "No space left on device"), (contacts_module, w1)) /\
    events w1 =
      events empty_world ++
      [Opened (path_join "/out" (String.append (get_slug contacts_class) ".json")) "w"] /\
    forall q,
      q <> path_join "/out" (String.append (get_slug contacts_class) ".json") ->
      files w1 !! q = files empty_world !! q.
Proof.
  apply (results_close_failure_escapes
           (IoEnv (fun _ _ => None) (fun _ => None)
                  (fun _ => Some (Exn OSError "No space left on device")))
           contacts_class contacts_module empty_world "/out"
           (Exn OSError "No space left on device"));
    try reflexivity.
  discriminate.
Defined.

(** ** The merged timeline: missing keys, ties, repeated calls *)






Lemma string_leb_false_neq a b : String.leb a b = false -> a <> b.
Proof. intros H ->. rewrite string_leb_refl in H. discriminate. Qed.

(** The sort is stable: among the elements with one key, the order of
    the input is kept. *)
Lemma insert_by_same_key {A} (key : A -> string) x l k :
  List.filter (fun y => String.eqb (key y) k) (insert_by key x l) =
  List.filter (fun y => String.eqb (key y) k) (x :: l).
Proof.
  induction l as [|y l IH].
  - reflexivity.
  - cbn [insert_by]. destruct (String.leb (key x) (key y)) eqn:Hxy.
    + reflexivity.
    + apply string_leb_false_neq in Hxy.
      cbn [List.filter] in *. rewrite IH.
      destruct (String.eqb_spec (key x) k) as [Hx|Hx];
        destruct (String.eqb_spec (key y) k) as [Hy|Hy];
        try reflexivity.
      congruence.
Qed.

Lemma sorted_by_stable {A} (key : A -> string) l k :
  List.filter (fun y => String.eqb (key y) k) (sorted_by key l) =
  List.filter (fun y => String.eqb (key y) k) l.
Proof.
  induction l as [|x l IH].
  - reflexivity.
  - cbn [sorted_by]. rewrite insert_by_same_key. cbn [List.filter]. rewrite IH.
    reflexivity.
Qed.

Lemma filter_map_snd {A B} (p : B -> bool) (l : list (A * B)) :
  List.filter p (map snd l) = map snd (List.filter (fun ab => p (snd ab)) l).
Proof.
  induction l as [|[a b] l IH]; cbn.
  - reflexivity.
  - destruct (p b); cbn; rewrite IH; reflexivity.
Qed.

Lemma filter_keyed (tl : list entry) k (l : list (string * entry)) :
  Forall (fun p => fst p = ts_key (snd p)) l ->
  List.filter (fun p => String.eqb (ts_key (snd p)) k) l =
  List.filter (fun p => String.eqb (fst p) k) l.
Proof.
  intros Hk. apply filter_ext_in. intros p Hp.
  rewrite List.Forall_forall in Hk. rewrite (Hk p Hp). reflexivity.
Qed.

Lemma combine_keys_keyed (tl : list entry) :
  Forall (fun p => fst p = ts_key (snd p)) (combine (map ts_key tl) tl).
Proof. induction tl as [|e tl IH]; cbn; constructor; auto. Qed.

(** X16.  Entries with the same timestamp (two undated entries among
    them) are written in the order in which they were passed:
    [sorted] is stable. *)
Theorem sorted_timeline_is_stable tl :
  Forall (fun e => dict_get "timestamp" e <> None) tl ->
  exists ordered,
    sorted_timeline tl = Ok ordered /\
    forall k,
      List.filter (fun e => String.eqb (ts_key e) k) ordered =
      List.filter (fun e => String.eqb (ts_key e) k) tl.
Proof.
  intros Hts. eexists. split; [apply sorted_timeline_ok; exact Hts|].
  intros k. rewrite filter_map_snd.
  rewrite (filter_keyed tl).
  - rewrite sorted_by_stable.
    rewrite <- (filter_keyed tl) by apply combine_keys_keyed.
    rewrite <- (filter_map_snd (fun e => String.eqb (ts_key e) k)).
    rewrite map_snd_combine_keys. reflexivity.
  - eapply Permutation_Forall; [symmetry; apply sorted_by_perm|].
    apply combine_keys_keyed.
Qed.

Lemma sorted_timeline_is_stable_witness :
  exists ordered,
    sorted_timeline
      [event_at (Some "2023-01-02") "b"; event_at None "first undated";
       event_at (Some "2023-01-02") "a"; event_at None "second undated"]
      = Ok ordered /\
    forall k,
      List.filter (fun e => String.eqb (ts_key e) k) ordered =
      List.filter (fun e => String.eqb (ts_key e) k)
        [event_at (Some "2023-01-02") "b"; event_at None "first undated";
         event_at (Some "2023-01-02") "a"; event_at None "second undated"].
Proof.
  apply (sorted_timeline_is_stable
           [event_at (Some "2023-01-02") "b"; event_at None "first undated";
            event_at (Some "2023-01-02") "a"; event_at None "second undated"]).
  repeat constructor; discriminate.
Defined.



(** ** The derived identity *)

Lemma to_lower_not_upper c : is_upper (to_lower c) = false.
Proof. destruct c as [[] [] [] [] [] [] [] []]; reflexivity. Qed.

Lemma to_lower_fixed c : is_upper c = false -> to_lower c = c.
Proof. unfold to_lower. intros ->. reflexivity. Qed.

Lemma to_lower_underscore c : not_underscore (to_lower c) = not_underscore c.
Proof. destruct c as [[] [] [] [] [] [] [] []]; reflexivity. Qed.

(** X18.  An identity derived from the class name (no [slug] override)
    holds no uppercase ASCII letter. *)
Theorem derived_slug_is_lowercase (cls : module_class) :
  slug cls = None ->
  Forall (fun c => is_upper c = false) (list_ascii_of_string (get_slug cls)).
Proof.
  intros Hslug. unfold get_slug, derive_slug. rewrite Hslug.
  rewrite list_ascii_of_string_of_list_ascii.
  apply List.Forall_map, List.Forall_forall. intros c _. apply to_lower_not_upper.
Qed.

Lemma derived_slug_is_lowercase_witness :
  Forall (fun c => is_upper c = false)
         (list_ascii_of_string (get_slug MVTModule_class)).
Proof.
  apply (derived_slug_is_lowercase MVTModule_class). reflexivity.
Defined.

Lemma re_sub_no_capital (m : matcher) n s :
  (forall c1 c2 rest, is_upper c2 = false -> m (c1 :: c2 :: rest) = None) ->
  (forall c, m [c] = None) ->
  Forall (fun c => is_upper c = false) s ->
  re_sub_from n m s = s.
Proof.
  intros Hm Hm1. revert s. induction n as [|n IH]; intros s Hs; cbn.
  - reflexivity.
  - destruct s as [|c1 rest]; [reflexivity|].
    inversion Hs as [|? ? _ Hrest]; subst.
    destruct rest as [|c2 rest'].
    + rewrite Hm1. rewrite IH by constructor. reflexivity.
    + inversion Hrest as [|? ? Hc2 _]; subst.
      rewrite (Hm c1 c2 rest' Hc2). rewrite IH by exact Hrest. reflexivity.
Qed.

Lemma not_capital_is_not_upper c : ~ capital_letter c -> is_upper c = false.
Proof.
  intros H. unfold is_upper.
  destruct (Nat.leb_spec 65 (nat_of_ascii c)); [|reflexivity].
  destruct (Nat.leb_spec (nat_of_ascii c) 90); [|reflexivity].
  exfalso. apply H. split; assumption.
Qed.

(** X19.  An ASCII class name without capital letter is its own
    identity: nothing is inserted and nothing changed. *)
Theorem derived_slug_of_lowercase_name (cls : module_class) :
  slug cls = None ->
  Forall (fun c => ascii_char c /\ ~ capital_letter c)
         (list_ascii_of_string (class_name cls)) ->
  get_slug cls = class_name cls.
Proof.
  intros Hslug Hname.
  assert (Hlow : Forall (fun c => is_upper c = false)
                        (list_ascii_of_string (class_name cls))).
  { eapply List.Forall_impl; [|exact Hname].
    intros c [_ Hc]. apply not_capital_is_not_upper. exact Hc. }
  unfold get_slug, derive_slug, re_sub. rewrite Hslug.
  rewrite (re_sub_no_capital word_start _ _ word_start_needs_capital
             (fun c => eq_refl) Hlow).
  rewrite (re_sub_no_capital capital_after_lower _ _
             capital_after_lower_needs_capital (fun c => eq_refl) Hlow).
  rewrite <- (string_of_list_ascii_of_string (class_name cls)) at 2.
  f_equal. rewrite <- (map_id (list_ascii_of_string (class_name cls))) at 2.
  apply map_ext_in. intros c Hc.
  rewrite List.Forall_forall in Hlow. apply to_lower_fixed, Hlow, Hc.
Qed.

Lemma derived_slug_of_lowercase_name_witness :
  get_slug (ModuleClass "sms_2" None (run MVTModule_class)
              (check_indicators MVTModule_class) (serialize MVTModule_class))
  = class_name (ModuleClass "sms_2" None (run MVTModule_class)
                  (check_indicators MVTModule_class) (serialize MVTModule_class)).
Proof.
  apply (derived_slug_of_lowercase_name
           (ModuleClass "sms_2" None (run MVTModule_class)
              (check_indicators MVTModule_class) (serialize MVTModule_class))).
  - reflexivity.
  - repeat (apply List.Forall_cons;
            [split; [unfold ascii_char | unfold capital_letter]; vm_compute; lia|]).
    apply List.Forall_nil.
Defined.


Lemma span_app p s : fst (span p s) ++ snd (span p s) = s.
Proof.
  induction s as [|c s IH]; cbn.
  - reflexivity.
  - destruct (p c); [|reflexivity].
    destruct (span p s) as [yes no]. cbn in *. rewrite IH. reflexivity.
Qed.

(** A substitution whose replacements only add underscores to the text
    they replace leaves the other characters as they are. *)
Lemma re_sub_inserts_underscores (m : matcher) n s :
  (forall s repl rest,
     m s = Some (repl, rest) ->
     List.filter not_underscore repl ++ List.filter not_underscore rest =
     List.filter not_underscore s) ->
  List.filter not_underscore (re_sub_from n m s) = List.filter not_underscore s.
Proof.
  intros Hm. revert s. induction n as [|n IH]; intros s; cbn.
  - reflexivity.
  - destruct s as [|c rest]; [reflexivity|].
    destruct (m (c :: rest)) as [[repl rest']|] eqn:Hmatch.
    + rewrite List.filter_app, IH. apply Hm. exact Hmatch.
    + cbn. rewrite IH. reflexivity.
Qed.

Lemma word_start_inserts_underscore s repl rest :
  word_start s = Some (repl, rest) ->
  List.filter not_underscore repl ++ List.filter not_underscore rest =
  List.filter not_underscore s.
Proof.
  unfold word_start. destruct s as [|c1 [|c2 [|c3 tail]]]; try discriminate.
  destruct (negb (is_newline c1) && is_upper c2 && is_lower c3); [|discriminate].
  pose proof (span_app is_lower tail) as Hspan.
  destruct (span is_lower tail) as [lows rest']. cbn in Hspan.
  intros [= <- <-]. rewrite <- Hspan.
  change (c1 :: "_"%char :: c2 :: c3 :: lows)
    with ([c1] ++ ["_"%char] ++ [c2; c3] ++ lows).
  change (c1 :: c2 :: c3 :: lows ++ rest') with ([c1] ++ [c2; c3] ++ lows ++ rest').
  rewrite !List.filter_app.
  change (List.filter not_underscore ["_"%char]) with (@nil ascii).
  cbn [app]. rewrite <- !app_assoc. reflexivity.
Qed.

Lemma capital_after_lower_inserts_underscore s repl rest :
  capital_after_lower s = Some (repl, rest) ->
  List.filter not_underscore repl ++ List.filter not_underscore rest =
  List.filter not_underscore s.
Proof.
  unfold capital_after_lower. destruct s as [|c1 [|c2 tail]]; try discriminate.
  destruct ((is_lower c1 || is_digit c1) && is_upper c2); [|discriminate].
  intros [= <- <-].
  change [c1; "_"%char; c2] with ([c1] ++ ["_"%char] ++ [c2]).
  change (c1 :: c2 :: tail) with ([c1] ++ [c2] ++ tail).
  rewrite !List.filter_app.
  change (List.filter not_underscore ["_"%char]) with (@nil ascii).
  cbn [app]. rewrite <- !app_assoc. reflexivity.
Qed.

Lemma filter_map_to_lower l :
  List.filter not_underscore (map to_lower l) =
  map to_lower (List.filter not_underscore l).
Proof.
  induction l as [|c l IH]; cbn.
  - reflexivity.
  - rewrite to_lower_underscore. destruct (not_underscore c); cbn; rewrite IH;
      reflexivity.
Qed.

(** X20.  For an ASCII class name, deriving an identity only inserts
    underscores and turns the capital letters [A]-[Z] into small ones:
    with the underscores deleted, the identity is the class name with its
    underscores deleted and its capital letters made small.  No character
    of the class name is lost or reordered. *)
Theorem derived_slug_keeps_the_name (cls : module_class) :
  slug cls = None ->
  Forall ascii_char (list_ascii_of_string (class_name cls)) ->
  List.filter not_underscore (list_ascii_of_string (get_slug cls)) =
  map (fun c => if is_upper c then small_of c else c)
      (List.filter not_underscore (list_ascii_of_string (class_name cls))).
Proof.
  intros Hslug _. unfold get_slug, derive_slug, re_sub. rewrite Hslug.
  change (fun c => if is_upper c then small_of c else c) with to_lower.
  rewrite list_ascii_of_string_of_list_ascii, filter_map_to_lower.
  f_equal.
  rewrite (re_sub_inserts_underscores _ _ _ capital_after_lower_inserts_underscore).
  apply re_sub_inserts_underscores, word_start_inserts_underscore.
Qed.

Lemma derived_slug_keeps_the_name_witness :
  List.filter not_underscore
    (list_ascii_of_string
       (get_slug (ModuleClass "IOSVersionHistory" None (run MVTModule_class)
                    (check_indicators MVTModule_class) (serialize MVTModule_class))))
  = map (fun c => if is_upper c then small_of c else c)
      (List.filter not_underscore
         (list_ascii_of_string
            (class_name
               (ModuleClass "IOSVersionHistory" None (run MVTModule_class)
                  (check_indicators MVTModule_class) (serialize MVTModule_class))))).
Proof.
  apply (derived_slug_keeps_the_name
           (ModuleClass "IOSVersionHistory" None (run MVTModule_class)
              (check_indicators MVTModule_class) (serialize MVTModule_class))).
  - reflexivity.
  - repeat (apply List.Forall_cons; [unfold ascii_char; vm_compute; lia|]).
    apply List.Forall_nil.
Defined.

(** ** Reloading: what [from_json] accepts and what it builds *)

Ltac load_steps :=
  cbv beta iota zeta delta
    [from_json bind open_file emit json_load log_to raise ret].

(** Whatever [from_json] returns was built by [init] with the logger
    given and no paths; the files are as before. *)
Lemma from_json_ok_inv io path lg w m w' :
  from_json io path lg w = (Ok m, w') ->
  (exists loaded, m = init None None None false lg loaded) /\
  files w' = files w.
Proof.
  load_steps.
  destruct (open_error io path "r"); load_steps; [discriminate|].
  cbn [files events].
  replace (String.eqb "r" "w") with false by reflexivity.
  replace (String.eqb "r" "r") with true by reflexivity.
  destruct (files w !! path) as [content|] eqn:Hfile; [|discriminate].
  cbn [files events]. rewrite Hfile.
  destruct content as [|c rest]; [discriminate|].
  destruct c as [j|cells|]; try discriminate.
  destruct rest; [|discriminate].
  destruct lg as [l|].
  - destruct (py_len (decode j)); [|discriminate].
    cbn [files events].
    intros [= <- <-]. split; [eexists; reflexivity | reflexivity].
  - intros [= <- <-]. split; [eexists; reflexivity | reflexivity].
Qed.

(** X21.  [from_json] only reads: it leaves every file as it was.  The
    module it returns holds the logger given and nothing else besides
    the loaded results -- no output folder, no indicators, no detections,
    empty timelines -- so that [save_to_json] on it writes nothing. *)
Theorem from_json_builds_a_bare_module io path lg w m w' :
  from_json io path lg w = (Ok m, w') ->
  files w' = files w /\
  log m = lg /\
  output_folder m = None /\
  indicators m = None /\
  detected m = [] /\
  timeline m = [] /\
  timeline_detected m = [] /\
  forall io' cls, save_to_json io' cls (m, w') = (Ok tt, (m, w')).
Proof.
  intros Hload. destruct (from_json_ok_inv io path lg w m w' Hload)
    as [[loaded ->] Hfiles].
  repeat split; try exact Hfiles.
Qed.

Lemma from_json_builds_a_bare_module_witness :
  files (World {["/out/contacts.json" := [Doc (JArr [JInt 1])]]}
               [Opened "/out/contacts.json" "r"])
    = files (World {["/out/contacts.json" := [Doc (JArr [JInt 1])]]} []) /\
  log (init None None None false None (PList [PInt 1])) = None /\
  output_folder (init None None None false None (PList [PInt 1])) = None /\
  indicators (init None None None false None (PList [PInt 1])) = None /\
  detected (init None None None false None (PList [PInt 1])) = [] /\
  timeline (init None None None false None (PList [PInt 1])) = [] /\
  timeline_detected (init None None None false None (PList [PInt 1])) = [] /\
  forall io' cls,
    save_to_json io' cls
      (init None None None false None (PList [PInt 1]),
       World {["/out/contacts.json" := [Doc (JArr [JInt 1])]]}
             [Opened "/out/contacts.json" "r"])
    = (Ok tt,
       (init None None None false None (PList [PInt 1]),
        World {["/out/contacts.json" := [Doc (JArr [JInt 1])]]}
              [Opened "/out/contacts.json" "r"])).
Proof.
  apply (from_json_builds_a_bare_module io_ok "/out/contacts.json" None
           (World {["/out/contacts.json" := [Doc (JArr [JInt 1])]]} [])).
  vm_compute. reflexivity.
Defined.

(** X22.  On a file that holds a JSON array [from_json] returns a module
    whose [results] is the list of the decoded items; with a logger it
    logs the number of items once, without one it logs nothing. *)
Theorem from_json_loads_a_list io path lg w items :
  open_error io path "r" = None ->
  files w !! path = Some [Doc (JArr items)] ->
  from_json io path lg w =
    (Ok (init None None None false lg (PList (map decode items))),
     World (files w)
       (events w ++
        Opened path "r" ::
        match lg with
        | Some l =>
            [Logged l LInfo
               (String.append "Loaded %d results from "
                  (String.append dquote (String.append "%s" dquote)))
               [PInt (Z.of_nat (List.length items)); PStr path]]
        | None => []
        end)).
Proof.
  intros Hopen Hfile. load_steps. rewrite Hopen.
  cbn [files events]. rewrite Hfile.
  replace (String.eqb "r" "w") with false by reflexivity.
  cbn [files events]. rewrite Hfile. cbn [decode py_len].
  rewrite length_map.
  destruct lg as [l|]; cbn [files events]; rewrite <- ?app_assoc; reflexivity.
Qed.

Lemma from_json_loads_a_list_witness :
  from_json io_ok "/out/contacts.json" (Some mvt_logger)
    (World {["/out/contacts.json" := [Doc (JArr [JInt 1; JNull])]]} []) =
    (Ok (init None None None false (Some mvt_logger)
           (PList (map decode [JInt 1; JNull]))),
     World (files (World {["/out/contacts.json" := [Doc (JArr [JInt 1; JNull])]]} []))
       (events (World {["/out/contacts.json" := [Doc (JArr [JInt 1; JNull])]]} []) ++
        Opened "/out/contacts.json" "r" ::
        [Logged mvt_logger LInfo
           (String.append "Loaded %d results from "
              (String.append dquote (String.append "%s" dquote)))
           [PInt (Z.of_nat (List.length [JInt 1; JNull]));
            PStr "/out/contacts.json"]])).
Proof.
  apply (from_json_loads_a_list io_ok "/out/contacts.json" (Some mvt_logger)
           (World {["/out/contacts.json" := [Doc (JArr [JInt 1; JNull])]]} [])
           [JInt 1; JNull]).
  - reflexivity.
  - vm_compute. reflexivity.
Defined.

Lemma from_json_unusable io path lg w :
  open_error io path "r" = None ->
  files w !! path = Some [Partial] ->
  from_json io path lg w =
    (Raise (Exn JSONDecodeError "Expecting value"),
     World (files w) (events w ++ [Opened path "r"])).
Proof.
  intros Hopen Hfile. load_steps. rewrite Hopen.
  cbn [files events]. rewrite Hfile.
  replace (String.eqb "r" "w") with false by reflexivity.
  cbn [files events]. rewrite Hfile. reflexivity.
Qed.

(** Opening a file for writing, dumping into it and closing it, whatever
    fails: the other files are left alone and the event trace only
    grows. *)
Lemma write_stage_effects io path v m w :
  exists r w',
    with_open io path "w" (in_world (json_dump io path v)) (m, w)
      = (r, (m, w')) /\
    (forall q, q <> path -> files w' !! q = files w !! q) /\
    exists tail, events w' = events w ++ tail.
Proof.
  destruct (open_error io path "w") as [e|] eqn:Hopen.
  - eexists _, _. split.
    + apply with_open_not_entered. exact Hopen.
    + split; [reflexivity | eexists; reflexivity].
  - erewrite with_open_write
      by (try exact Hopen; apply in_world_eq, json_dump_eq).
    destruct (close_error io path); eexists _, _; (split; [reflexivity|]);
      (split; [|eexists; reflexivity]);
      intros q Hq; cbn; rewrite !lookup_insert_ne by congruence; reflexivity.
Qed.

(** X23.  A results file whose dump failed is lost for reloading: the
    failure is caught and logged when persisting, and [from_json] on that
    file raises [JSONDecodeError] afterwards, whatever happened to the
    close of the file and to the detections in between. *)
Theorem failed_dump_cannot_be_reloaded io cls m w folder e lg lg' :
  output_folder m = Some folder -> folder <> "" ->
  truthy (results m) = true ->
  log m = Some lg ->
  open_error io (path_join folder (String.append (get_slug cls) ".json")) "w" = None ->
  dump_error io (path_join folder (String.append (get_slug cls) ".json")) = Some e ->
  is_Exception e = true ->
  open_error io (path_join folder (String.append (get_slug cls) ".json")) "r" = None ->
  exists r w1 w2,
    save_to_json io cls (m, w) = (r, (m, w1)) /\
    In (Logged lg LError "Unable to store results of module %s to file %s: %s"
          [PStr (class_name cls); PStr (String.append (get_slug cls) ".json");
           PStr (exn_msg e)])
       (events w1) /\
    from_json io (path_join folder (String.append (get_slug cls) ".json")) lg' w1 =
      (Raise (Exn JSONDecodeError "Expecting value"), w2).
Proof.
  intros Hout Hfolder Hres Hlog Hopen Hdump Hexc Hread.
  rewrite (save_to_json_after_failed_dump io cls m w folder e lg)
    by assumption.
  destruct (close_error io (path_join folder (String.append (get_slug cls) ".json")))
    as [e'|].
  { eexists _, _, _. split; [reflexivity|]. split.
    + cbn [events]. apply in_or_app. right. right. left. reflexivity.
    + apply from_json_unusable; [exact Hread|].
      cbn [files]. apply lookup_insert_eq. }
  destruct (truthy (PList (detected m))).
  - match goal with
    | |- context [with_open _ _ _ _ (m, ?W)] =>
        destruct (write_stage_effects io
                    (path_join folder (String.append (get_slug cls) "_detected.json"))
                    (PList (detected m)) m W)
          as (r & w1 & Hrun & Hframe & tail & Hev)
    end.
    exists r, w1. eexists. split; [exact Hrun|]. split.
    + rewrite Hev. cbn [events]. apply in_or_app. left.
      apply in_or_app. right. right. left. reflexivity.
    + apply from_json_unusable; [exact Hread|].
      rewrite Hframe by apply results_path_is_not_detected_path.
      cbn [files]. apply lookup_insert_eq.
  - eexists _, _, _. split; [reflexivity|]. split.
    + cbn [events]. apply in_or_app. right. right. left. reflexivity.
    + apply from_json_unusable; [exact Hread|].
      cbn [files]. apply lookup_insert_eq.
Qed.

Lemma failed_dump_cannot_be_reloaded_witness :
  exists r w1 w2,
    save_to_json io_results_dump_fails contacts_class (contacts_module, empty_world)
      = (r, (contacts_module, w1)) /\
    In (Logged mvt_logger LError
          "Unable to store results of module %s to file %s: %s"
          [PStr (class_name contacts_class);
           PStr (String.append (get_slug contacts_class) ".json");
           PStr (exn_msg (Exn OSError "No space left on device"))])
       (events w1) /\
    from_json io_results_dump_fails
      (path_join "/out" (String.append (get_slug contacts_class) ".json"))
      (Some mvt_logger) w1 =
      (Raise (Exn JSONDecodeError "Expecting value"), w2).
Proof.
  apply (failed_dump_cannot_be_reloaded io_results_dump_fails contacts_class
           contacts_module empty_world "/out"
           (Exn OSError "No space left on device") mvt_logger (Some mvt_logger));
    try reflexivity.
  discriminate.
Defined.

(** X24.  A file that holds a number, a boolean or null instead of a
    sequence loads without a logger (the value becomes [results]), but
    with a logger [from_json] raises [TypeError]: the log line takes
    the length of what was loaded. *)
Theorem from_json_scalar_document io path w j :
  open_error io path "r" = None ->
  files w !! path = Some [Doc j] ->
  match j with
  | JNull | JBool _ | JInt _ => True
  | _ => False
  end ->
  from_json io path None w =
    (Ok (init None None None false None (decode j)),
     World (files w) (events w ++ [Opened path "r"])) /\
  forall l,
    from_json io path (Some l) w =
      (Raise (Exn TypeError "object has no len()"),
       World (files w) (events w ++ [Opened path "r"])).
Proof.
  intros Hopen Hfile Hj. split; [|intros l]; load_steps; rewrite Hopen;
    cbn [files events]; rewrite Hfile;
    replace (String.eqb "r" "w") with false by reflexivity;
    cbn [files events]; rewrite Hfile;
    destruct j; try contradiction; reflexivity.
Qed.

Lemma from_json_scalar_document_witness :
  from_json io_ok "/out/contacts.json" None
    (World {["/out/contacts.json" := [Doc (JInt 7)]]} []) =
    (Ok (init None None None false None (decode (JInt 7))),
     World (files (World {["/out/contacts.json" := [Doc (JInt 7)]]} []))
           (events (World {["/out/contacts.json" := [Doc (JInt 7)]]} [])
            ++ [Opened "/out/contacts.json" "r"])) /\
  forall l,
    from_json io_ok "/out/contacts.json" (Some l)
      (World {["/out/contacts.json" := [Doc (JInt 7)]]} []) =
      (Raise (Exn TypeError "object has no len()"),
       World (files (World {["/out/contacts.json" := [Doc (JInt 7)]]} []))
             (events (World {["/out/contacts.json" := [Doc (JInt 7)]]} [])
              ++ [Opened "/out/contacts.json" "r"])).
Proof.
  apply (from_json_scalar_document io_ok "/out/contacts.json"
           (World {["/out/contacts.json" := [Doc (JInt 7)]]} []) (JInt 7)).
  - reflexivity.
  - vm_compute. reflexivity.
  - exact I.
Defined.

(** ** Accumulators on the heap *)

Lemma heap_tail_lookup (h l : Aliasing.heap) k :
  (h ++ l) !! (List.length h + k) = l !! k.
Proof. induction h as [|x h IH]; cbn; [reflexivity | exact IH]. Qed.

Lemma heap_tail_insert (h l : Aliasing.heap) k x :
  <[List.length h + k := x]> (h ++ l) = h ++ <[k := x]> l.
Proof. apply insert_app_r. Qed.

Lemma init_heap f arg h :
  Aliasing.init f arg h =
  (Aliasing.Instance
     (match arg with
      | Some given => given
      | None => Aliasing.default_results f
      end)
     (List.length h + 0) (List.length h + 1) (List.length h + 2),
   h ++ [[]; []; []]).
Proof.
  unfold Aliasing.init, Aliasing.alloc. cbn.
  rewrite !length_app. cbn. rewrite <- !app_assoc. cbn.
  rewrite Nat.add_0_r.
  replace (List.length h + 1 + 1) with (List.length h + 2) by lia.
  reflexivity.
Qed.

(** X25.  The accumulators [detected], [timeline] and
    [timeline_detected] belong to one instance: whatever the heap and the
    [results] arguments, an entry appended to [detected] (or to
    [timeline]) of one module shows in that list only, and the lists of
    a module constructed next stay empty. *)
Theorem own_accumulators_are_private f h arg1 arg2 v :
  let '(a, h1) := Aliasing.init f arg1 h in
  let '(b, h2) := Aliasing.init f arg2 h1 in
  (let h3 := Aliasing.append (Aliasing.detected a) v h2 in
   Aliasing.read (Aliasing.detected a) h3 = Some [v] /\
   Aliasing.read (Aliasing.detected b) h3 = Some [] /\
   Aliasing.read (Aliasing.timeline a) h3 = Some [] /\
   Aliasing.read (Aliasing.timeline b) h3 = Some [] /\
   Aliasing.read (Aliasing.timeline_detected a) h3 = Some [] /\
   Aliasing.read (Aliasing.timeline_detected b) h3 = Some []) /\
  (let h3 := Aliasing.append (Aliasing.timeline a) v h2 in
   Aliasing.read (Aliasing.timeline a) h3 = Some [v] /\
   Aliasing.read (Aliasing.timeline b) h3 = Some [] /\
   Aliasing.read (Aliasing.detected a) h3 = Some [] /\
   Aliasing.read (Aliasing.detected b) h3 = Some []).
Proof.
  rewrite init_heap. rewrite init_heap.
  rewrite length_app. cbn [List.length Aliasing.detected Aliasing.timeline
                           Aliasing.timeline_detected].
  rewrite <- !Nat.add_assoc. cbn [Nat.add]. rewrite <- app_assoc. cbn [app].
  unfold Aliasing.append, Aliasing.read.
  rewrite !heap_tail_lookup. cbn [lookup list_lookup].
  rewrite !heap_tail_insert. rewrite !heap_tail_lookup.
  repeat split.
Qed.

(** X26.  Results lists passed explicitly are used as they are: two
    modules constructed over two different lists do not share them, an
    entry appended through the first module is added to its list and
    the list of the second is unchanged. *)
Theorem explicit_results_are_kept_apart f (h : list (list pyval)) (r1 r2 : nat)
    l1 l2 v :
  r1 <> r2 ->
  h !! r1 = Some l1 ->
  h !! r2 = Some l2 ->
  let '(a, h1) := Aliasing.init f (Some r1) h in
  let '(b, h2) := Aliasing.init f (Some r2) h1 in
  let h3 := Aliasing.append (Aliasing.results a) v h2 in
  Aliasing.results a = r1 /\
  Aliasing.results b = r2 /\
  Aliasing.read (Aliasing.results a) h3 = Some (l1 ++ [v]) /\
  Aliasing.read (Aliasing.results b) h3 = Some l2.
Proof.
  intros Hne H1 H2. rewrite init_heap. rewrite init_heap.
  cbn [Aliasing.results]. rewrite <- app_assoc.
  pose proof (lookup_lt_Some _ _ _ H1) as Hlt1.
  pose proof (lookup_lt_Some _ _ _ H2) as Hlt2.
  unfold Aliasing.append, Aliasing.read.
  unfold Aliasing.heap, Aliasing.loc in *.
  rewrite (lookup_app_l h _ r1 Hlt1), H1.
  rewrite (insert_app_l h _ r1 _ Hlt1).
  assert (Hlen : List.length (<[r1 := l1 ++ [v]]> h) = List.length h)
    by apply length_insert.
  split; [reflexivity|]. split; [reflexivity|]. split.
  - rewrite lookup_app_l by (rewrite Hlen; exact Hlt1).
    apply list_lookup_insert_eq. exact Hlt1.
  - rewrite lookup_app_l by (rewrite Hlen; exact Hlt2).
    rewrite list_lookup_insert_ne by exact Hne. exact H2.
Qed.

Lemma explicit_results_are_kept_apart_witness :
  let '(a, h1) := Aliasing.init (Aliasing.InitFunction 0) (Some 1)
                    [[]; [PInt 1]; [PInt 2]] in
  let '(b, h2) := Aliasing.init (Aliasing.InitFunction 0) (Some 2) h1 in
  let h3 := Aliasing.append (Aliasing.results a) (PInt 3) h2 in
  Aliasing.results a = 1 /\
  Aliasing.results b = 2 /\
  Aliasing.read (Aliasing.results a) h3 = Some ([PInt 1] ++ [PInt 3]) /\
  Aliasing.read (Aliasing.results b) h3 = Some [PInt 2].
Proof.
  apply (explicit_results_are_kept_apart (Aliasing.InitFunction 0)
           [[]; [PInt 1]; [PInt 2]] 1 2 [PInt 1] [PInt 2] (PInt 3)).
  - discriminate.
  - reflexivity.
  - reflexivity.
Defined.

(** ** Deduplication needs encodable records *)

Lemma sequence_strict {A B} (f : A -> result B) (bad : A -> bool) l :
  Forall (fun x => (bad x = true -> f x = Raise type_error) /\
                   (bad x = false -> exists b, f x = Ok b)) l ->
  (existsb bad l = true -> sequence (map f l) = Raise type_error) /\
  (existsb bad l = false -> exists bs, sequence (map f l) = Ok bs).
Proof.
  induction 1 as [|x l [Hbad Hgood] _ [IHbad IHgood]]; cbn.
  - split; [discriminate | intros _; eexists; reflexivity].
  - destruct (bad x) eqn:Hx; cbn.
    + split; [intros _ | discriminate]. rewrite Hbad by reflexivity. reflexivity.
    + destruct (Hgood eq_refl) as [b Hb]. rewrite Hb. cbn. split.
      * intros Hl. rewrite (IHbad Hl). reflexivity.
      * intros Hl. destruct (IHgood Hl) as [bs Hbs]. rewrite Hbs.
        eexists. reflexivity.
Qed.

(** Without [default] the encoder raises [TypeError] exactly on the
    values that hold an object without encoding rule. *)
Lemma encode_strict sort_keys v :
  (has_foreign v = true -> encode sort_keys false v = Raise type_error) /\
  (has_foreign v = false -> exists j, encode sort_keys false v = Ok j).
Proof.
  induction v as [| | | |l IH|l IH|d IH|] using pyval_nested_ind; cbn;
    try (split; [discriminate | intros _; eexists; reflexivity]).
  - destruct (sequence_strict (encode sort_keys false) has_foreign l IH)
      as [Hbad Hgood].
    split; intros Hl.
    + rewrite (Hbad Hl). reflexivity.
    + destruct (Hgood Hl) as [js Hjs]. rewrite Hjs. eexists. reflexivity.
  - destruct (sequence_strict (encode sort_keys false) has_foreign l IH)
      as [Hbad Hgood].
    split; intros Hl.
    + rewrite (Hbad Hl). reflexivity.
    + destruct (Hgood Hl) as [js Hjs]. rewrite Hjs. eexists. reflexivity.
  - destruct (sequence_strict
                (fun kv => result_map (pair (fst kv))
                                      (encode sort_keys false (snd kv)))
                (fun kv => has_foreign (snd kv)) d) as [Hbad Hgood].
    { eapply List.Forall_impl; [|exact IH]. intros kv [Hb Hg]. split.
      - intros Hkv. rewrite (Hb Hkv). reflexivity.
      - intros Hkv. destruct (Hg Hkv) as [j Hj]. rewrite Hj. eexists. reflexivity. }
    split; intros Hl.
    + rewrite (Hbad Hl). reflexivity.
    + destruct (Hgood Hl) as [ms Hms]. rewrite Hms. eexists. reflexivity.
  - split; [intros _; reflexivity | discriminate].
Qed.

(** X27.  [timeline_deduplicate] dumps its records without [default]:
    it raises [TypeError] as soon as one record holds, at any depth, a
    value [simplejson] has no encoding rule for (a [datetime], say), and
    it returns for every timeline built from [None], booleans, integers,
    strings, lists, tuples and dicts with string keys only.
    ([save_to_json], which dumps with [default=str], accepts the values
    of the first kind as well.) *)
Theorem timeline_deduplicate_needs_encodable set_iter tl :
  (existsb has_foreign tl = true ->
   timeline_deduplicate set_iter tl = Raise type_error) /\
  (existsb has_foreign tl = false ->
   exists deduplicated, timeline_deduplicate set_iter tl = Ok deduplicated).
Proof.
  unfold timeline_deduplicate.
  destruct (sequence_strict (encode true false) has_foreign tl) as [Hbad Hgood].
  { apply List.Forall_forall. intros v _. apply encode_strict. }
  split; intros Hl.
  - rewrite (Hbad Hl). reflexivity.
  - destruct (Hgood Hl) as [docs Hdocs]. rewrite Hdocs. eexists. reflexivity.
Qed.

Lemma timeline_deduplicate_needs_encodable_witness :
  timeline_deduplicate set_iter_forward
    [PDict [("timestamp", PObj "2021-07-18 10:00:00" true)]] = Raise type_error /\
  exists deduplicated,
    timeline_deduplicate set_iter_forward
      [PDict [("timestamp", PStr "2021-07-18 10:00:00")]] = Ok deduplicated.
Proof.
  split.
  - apply (proj1 (timeline_deduplicate_needs_encodable set_iter_forward
                    [PDict [("timestamp", PObj "2021-07-18 10:00:00" true)]])).
    reflexivity.
  - apply (proj2 (timeline_deduplicate_needs_encodable set_iter_forward
                    [PDict [("timestamp", PStr "2021-07-18 10:00:00")]])).
    reflexivity.
Defined.

(** ** What a run never does *)

Lemma silent_quiet {A} (c : M state A) : silent c -> quiet c.
Proof. intros H s r s' Hc _. eapply H. exact Hc. Qed.

Lemma silent_ret {A} (a : A) : silent (ret a).
Proof. intros s r s' [= <- <-]. reflexivity. Qed.

Lemma silent_get_module : silent get_module.
Proof. intros s r s' [= <- <-]. reflexivity. Qed.

Lemma silent_on_module f : silent (on_module f).
Proof.
  intros [m w] r s'. unfold on_module. cbn.
  destruct (f m) as [r0 m']. intros [= <- <-]. reflexivity.
Qed.

Lemma silent_module_log lvl template args : silent (module_log lvl template args).
Proof.
  intros [m w] r s'. unfold module_log, bind, get_module, in_world, log_to, emit, raise.
  cbn. destruct (log m); intros [= <- <-]; reflexivity.
Qed.

Lemma silent_bind {A B} (c : M state A) (k : A -> M state B) :
  silent c -> (forall a, silent (k a)) -> silent (bind c k).
Proof.
  intros Hc Hk s r s'. unfold bind.
  destruct (c s) as [[a|e] s1] eqn:Hcs.
  - intros Hks. rewrite (Hk a s1 r s' Hks). eapply Hc. exact Hcs.
  - intros [= <- <-]. eapply Hc. exact Hcs.
Qed.

Lemma quiet_bind {A B} (c : M state A) (k : A -> M state B) :
  silent c -> (forall a, quiet (k a)) -> quiet (bind c k).
Proof.
  intros Hc Hk s r s'. unfold bind.
  destruct (c s) as [[a|e] s1] eqn:Hcs.
  - intros Hks Hout. rewrite (Hk a s1 r s' Hks Hout). eapply Hc. exact Hcs.
  - intros [= <- <-] _. eapply Hc. exact Hcs.
Qed.

Lemma silent_call name body : silent body -> silent (call name body).
Proof.
  intros Hb. unfold call. apply silent_bind; [|intros _; exact Hb].
  intros [m w] r s'. unfold in_world, emit. cbn. intros [= <- <-]. reflexivity.
Qed.

Lemma silent_try_except {A} (body : M state A) handler :
  silent body ->
  (forall e h, handler e = Some h -> silent h) ->
  silent (try_except body handler).
Proof.
  intros Hb Hh s r s'. unfold try_except.
  destruct (body s) as [[a|e] s1] eqn:Hbs.
  - intros [= <- <-]. eapply Hb. exact Hbs.
  - destruct (handler e) as [h|] eqn:He.
    + intros Hhs. rewrite (Hh e h He s1 r s' Hhs). eapply Hb. exact Hbs.
    + intros [= <- <-]. eapply Hb. exact Hbs.
Qed.

Lemma quiet_try_except_else {A B} (body : M state A) handler (orelse : M state B) :
  silent body ->
  (forall e h, handler e = Some h -> silent h) ->
  quiet orelse ->
  quiet (try_except_else body handler orelse).
Proof.
  intros Hb Hh Ho s r s'. unfold try_except_else.
  destruct (body s) as [[a|e] s1] eqn:Hbs.
  - intros Hos Hout. rewrite (Ho s1 r s' Hos Hout). eapply Hb. exact Hbs.
  - destruct (handler e) as [h|] eqn:He.
    + intros Hhs _. rewrite (Hh e h He s1 r s' Hhs). eapply Hb. exact Hbs.
    + intros [= <- <-] _. eapply Hb. exact Hbs.
Qed.

Lemma silent_try_except_else {A B} (body : M state A) handler (orelse : M state B) :
  silent body ->
  (forall e h, handler e = Some h -> silent h) ->
  silent orelse ->
  silent (try_except_else body handler orelse).
Proof.
  intros Hb Hh Ho s r s'. unfold try_except_else.
  destruct (body s) as [[a|e] s1] eqn:Hbs.
  - intros Hos. rewrite (Ho s1 r s' Hos). eapply Hb. exact Hbs.
  - destruct (handler e) as [h|] eqn:He.
    + intros Hhs. rewrite (Hh e h He s1 r s' Hhs). eapply Hb. exact Hbs.
    + intros [= <- <-]. eapply Hb. exact Hbs.
Qed.

Lemma silent_to_timeline set_iter cls : silent (to_timeline set_iter cls).
Proof.
  intros [m w] r s' Hrun.
  destruct (to_timeline_pure set_iter cls m) as (r0 & m0 & Hpure & _).
  rewrite Hpure in Hrun. injection Hrun as <- <-. reflexivity.
Qed.


Lemma kept_ret {A} (a : A) : module_kept (ret a).
Proof. intros s r s' [= <- <-]. reflexivity. Qed.

Lemma kept_get_module : module_kept get_module.
Proof. intros s r s' [= <- <-]. reflexivity. Qed.

Lemma kept_in_world {A} (c : M world A) : module_kept (in_world c).
Proof.
  intros [m w] r s'. unfold in_world. cbn.
  destruct (c w) as [r0 w']. intros [= <- <-]. reflexivity.
Qed.

Lemma kept_module_log lvl template args : module_kept (module_log lvl template args).
Proof.
  intros [m w] r s'. unfold module_log, bind, get_module, in_world, log_to, emit, raise.
  cbn. destruct (log m); intros [= <- <-]; reflexivity.
Qed.

Lemma kept_bind {A B} (c : M state A) (k : A -> M state B) :
  module_kept c -> (forall a, module_kept (k a)) -> module_kept (bind c k).
Proof.
  intros Hc Hk s r s'. unfold bind.
  destruct (c s) as [[a|e] s1] eqn:Hcs.
  - intros Hks. rewrite (Hk a s1 r s' Hks). eapply Hc. exact Hcs.
  - intros [= <- <-]. eapply Hc. exact Hcs.
Qed.

Lemma kept_try_except {A} (body : M state A) handler :
  module_kept body ->
  (forall e h, handler e = Some h -> module_kept h) ->
  module_kept (try_except body handler).
Proof.
  intros Hb Hh s r s'. unfold try_except.
  destruct (body s) as [[a|e] s1] eqn:Hbs.
  - intros [= <- <-]. eapply Hb. exact Hbs.
  - destruct (handler e) as [h|] eqn:He.
    + intros Hhs. rewrite (Hh e h He s1 r s' Hhs). eapply Hb. exact Hbs.
    + intros [= <- <-]. eapply Hb. exact Hbs.
Qed.

Lemma kept_with_open {A} io path mode (body : M state A) :
  module_kept body -> module_kept (with_open io path mode body).
Proof.
  intros Hb. unfold with_open. apply kept_bind; [apply kept_in_world|].
  intros _ s r s'.
  destruct (body s) as [r0 s1] eqn:Hbs.
  destruct (in_world (close_file io path) s1) as [[u|e] s2] eqn:Hclose;
    intros [= <- <-];
    rewrite (kept_in_world _ _ _ _ Hclose); eapply Hb; exact Hbs.
Qed.

(** [save_to_json] reads the module and never changes it. *)
Lemma kept_save_to_json io cls : module_kept (save_to_json io cls).
Proof.
  unfold save_to_json. apply kept_bind; [apply kept_get_module|].
  intros m0. destruct (output_folder m0) as [folder|]; [|apply kept_ret].
  destruct (String.eqb folder ""); [apply kept_ret|].
  apply kept_bind.
  - destruct (truthy (results m0)); [|apply kept_ret].
    apply kept_with_open.
    apply kept_try_except; [apply kept_in_world|].
    intros e h. destruct (is_Exception e); [|discriminate].
    intros [= <-]. apply kept_module_log.
  - intros _. destruct (truthy (PList (detected m0))); [|apply kept_ret].
    apply kept_with_open. apply kept_in_world.
Qed.

Lemma save_to_json_no_folder io cls m w :
  output_folder m = None -> save_to_json io cls (m, w) = (Ok tt, (m, w)).
Proof. intros Hout. save_steps. rewrite Hout. reflexivity. Qed.

Lemma quiet_save_to_json io cls : quiet (save_to_json io cls).
Proof.
  intros [m w] r [m' w'] Hrun Hout.
  pose proof (kept_save_to_json io cls _ _ _ Hrun) as Hm. cbn in Hm, Hout. subst m'.
  rewrite (save_to_json_no_folder io cls m w Hout) in Hrun.
  injection Hrun as <- <-. reflexivity.
Qed.

(** X28.  The statements of [run_module] itself write files through
    [save_to_json] only.  In a run whose overrides [run()],
    [check_indicators()] and [serialize()] write no file of their own
    (here they act on the module only), when the module the run ends with
    has no output folder, every file is as it was before the run,
    whether the run returns or raises: the log calls, [to_timeline] and
    a [save_to_json] without output folder leave the files alone. *)
Theorem run_module_without_folder_leaves_files set_iter io cls m w r m' w' :
  run_module set_iter io cls (m, w) = (r, (m', w')) ->
  output_folder m' = None ->
  files w' = files w.
Proof.
  intros Hrun Hout.
  assert (Hquiet : quiet (run_module set_iter io cls)).
  { unfold run_module.
    apply quiet_bind; [apply silent_module_log|]. intros _.
    apply quiet_try_except_else.
    - apply silent_call, silent_on_module.
    - intros e h.
      destruct (exn_cls e); try (intros [= <-]; apply silent_module_log);
        destruct (is_Exception e); try discriminate;
        intros [= <-]; apply silent_module_log.
    - apply quiet_bind.
      + apply silent_try_except_else.
        * apply silent_call, silent_on_module.
        * intros e h. destruct (exn_cls e); try discriminate.
          intros [= <-]. apply silent_module_log.
        * apply silent_bind; [apply silent_get_module|]. intros m0.
          destruct (indicators m0); [destruct (detected m0)|];
            try apply silent_ret; apply silent_module_log.
      + intros _. apply quiet_bind.
        * apply silent_try_except.
          -- apply silent_call, silent_to_timeline.
          -- intros e h. destruct (exn_cls e); try discriminate.
             intros [= <-]. apply silent_ret.
        * intros _. unfold call. apply quiet_bind.
          -- intros [m0 w0] r0 s0. unfold in_world, emit. cbn.
             intros [= <- <-]. reflexivity.
          -- intros _. apply quiet_save_to_json. }
  exact (Hquiet (m, w) r (m', w') Hrun Hout).
Qed.

Lemma run_module_without_folder_leaves_files_witness :
  files (World ∅
           [Logged mvt_logger LInfo "Running module %s..." [PStr "Contacts"];
            Called Mrun; Called Mcheck_indicators; Called Mto_timeline;
            Called Msave_to_json])
  = files empty_world.
Proof.
  apply (run_module_without_folder_leaves_files set_iter_forward io_ok
           contacts_class (no_output_folder contacts_module) empty_world
           (Ok tt) (no_output_folder contacts_module)
           (World ∅
              [Logged mvt_logger LInfo "Running module %s..." [PStr "Contacts"];
               Called Mrun; Called Mcheck_indicators; Called Mto_timeline;
               Called Msave_to_json])).
  - vm_compute. reflexivity.
  - reflexivity.
Defined.

Lemma sequence_length {A} (l : list (result A)) l' :
  sequence l = Ok l' -> List.length l' = List.length l.
Proof.
  revert l'. induction l as [|r l IH]; cbn; intros l'.
  - intros [= <-]. reflexivity.
  - destruct r as [a|e]; cbn; [|discriminate].
    destruct (sequence l) as [l0|e]; cbn; [|discriminate].
    intros [= <-]. cbn. rewrite (IH l0 eq_refl). reflexivity.
Qed.

(** X29.  Whatever the records are, a timeline that deduplicates at all
    comes out no longer than it went in, and an empty timeline stays
    empty. *)
Theorem timeline_deduplicate_never_lengthens set_iter tl deduplicated :
  set_contract set_iter ->
  timeline_deduplicate set_iter tl = Ok deduplicated ->
  List.length deduplicated <= List.length tl /\
  (tl = [] -> deduplicated = []).
Proof.
  intros Hset. unfold timeline_deduplicate.
  destruct (sequence (map (encode true false) tl)) as [docs|e] eqn:Hdocs;
    cbn; [|discriminate].
  intros [= <-].
  assert (Hlen : List.length (set_iter docs) <= List.length docs).
  { apply NoDup_incl_length; [apply Hset|].
    intros j Hj. apply (proj1 (proj2 (Hset _) _)), Hj. }
  split.
  - rewrite length_map. apply sequence_length in Hdocs.
    rewrite length_map in Hdocs. lia.
  - intros ->. cbn in Hdocs. injection Hdocs as <-.
    destruct (set_iter []) as [|j rest]; [reflexivity|]. cbn in Hlen. lia.
Qed.

Lemma timeline_deduplicate_never_lengthens_witness :
  List.length [PDict [("timestamp", PNone)]] <=
    List.length [PDict [("timestamp", PNone)]; PDict [("timestamp", PNone)]] /\
  ([PDict [("timestamp", PNone)]; PDict [("timestamp", PNone)]] = [] ->
   [PDict [("timestamp", PNone)]] = []).
Proof.
  apply (timeline_deduplicate_never_lengthens set_iter_forward
           [PDict [("timestamp", PNone)]; PDict [("timestamp", PNone)]]
           [PDict [("timestamp", PNone)]]).
  - exact set_iter_forward_ok.
  - vm_compute. reflexivity.
Defined.
